(** * ComplaintAssist: the commitment / nullifier anti-replay core

    A shallow embedding of [server/services/zk-identity.ts] (identity
    commitments, action nullifiers, proof issuance and verification), of the
    tables of [shared/schema.ts] it works on, and of the encryption service,
    together with the properties the specification states about them.

    Conventions of the embedding.
    - A JavaScript string is a [string]; each [ascii] stands for one UTF-16
      code unit in the range U+0000..U+00FF, so [String.length] is the
      [.length] of the source and [+:+] is its [+].
    - [crypto.createHash('sha256')] is FIPS 180-4 SHA-256 over the UTF-8
      encoding of the string, on 32-bit words carried in [Z].
    - An [async] method reading or writing the database is a function from
      the database state to an outcome and a new state; [throw] is an
      outcome, and whatever was written before a [throw] stays written. *)

From stdpp Require Import gmap strings list.
From Stdlib Require Import ZArith Ascii DecimalString.

Local Open Scope string_scope.
Local Open Scope Z_scope.

(** ** 32-bit words *)

Module Word32.

Definition modulus : Z := 2 ^ 32.

Definition wrap (x : Z) : Z := x mod modulus.

Definition add (x y : Z) : Z := wrap (x + y).

Definition shr (n x : Z) : Z := Z.shiftr x n.

Definition rotr (n x : Z) : Z :=
  Z.lor (Z.shiftr x n) (wrap (Z.shiftl x (32 - n))).

Definition not (x : Z) : Z := Z.lxor x (modulus - 1).

End Word32.

(** ** SHA-256 (FIPS 180-4), the digest behind [crypto.createHash('sha256')] *)

Module Sha256.

Import Word32.

Definition Ch (x y z : Z) : Z := Z.lxor (Z.land x y) (Z.land (not x) z).

Definition Maj (x y z : Z) : Z :=
  Z.lxor (Z.lxor (Z.land x y) (Z.land x z)) (Z.land y z).

Definition bigSigma0 (x : Z) : Z :=
  Z.lxor (Z.lxor (rotr 2 x) (rotr 13 x)) (rotr 22 x).

Definition bigSigma1 (x : Z) : Z :=
  Z.lxor (Z.lxor (rotr 6 x) (rotr 11 x)) (rotr 25 x).

Definition smallSigma0 (x : Z) : Z :=
  Z.lxor (Z.lxor (rotr 7 x) (rotr 18 x)) (shr 3 x).

Definition smallSigma1 (x : Z) : Z :=
  Z.lxor (Z.lxor (rotr 17 x) (rotr 19 x)) (shr 10 x).

(** The round constants are the first 32 bits of the fractional parts of
    the cube roots of the first 64 primes, and the initial hash value the
    same of the square roots of the first 8: both are computed here from
    that definition. *)

Definition primes64 : list Z :=
  [2; 3; 5; 7; 11; 13; 17; 19; 23; 29; 31; 37; 41; 43; 47; 53;
   59; 61; 67; 71; 73; 79; 83; 89; 97; 101; 103; 107; 109; 113; 127; 131;
   137; 139; 149; 151; 157; 163; 167; 173; 179; 181; 191; 193; 197; 199;
   211; 223; 227; 229; 233; 239; 241; 251; 257; 263; 269; 271; 277; 281;
   283; 293; 307; 311].

(** Integer cube root by bisection over the bits, highest first. *)
Fixpoint cube_root_bits (bits : nat) (n acc : Z) : Z :=
  match bits with
  | O => acc
  | S k =>
      let c := acc + 2 ^ Z.of_nat k in
      cube_root_bits k n (if c * c * c <=? n then c else acc)
  end.

Definition cube_root (n : Z) : Z := cube_root_bits 40 n 0.

Definition K : list Z :=
  Eval vm_compute in map (fun p => wrap (cube_root (p * 2 ^ 96))) primes64.

Definition state : Type := Z * Z * Z * Z * Z * Z * Z * Z.

Definition H0 : state :=
  Eval vm_compute in
    let f p := wrap (Z.sqrt (p * 2 ^ 64)) in
    (f 2, f 3, f 5, f 7, f 11, f 13, f 17, f 19).

(** Padding: a [0x80] byte, zero bytes up to 56 modulo 64, then the
    length in bits as a 64-bit big-endian integer. *)

Definition be_bytes (n : nat) (x : Z) : list Z :=
  map (fun i => (x / 2 ^ (8 * Z.of_nat i)) mod 256) (rev (seq 0 n)).

Definition pad (msg : list Z) : list Z :=
  let len := Z.of_nat (length msg) in
  msg ++ [128] ++ repeat 0 (Z.to_nat ((55 - len) mod 64))
      ++ be_bytes 8 (8 * len).

Fixpoint words_be (bytes : list Z) : list Z :=
  match bytes with
  | b3 :: b2 :: b1 :: b0 :: rest =>
      (b3 * 2 ^ 24 + b2 * 2 ^ 16 + b1 * 2 ^ 8 + b0) :: words_be rest
  | _ => []
  end.

Fixpoint blocks (n : nat) (ws : list Z) : list (list Z) :=
  match n with
  | O => []
  | S k => take 16 ws :: blocks k (drop 16 ws)
  end.

(** Message schedule: [W] grows from the 16 words of the block to 64. *)
Fixpoint expand (n : nat) (W : list Z) : list Z :=
  match n with
  | O => W
  | S k =>
      let t := length W in
      let w i := nth (t - i) W 0 in
      expand k
        (W ++ [add (add (smallSigma1 (w 2%nat)) (w 7%nat))
                   (add (smallSigma0 (w 15%nat)) (w 16%nat))])
  end.

Definition round (s : state) (kw : Z * Z) : state :=
  let '(a, b, c, d, e, f, g, h) := s in
  let '(k, w) := kw in
  let T1 := add (add (add (add h (bigSigma1 e)) (Ch e f g)) k) w in
  let T2 := add (bigSigma0 a) (Maj a b c) in
  (add T1 T2, a, b, c, add d T1, e, f, g).

Definition add_state (s t : state) : state :=
  let '(a, b, c, d, e, f, g, h) := s in
  let '(a', b', c', d', e', f', g', h') := t in
  (add a a', add b b', add c c', add d d',
   add e e', add f f', add g g', add h h').

Definition compress (s : state) (block : list Z) : state :=
  add_state s (fold_left round (combine K (expand 48 block)) s).

Definition digest (msg : list Z) : state :=
  let ws := words_be (pad msg) in
  fold_left compress (blocks (length ws / 16) ws) H0.

End Sha256.

(** ** Strings, as the source uses them *)

(** [Buffer.from(s, 'utf8')] on code units below U+0100: one byte below
    U+0080, two bytes from there on. *)
Definition utf8_of_code_unit (c : ascii) : list Z :=
  let n := Z.of_N (N_of_ascii c) in
  if n <? 128 then [n] else [192 + n / 64; 128 + n mod 64].

Fixpoint utf8 (s : string) : list Z :=
  match s with
  | EmptyString => []
  | String c rest => utf8_of_code_unit c ++ utf8 rest
  end.

Definition hex_digit (n : Z) : ascii :=
  match String.get (Z.to_nat (n mod 16)) "0123456789abcdef" with
  | Some c => c
  | None => "0"%char
  end.

(** The eight lower-case hexadecimal digits of a 32-bit word. *)
Definition hex32 (w : Z) : string :=
  String (hex_digit (w / 2 ^ 28))
    (String (hex_digit (w / 2 ^ 24))
       (String (hex_digit (w / 2 ^ 20))
          (String (hex_digit (w / 2 ^ 16))
             (String (hex_digit (w / 2 ^ 12))
                (String (hex_digit (w / 2 ^ 8))
                   (String (hex_digit (w / 2 ^ 4))
                      (String (hex_digit w) EmptyString))))))).

(** [crypto.createHash('sha256').update(s).digest('hex')] *)
Definition sha256_hex (s : string) : string :=
  let '(a, b, c, d, e, f, g, h) := Sha256.digest (utf8 s) in
  hex32 a +:+ hex32 b +:+ hex32 c +:+ hex32 d +:+
  hex32 e +:+ hex32 f +:+ hex32 g +:+ hex32 h.

(** [buf.toString('hex')] *)
Definition hex8 (b : Z) : string :=
  String (hex_digit (b / 16)) (String (hex_digit b) EmptyString).

Fixpoint hex_of_bytes (bytes : list Z) : string :=
  match bytes with
  | [] => ""
  | b :: rest => hex8 b +:+ hex_of_bytes rest
  end.

(** [n.toString()] of a non-negative integer below 2^53, such as the
    reading of [Date.now()]. *)
Definition toString (n : N) : string := NilZero.string_of_uint (N.to_uint n).

(** [!s] on a string: only the empty string is falsy. *)
Definition falsy (s : string) : bool := String.eqb s "".

(** [s.startsWith(p)] *)
Fixpoint startsWith (s p : string) {struct p} : bool :=
  match p with
  | EmptyString => true
  | String a p' =>
      match s with
      | EmptyString => false
      | String b s' => Ascii.eqb a b && startsWith s' p'
      end
  end.

(** ** The tables of [shared/schema.ts]

    The [id] column of both tables (a random UUID, never read by the
    service) is left out. *)

(** A row of [zk_identities]. *)
Record ZkIdentity : Type := mkZkIdentity {
  zi_commitment : string;      (* unique *)
  zi_nullifierHash : string;   (* unique *)
  zi_groupId : string;
  zi_isValid : bool;           (* default true *)
  zi_createdAt : N             (* default now() *)
}.

(** A row of [nullifier_tracker]. *)
Record NullifierTracker : Type := mkNullifierTracker {
  nt_nullifierHash : string;   (* unique *)
  nt_action : string;
  nt_topic : string;
  nt_createdAt : N             (* default now() *)
}.

(** The database: the identity registry and the nullifier ledger. *)
Record Storage : Type := mkStorage {
  zkIdentities : list ZkIdentity;
  nullifierTracker : list NullifierTracker
}.

Definition emptyStorage : Storage :=
  {| zkIdentities := []; nullifierTracker := [] |}.

(** ** Outcomes of an [async] method *)

(** [new Error(message)] *)
Inductive Error : Type := mkError (message : string).

Inductive outcome (A : Type) : Type :=
| Return (a : A)
| Throw (e : Error).
Arguments Return {A} a.
Arguments Throw {A} e.

Definition M (A : Type) : Type := Storage -> outcome A * Storage.

Definition ret {A} (a : A) : M A := fun st => (Return a, st).

Definition throw {A} (e : Error) : M A := fun st => (Throw e, st).

Definition bind {A B} (m : M A) (k : A -> M B) : M B :=
  fun st =>
    match m st with
    | (Return a, st') => k a st'
    | (Throw e, st') => (Throw e, st')
    end.

(** [try { body } catch (error) { handler }] *)
Definition try_catch {A} (body : M A) (handler : Error -> M A) : M A :=
  fun st =>
    match body st with
    | (Return a, st') => (Return a, st')
    | (Throw e, st') => handler e st'
    end.

Notation "'let*' x ':=' m 'in' k" := (bind m (fun x => k))
  (at level 10, x pattern, m at level 100, k at level 200).

(** ** The storage collaborator ([server/storage.ts]) *)

Module storage.

(** Modelled from the spec: [server/storage.ts] is not among the sources.
    The key of a ledger query is the triple (nullifier hash, action,
    topic). *)
Definition sameNullifier (h action topic : string) (r : NullifierTracker)
  : bool :=
  String.eqb (nt_nullifierHash r) h && String.eqb (nt_action r) action
  && String.eqb (nt_topic r) topic.

Definition hasHash (h : string) (r : NullifierTracker) : bool :=
  String.eqb (nt_nullifierHash r) h.

(** Modelled from the spec: [server/storage.ts] is not among the sources.
    The nullifier hash is globally unique ([nullifier_hash] is [unique] in
    the schema): is the hash in the table, under whatever action and
    topic. *)
Definition hashRecorded (h : string) (st : Storage) : bool :=
  existsb (hasHash h) (nullifierTracker st).

(** Modelled from the spec: [server/storage.ts] is not among the sources.
    NullifierLedger [existsFor(nullifierHash, action, topic) -> bool]: is
    there an entry for this triple. *)
Definition checkNullifierUsed (h action topic : string) : M bool :=
  fun st => (Return (existsb (sameNullifier h action topic)
                       (nullifierTracker st)), st).

Definition DuplicateNullifier : Error := mkError "DuplicateNullifier".

(** Modelled from the spec: [server/storage.ts] is not among the sources.
    NullifierLedger [insert(nullifierHash, action, topic)] fails
    [DuplicateNullifier] atomically if the hash is already present
    ([nullifier_hash] is [unique] in the schema); otherwise it adds one
    entry, stamped by the database clock. *)
Definition addNullifier (now : N) (h action topic : string) : M unit :=
  fun st =>
    if hashRecorded h st
    then (Throw DuplicateNullifier, st)
    else (Return tt,
          {| zkIdentities := zkIdentities st;
             nullifierTracker :=
               nullifierTracker st
               ++ [{| nt_nullifierHash := h; nt_action := action;
                      nt_topic := topic; nt_createdAt := now |}] |}).

(** Modelled from the spec: [server/storage.ts] is not among the sources.
    IdentityRegistry [getByCommitment(commitment)]: the record of that
    commitment, or none. *)
Definition getZkIdentityByCommitment (commitment : string)
  : M (option ZkIdentity) :=
  fun st => (Return (find (fun r => String.eqb (zi_commitment r) commitment)
                       (zkIdentities st)), st).

Definition DuplicateCommitment : Error := mkError "DuplicateCommitment".

(** Modelled from the spec: [server/storage.ts] is not among the sources.
    IdentityRegistry [put(commitment, groupNullifierHash, groupId)] fails
    [DuplicateCommitment] on collision (both columns are [unique] in the
    schema); the new record is valid. *)
Definition createZkIdentity (now : N)
    (commitment nullifierHash groupId : string) : M ZkIdentity :=
  fun st =>
    if existsb (fun r => String.eqb (zi_commitment r) commitment
                         || String.eqb (zi_nullifierHash r) nullifierHash)
         (zkIdentities st)
    then (Throw DuplicateCommitment, st)
    else
      let row := {| zi_commitment := commitment;
                    zi_nullifierHash := nullifierHash;
                    zi_groupId := groupId; zi_isValid := true;
                    zi_createdAt := now |} in
      (Return row,
       {| zkIdentities := zkIdentities st ++ [row];
          nullifierTracker := nullifierTracker st |}).

End storage.

(** ** [server/services/zk-identity.ts] *)

Record ZKProof : Type := mkZKProof {
  proof : string;
  publicSignals : list string;
  nullifierHash : string
}.

Record ZKIdentityData : Type := mkZKIdentityData {
  commitment : string;
  id_nullifierHash : string;
  trapdoor : string;
  nullifier : string;
  groupId : string
}.

Module ZkIdentityService.

(** [randomBytes] are the 32 bytes drawn by [crypto.randomBytes(32)]. *)
Definition generateRandomField (randomBytes : list Z) : string :=
  "0x" +:+ hex_of_bytes randomBytes.

Definition generateCommitment (trapdoor nullifier : string) : string :=
  "0x" +:+ sha256_hex (trapdoor +:+ nullifier).

Definition generateNullifierHash (nullifier groupId : string) : string :=
  "0x" +:+ sha256_hex (nullifier +:+ groupId).

Definition generateActionNullifierHash (nullifier action topic : string)
  : string :=
  "0x" +:+ sha256_hex ((nullifier +:+ action) +:+ topic).

(** [now] is the reading of [Date.now()]. *)
Definition generateZkProofData (now : N) (identity : ZKIdentityData)
    (action topic : string) : string :=
  "0x" +:+ sha256_hex
             (((commitment identity +:+ action) +:+ topic) +:+ toString now).

(** [groupId] is [None] when the caller passes none. *)
Definition generateIdentity (now : N) (random1 random2 : list Z)
    (groupId : option string) : M ZKIdentityData :=
  let groupId := default "speaksecure-v1" groupId in
  try_catch
    (let trapdoor := generateRandomField random1 in
     let nullifier := generateRandomField random2 in
     let commitment := generateCommitment trapdoor nullifier in
     let nullifierHash := generateNullifierHash nullifier groupId in
     let* _ :=
       storage.createZkIdentity now commitment nullifierHash groupId in
     ret {| commitment := commitment; id_nullifierHash := nullifierHash;
            trapdoor := trapdoor; nullifier := nullifier;
            groupId := groupId |})
    (fun _ => throw (mkError "Failed to generate ZK identity")).

Definition ActionAlreadyPerformed : Error :=
  mkError "Action already performed with this identity".

Definition FailedToGenerateProof : Error :=
  mkError "Failed to generate ZK proof".

(** The body of the [try] of [generateProof] (lines 53-76). *)
Definition generateProof_try (now : N) (identity : ZKIdentityData)
    (action topic : string) : M ZKProof :=
  let actionNullifierHash :=
    generateActionNullifierHash (nullifier identity) action topic in
  let* alreadyUsed :=
    storage.checkNullifierUsed actionNullifierHash action topic in
  if alreadyUsed : bool then throw ActionAlreadyPerformed
  else
    let proof := generateZkProofData now identity action topic in
    let* _ := storage.addNullifier now actionNullifierHash action topic in
    ret {| proof := proof;
           publicSignals :=
             [commitment identity; actionNullifierHash; topic];
           nullifierHash := actionNullifierHash |}.

(** [generateProof]: whatever the body throws, the caller is thrown
    [Failed to generate ZK proof] (lines 77-80). *)
Definition generateProof (now : N) (identity : ZKIdentityData)
    (action topic : string) : M ZKProof :=
  try_catch (generateProof_try now identity action topic)
    (fun _ => throw FailedToGenerateProof).

(** The body of the [try] of [verifyProof] (lines 85-113). An array is
    never falsy, so [!proof.publicSignals] is [false]. *)
Definition verifyProof_try (p : ZKProof) (action topic : string) : M bool :=
  if falsy (proof p) || false || falsy (nullifierHash p) then ret false
  else if negb (length (publicSignals p) =? 3)%nat then ret false
  else if negb (startsWith (nullifierHash p) "0x")
          || negb (String.length (nullifierHash p) =? 66)%nat then ret false
  else
    let* alreadyUsed :=
      storage.checkNullifierUsed (nullifierHash p) action topic in
    if alreadyUsed : bool then ret false
    else
      match publicSignals p with
      | commitment :: _ =>
          let* identity := storage.getZkIdentityByCommitment commitment in
          match identity with
          | None => ret false
          | Some i => if negb (zi_isValid i) then ret false else ret true
          end
      | [] => ret false
      end.

Definition verifyProof (p : ZKProof) (action topic : string) : M bool :=
  try_catch (verifyProof_try p action topic) (fun _ => ret false).

Definition verifyIdentity (commitment : string) : M bool :=
  try_catch
    (let* identity := storage.getZkIdentityByCommitment commitment in
     ret (match identity with
          | Some i => zi_isValid i
          | None => false
          end))
    (fun _ => ret false).

End ZkIdentityService.

(** ** [POST /proof] of [server/routes/zk-identity.ts] *)

(** The identity object the handler makes of the fields of a validated
    request (lines 59-68) and hands to [generateProof]. *)
Definition proofRequestIdentity (commitment nullifier trapdoor groupId : string)
  : ZKIdentityData :=
  {| commitment := commitment; id_nullifierHash := "";
     trapdoor := trapdoor; nullifier := nullifier; groupId := groupId |}.

(** The checks of lines 86-98 of [verifyProof], taken together. *)
Definition structuralCheck (p : ZKProof) : bool :=
  negb (falsy (proof p) || false || falsy (nullifierHash p))
  && (length (publicSignals p) =? 3)%nat
  && startsWith (nullifierHash p) "0x"
  && (String.length (nullifierHash p) =? 66)%nat.

Definition isHexDigit (c : ascii) : bool :=
  let n := N_of_ascii c in
  ((48 <=? n) && (n <=? 57) || (97 <=? n) && (n <=? 102)
   || (65 <=? n) && (n <=? 70))%N.

Fixpoint allHex (s : string) : bool :=
  match s with
  | EmptyString => true
  | String c rest => isHexDigit c && allHex rest
  end.

(** The structural check as the specification words it: [proofBlob]
    non-empty, exactly three public signals, [nullifierHash] a 0x-prefixed
    string of 64 hexadecimal digits, equal to [publicSignals[1]]. *)
Definition specWellFormed (p : ZKProof) : bool :=
  negb (falsy (proof p))
  && (length (publicSignals p) =? 3)%nat
  && startsWith (nullifierHash p) "0x"
  && (String.length (nullifierHash p) =? 66)%nat
  && allHex (String.substring 2 64 (nullifierHash p))
  && match publicSignals p with
     | _ :: s1 :: _ => String.eqb (nullifierHash p) s1
     | _ => false
     end.

(** ** Two calls of [generateProof] in flight

    An [async] method runs undisturbed from one [await] to the next; between
    two of them the other call may run. [generateProof] has four: the
    derivation of the nullifier (line 54), the query of the ledger (line
    61), the computation of the proof data (line 67) and the insertion into
    the ledger (line 70). Each of the two database statements is atomic. *)

Module Concurrent.

Import ZkIdentityService.

Record call : Type := mkCall {
  now : N;
  identity : ZKIdentityData;
  action : string;
  topic : string
}.

(** Where a call stands: about to resume at one of its awaits, holding
    the values computed so far, or settled. *)
Inductive task : Type :=
| AtDerive
| AtCheck (actionNullifierHash : string)
| AtBuild (actionNullifierHash : string)
| AtRecord (actionNullifierHash proof : string)
| Settled (r : outcome ZKProof).

(** One turn of a call: from its current await to the next one, or to
    the end; any throw on the way lands in the [catch] of line 77. *)
Definition step (c : call) (t : task) (st : Storage) : task * Storage :=
  match t with
  | AtDerive =>
      (AtCheck (generateActionNullifierHash (nullifier (identity c))
                  (action c) (topic c)), st)
  | AtCheck h =>
      match storage.checkNullifierUsed h (action c) (topic c) st with
      | (Return true, st') => (Settled (Throw FailedToGenerateProof), st')
      | (Return false, st') => (AtBuild h, st')
      | (Throw _, st') => (Settled (Throw FailedToGenerateProof), st')
      end
  | AtBuild h =>
      (AtRecord h (generateZkProofData (now c) (identity c) (action c)
                     (topic c)), st)
  | AtRecord h proof =>
      match storage.addNullifier (now c) h (action c) (topic c) st with
      | (Return _, st') =>
          (Settled
             (Return {| proof := proof;
                        publicSignals :=
                          [commitment (identity c); h; topic c];
                        nullifierHash := h |}), st')
      | (Throw _, st') => (Settled (Throw FailedToGenerateProof), st')
      end
  | Settled r => (Settled r, st)
  end.

Fixpoint steps (n : nat) (c : call) (t : task) (st : Storage)
  : task * Storage :=
  match n with
  | O => (t, st)
  | S k => let '(t', st') := step c t st in steps k c t' st'
  end.

(** Two calls and the database they share. *)
Definition config : Type := task * task * Storage.

(** The scheduler gives the turn to the first call ([true]) or to the
    second ([false]). *)
Definition turn (c1 c2 : call) (cf : config) (first : bool) : config :=
  let '(t1, t2, st) := cf in
  if first
  then let '(t1', st') := step c1 t1 st in (t1', t2, st')
  else let '(t2', st') := step c2 t2 st in (t1, t2', st').

Definition run (c1 c2 : call) (schedule : list bool) (cf : config)
  : config :=
  fold_left (turn c1 c2) schedule cf.

(** The turns a schedule gives to a call. *)
Definition turns (first : bool) (schedule : list bool) : nat :=
  length (List.filter (Bool.eqb first) schedule).

(** The ledger entries of a nullifier hash. *)
Definition entries (h : string) (st : Storage) : list NullifierTracker :=
  List.filter (storage.hasHash h) (nullifierTracker st).

(** What call [c] returns, and the database it leaves, when its insertion
    goes through. *)
Definition artifact (c : call) : ZKProof :=
  {| proof := generateZkProofData (now c) (identity c) (action c) (topic c);
     publicSignals :=
       [commitment (identity c);
        generateActionNullifierHash (nullifier (identity c)) (action c)
          (topic c);
        topic c];
     nullifierHash :=
       generateActionNullifierHash (nullifier (identity c)) (action c)
         (topic c) |}.

Definition committed (c : call) (st : Storage) : Storage :=
  {| zkIdentities := zkIdentities st;
     nullifierTracker :=
       nullifierTracker st
       ++ [{| nt_nullifierHash :=
                generateActionNullifierHash (nullifier (identity c))
                  (action c) (topic c);
              nt_action := action c; nt_topic := topic c;
              nt_createdAt := now c |}] |}.

(** A call that has not come to the end of its insertion. *)
Inductive pending (c : call) : task -> Prop :=
| pending_derive : pending c AtDerive
| pending_check : pending c (AtCheck (nullifierHash (artifact c)))
| pending_build : pending c (AtBuild (nullifierHash (artifact c)))
| pending_record :
    pending c (AtRecord (nullifierHash (artifact c)) (proof (artifact c))).

(** A call that can no longer be the one whose insertion goes through. *)
Inductive losing (c : call) : task -> Prop :=
| losing_pending t : pending c t -> losing c t
| losing_settled : losing c (Settled (Throw FailedToGenerateProof)).

(** The configurations two calls can reach from the database [st0]:
    nothing inserted yet, or the first call has won, or the second. *)
Inductive invariant (c1 c2 : call) (st0 : Storage) : config -> Prop :=
| inv_open t1 t2 :
    pending c1 t1 -> pending c2 t2 -> invariant c1 c2 st0 (t1, t2, st0)
| inv_first t2 :
    losing c2 t2 ->
    invariant c1 c2 st0
      (Settled (Return (artifact c1)), t2, committed c1 st0)
| inv_second t1 :
    losing c1 t1 ->
    invariant c1 c2 st0
      (t1, Settled (Return (artifact c2)), committed c2 st0).

(** The awaits a call still has before it. *)
Definition remaining (t : task) : nat :=
  match t with
  | AtDerive => 4
  | AtCheck _ => 3
  | AtBuild _ => 2
  | AtRecord _ _ => 1
  | Settled _ => 0
  end.

End Concurrent.

(** ** [server/services/encryption.ts] *)

(** The value of one hexadecimal digit, if it is one. *)
Definition hex_value (c : ascii) : option Z :=
  let n := Z.of_N (N_of_ascii c) in
  if (48 <=? n) && (n <=? 57) then Some (n - 48)
  else if (97 <=? n) && (n <=? 102) then Some (n - 87)
  else if (65 <=? n) && (n <=? 70) then Some (n - 55)
  else None.

(** [Buffer.from(s, 'hex')]: a byte for every two digits, up to the first
    pair that is not two hexadecimal digits. *)
Fixpoint bytes_of_hex (s : string) : list Z :=
  match s with
  | String hi (String lo rest) =>
      match hex_value hi, hex_value lo with
      | Some h, Some l => (16 * h + l) :: bytes_of_hex rest
      | _, _ => []
      end
  | _ => []
  end.

(** The [crypto] module of the runtime, as far as the encryption service
    reaches into it. Reading a member the module does not have gives
    [undefined], here [None], and calling it throws a [TypeError]. *)
Module crypto.

Definition Buffer : Type := list Z.

(** A cipher made for an algorithm, a key and a nonce, used the way
    [encrypt] does: [setAAD], then [update(plaintext, 'utf8', 'hex')] and
    [final('hex')], then [getAuthTag]. *)
Record Cipher : Type := mkCipher {
  seal : Buffer -> string -> outcome (string * Buffer)
}.

(** The same for [decrypt]: [setAAD], [setAuthTag], then
    [update(ciphertext, 'hex', 'utf8')] and [final('utf8')], which throws
    when the tag does not verify. *)
Record Decipher : Type := mkDecipher {
  open : Buffer -> Buffer -> string -> outcome string
}.

Record api : Type := mkApi {
  createCipherGCM : option (string -> Buffer -> Buffer -> outcome Cipher);
  createDecipherGCM :
    option (string -> Buffer -> Buffer -> outcome Decipher)
}.

(** The [crypto] module of Node.js: its ciphers are made by
    [createCipheriv] and [createDecipheriv], and it has no member called
    [createCipherGCM] or [createDecipherGCM]. *)
Definition node : api :=
  {| createCipherGCM := None; createDecipherGCM := None |}.

Definition call {F : Type} (member : option F) (name : string)
  : outcome F :=
  match member with
  | Some f => Return f
  | None => Throw (mkError (name +:+ " is not a function"))
  end.

End crypto.

Record EncryptedData : Type := mkEncryptedData {
  encryptedContent : string;
  iv : string;
  authTag : string;
  key : string
}.

Record DecryptedData : Type := mkDecryptedData { content : string }.

Module EncryptionService.

Import crypto.

Definition algorithm : string := "aes-256-gcm".
Definition keyLength : nat := 32.
Definition ivLength : nat := 16.

Definition aad : Buffer := utf8 "speaksecure-auth".

Definition andThen {A B} (m : outcome A) (k : A -> outcome B) : outcome B :=
  match m with
  | Return a => k a
  | Throw e => Throw e
  end.

Definition catch {A} (body : outcome A) (handler : Error -> outcome A)
  : outcome A :=
  match body with
  | Return a => Return a
  | Throw e => handler e
  end.

(** [randomKey] and [randomIv] are what [crypto.randomBytes] would give
    for the key, when none is supplied, and for the nonce. *)
Definition encrypt (c : api) (randomKey randomIv : Buffer)
    (plaintext : string) (key : option string) : outcome EncryptedData :=
  catch
    (let encryptionKey :=
       match key with
       | Some k => if falsy k then randomKey else bytes_of_hex k
       | None => randomKey
       end in
     let iv := randomIv in
     andThen (call (createCipherGCM c) "crypto.createCipherGCM")
       (fun create =>
          andThen (create algorithm encryptionKey iv)
            (fun cipher =>
               andThen (seal cipher aad plaintext)
                 (fun '(encrypted, authTag) =>
                    Return {| encryptedContent := encrypted;
                              iv := hex_of_bytes iv;
                              authTag := hex_of_bytes authTag;
                              key := hex_of_bytes encryptionKey |}))))
    (fun _ => Throw (mkError "Failed to encrypt data")).

Definition decrypt (c : api) (encryptedData : EncryptedData)
  : outcome DecryptedData :=
  catch
    (let key := bytes_of_hex (key encryptedData) in
     let iv := bytes_of_hex (iv encryptedData) in
     let authTag := bytes_of_hex (authTag encryptedData) in
     andThen (call (createDecipherGCM c) "crypto.createDecipherGCM")
       (fun create =>
          andThen (create algorithm key iv)
            (fun decipher =>
               andThen
                 (open decipher aad authTag
                    (encryptedContent encryptedData))
                 (fun decrypted => Return {| content := decrypted |}))))
    (fun _ => Throw (mkError "Failed to decrypt data")).

(** The client helpers go through [JSON] and base64, which are taken as
    they come from the runtime. *)
Section Client.

(** A JavaScript value. *)
Variable value : Type.
Variable JSON_stringify : value -> string.
Variable JSON_parse : string -> outcome value.
(** An [EncryptedData] as a value, and a parsed value read as one. *)
Variable ofEncryptedData : EncryptedData -> value.
Variable asEncryptedData : value -> EncryptedData.
(** [Buffer.from(s).toString('base64')] and
    [Buffer.from(s, 'base64').toString()] *)
Variable toBase64 : string -> string.
Variable fromBase64 : string -> string.

Definition encryptForClient (c : api) (randomKey randomIv : Buffer)
    (data : value) : outcome string :=
  let jsonString := JSON_stringify data in
  andThen (encrypt c randomKey randomIv jsonString None)
    (fun encrypted =>
       Return (toBase64 (JSON_stringify (ofEncryptedData encrypted)))).

Definition decryptFromClient (c : api) (encryptedString : string)
  : outcome value :=
  catch
    (andThen (JSON_parse (fromBase64 encryptedString))
       (fun encryptedData =>
          andThen (decrypt c (asEncryptedData encryptedData))
            (fun decrypted => JSON_parse (content decrypted))))
    (fun _ => Throw (mkError "Failed to decrypt client data")).

End Client.

End EncryptionService.

(** ** A worked scenario

    An identity issued for group [g1], then proofs requested for it. *)

Module Scenario.

Import ZkIdentityService.

Definition issuedAt : N := 1700000000000.

(** The two draws of [crypto.randomBytes(32)]: bytes 1..32 and 101..132. *)
Definition random1 : list Z := map Z.of_nat (seq 1 32).
Definition random2 : list Z := map Z.of_nat (seq 101 32).

(** The identity bundle [generateIdentity] hands to the participant. *)
Definition alice : ZKIdentityData :=
  {| commitment :=
       "0x7ce9fa30a78144e725e053c82acdecaa7c02cec25288f67abc794d894aecba52";
     id_nullifierHash :=
       "0xe374ce7a411086136b93416865d338b3028ade2cf0eff66e1e423ee4d02b1b45";
     trapdoor :=
       "0x0102030405060708090a0b0c0d0e0f101112131415161718191a1b1c1d1e1f20";
     nullifier :=
       "0x65666768696a6b6c6d6e6f707172737475767778797a7b7c7d7e7f8081828384";
     groupId := "g1" |}.

(** The database once the identity is registered: one valid identity
    record, an empty ledger. *)
Definition registered : Storage :=
  {| zkIdentities :=
       [{| zi_commitment := commitment alice;
           zi_nullifierHash := id_nullifierHash alice;
           zi_groupId := "g1"; zi_isValid := true;
           zi_createdAt := issuedAt |}];
     nullifierTracker := [] |}.

Definition requestedAt : N := 1700000001000.

(** The proof artifact issued to [alice] for [("upvote", "REF-001")]. *)
Definition upvoteProof : ZKProof :=
  {| proof :=
       "0xf8f33d152ff0642a735c2a7ce8efe3fd5aa170c8a36259e0c3ad6c150626d584";
     publicSignals :=
       [commitment alice;
        "0xf9028fef419e6b15042cb3075ed11c17adc027befacbacdcf2747114f4b2cd60";
        "REF-001"];
     nullifierHash :=
       "0xf9028fef419e6b15042cb3075ed11c17adc027befacbacdcf2747114f4b2cd60" |}.

(** The database after that issuance: the nullifier is in the ledger. *)
Definition afterUpvoteIssue : Storage :=
  {| zkIdentities := zkIdentities registered;
     nullifierTracker :=
       [{| nt_nullifierHash := nullifierHash upvoteProof;
           nt_action := "upvote"; nt_topic := "REF-001";
           nt_createdAt := requestedAt |}] |}.

(** An artifact never issued: its nullifier hash has the prefix and the
    length of a digest and not one hexadecimal digit. *)
Definition nonHexProof : ZKProof :=
  {| proof := "x";
     publicSignals :=
       [commitment alice;
        "0xzzzzzzzzzzzzzzzzzzzzzzzzzzzzzzzzzzzzzzzzzzzzzzzzzzzzzzzzzzzzzzzz";
        "REF-001"];
     nullifierHash :=
       "0xzzzzzzzzzzzzzzzzzzzzzzzzzzzzzzzzzzzzzzzzzzzzzzzzzzzzzzzzzzzzzzzz" |}.

(** Another one: its nullifier hash is a digest, and is not the second
    public signal. *)
Definition mismatchedProof : ZKProof :=
  {| proof := "x";
     publicSignals := [commitment alice; "something else"; "REF-001"];
     nullifierHash := nullifierHash upvoteProof |}.

(** Two requests of [alice] for [("upvote", "REF-001")] in flight at
    once. *)
Definition request1 : Concurrent.call :=
  Concurrent.mkCall requestedAt alice "upvote" "REF-001".
Definition request2 : Concurrent.call :=
  Concurrent.mkCall (requestedAt + 1) alice "upvote" "REF-001".

(** The turns alternate, the first call ahead: both queries of the ledger
    run before either insertion. *)
Definition alternating : list bool :=
  [true; false; true; false; true; false; true; false].

(** The proof artifact issued to [alice] for [("a", "bc")], and the
    database after that issuance. *)
Definition proofA : ZKProof :=
  {| proof :=
       "0xa89981fce2f1ed122124af812f64cfb4ea11869c30a30924fae470efaa2101b9";
     publicSignals :=
       [commitment alice;
        "0xed320c5ff2106ce66bf0e7383d3e288fa16b5123d6af5f15188ae2394bb66cef";
        "bc"];
     nullifierHash :=
       "0xed320c5ff2106ce66bf0e7383d3e288fa16b5123d6af5f15188ae2394bb66cef" |}.

Definition afterIssueA : Storage :=
  {| zkIdentities := zkIdentities registered;
     nullifierTracker :=
       [{| nt_nullifierHash := nullifierHash proofA;
           nt_action := "a"; nt_topic := "bc";
           nt_createdAt := requestedAt |}] |}.

End Scenario.

(** ** More of the storage collaborator and of the identity service *)

(** The hashes the ledger holds, oldest first. *)
Definition ledgerHashes (st : Storage) : list string :=
  map nt_nullifierHash (nullifierTracker st).

(** The test [createZkIdentity] makes of the two [unique] columns of
    [zk_identities]. *)
Definition identityCollides (commitment nullifierHash : string)
    (st : Storage) : bool :=
  existsb (fun r => String.eqb (zi_commitment r) commitment
                    || String.eqb (zi_nullifierHash r) nullifierHash)
    (zkIdentities st).

(** The registry record [generateIdentity] stores for a bundle. *)
Definition identityRecord (now : N) (i : ZKIdentityData) : ZkIdentity :=
  {| zi_commitment := commitment i;
     zi_nullifierHash := id_nullifierHash i;
     zi_groupId := groupId i; zi_isValid := true; zi_createdAt := now |}.

(** The bundle [generateIdentity] makes of two random draws and a group. *)
Definition identityOf (random1 random2 : list Z) (group : string)
  : ZKIdentityData :=
  let trapdoor := ZkIdentityService.generateRandomField random1 in
  let nullifier := ZkIdentityService.generateRandomField random2 in
  {| commitment := ZkIdentityService.generateCommitment trapdoor nullifier;
     id_nullifierHash :=
       ZkIdentityService.generateNullifierHash nullifier group;
     trapdoor := trapdoor; nullifier := nullifier; groupId := group |}.

(** ** The rest of [server/services/encryption.ts] *)

(** [n.toString(36)] of a non-negative integer: its digits in base 36,
    lower case, most significant first. *)
Definition digit36 (d : N) : ascii :=
  match String.get (N.to_nat d) "0123456789abcdefghijklmnopqrstuvwxyz" with
  | Some c => c
  | None => "0"%char
  end.

Fixpoint toString36_digits (fuel : nat) (n : N) (acc : string) : string :=
  match fuel with
  | O => acc
  | S k =>
      let acc' := String (digit36 (n mod 36)) acc in
      if (n / 36 =? 0)%N then acc' else toString36_digits k (n / 36) acc'
  end.

Definition toString36 (n : N) : string :=
  toString36_digits (S (N.to_nat (N.log2 n))) n "".

(** The number a string of base-36 digits stands for. *)
Definition value36 (c : ascii) : N :=
  let n := N_of_ascii c in
  if (n <? 58)%N then (n - 48)%N else (n - 87)%N.

Fixpoint number36 (s : string) (acc : N) : N :=
  match s with
  | EmptyString => acc
  | String c rest => number36 rest (36 * acc + value36 c)%N
  end.

(** [s.toUpperCase()] on ASCII strings: the letters [a] to [z] change and
    nothing else does. [generateReferenceId] applies it to a string of
    ASCII characters, and [formatEmergencyServiceMessage] to the priority of
    an alert, declared as ['high' | 'critical']. *)
Definition upper (c : ascii) : ascii :=
  let n := N_of_ascii c in
  if (97 <=? n)%N && (n <=? 122)%N then ascii_of_N (n - 32) else c.

Fixpoint toUpperCase (s : string) : string :=
  match s with
  | EmptyString => EmptyString
  | String c rest => String (upper c) (toUpperCase rest)
  end.

Fixpoint forallChars (f : ascii -> bool) (s : string) : bool :=
  match s with
  | EmptyString => true
  | String c rest => f c && forallChars f rest
  end.

Definition isAscii (c : ascii) : bool := (N_of_ascii c <? 128)%N.

(** A digit, an upper-case letter or a dash. *)
Definition isReferenceChar (c : ascii) : bool :=
  let n := N_of_ascii c in
  ((48 <=? n) && (n <=? 57) || (65 <=? n) && (n <=? 90) || (n =? 45))%N.

(** An ASCII character that upper-cases to a character of a reference. *)
Definition fitsReference (c : ascii) : bool :=
  isAscii c && isReferenceChar (upper c).

(** *** Strings of any code units

    [secureCompare] is given strings that need not be text. Here a string
    is the list of its UTF-16 code units, each from 0 to 65535. *)

Definition isCodeUnit (u : Z) : bool := (0 <=? u) && (u <? 65536).

Definition isHighSurrogate (u : Z) : bool := (55296 <=? u) && (u <=? 56319).

Definition isLowSurrogate (u : Z) : bool := (56320 <=? u) && (u <=? 57343).

(** The code points of a string as the UTF-8 encoder reads them: a high
    surrogate and the low one after it are one code point beyond U+FFFF,
    and a surrogate without its partner is read as U+FFFD. *)
Fixpoint codePoints (s : list Z) : list Z :=
  match s with
  | [] => []
  | u :: rest =>
      if isHighSurrogate u
      then match rest with
           | v :: rest' =>
               if isLowSurrogate v
               then (65536 + (u - 55296) * 1024 + (v - 56320))
                    :: codePoints rest'
               else 65533 :: codePoints rest
           | [] => [65533]
           end
      else if isLowSurrogate u then 65533 :: codePoints rest
      else u :: codePoints rest
  end.

(** A code point that is not a surrogate. *)
Definition isScalar (p : Z) : Prop :=
  0 <= p < 1114112 /\ ~ (55296 <= p <= 57343).

(** The bytes of a code point in UTF-8. *)
Definition utf8_of_code_point (p : Z) : list Z :=
  if p <? 128 then [p]
  else if p <? 2048 then [192 + p / 64; 128 + p mod 64]
  else if p <? 65536
       then [224 + p / 4096; 128 + (p / 64) mod 64; 128 + p mod 64]
       else [240 + p / 262144; 128 + (p / 4096) mod 64;
             128 + (p / 64) mod 64; 128 + p mod 64].

(** [Buffer.from(s)], the encoding being [utf8]. *)
Definition bufferFrom (s : list Z) : list Z :=
  flat_map utf8_of_code_point (codePoints s).

(** [String.fromCodePoint(p)]. *)
Definition fromCodePoint (p : Z) : list Z :=
  if p <? 65536 then [p]
  else [55296 + (p - 65536) / 1024; 56320 + (p - 65536) mod 1024].

(** [s.toWellFormed()]: the string with U+FFFD for each surrogate that has
    no partner. *)
Definition toWellFormed (s : list Z) : list Z :=
  flat_map fromCodePoint (codePoints s).

(** The code units of a string of the other sections, all below U+0100. *)
Fixpoint codeUnits (s : string) : list Z :=
  match s with
  | EmptyString => []
  | String c rest => Z.of_N (N_of_ascii c) :: codeUnits rest
  end.

(** [crypto.timingSafeEqual(a, b)]: it refuses buffers of different
    lengths. *)
Definition timingSafeEqual (a b : crypto.Buffer) : outcome bool :=
  if (length a =? length b)%nat
  then Return (bool_decide (a = b))
  else Throw (mkError "Input buffers must have the same byte length").

Module EncryptionTools.

(** [randomBytes] are the bytes [crypto.randomBytes] draws: [keyLength] of
    them for a key, [ivLength] for a nonce, six for a reference. *)
Definition generateKey (randomBytes : crypto.Buffer) : string :=
  hex_of_bytes randomBytes.

Definition generateIV (randomBytes : crypto.Buffer) : string :=
  hex_of_bytes randomBytes.

Definition generateHash (data : string) : string := sha256_hex data.

(** The string [generateReferenceId] builds before it is upper-cased. *)
Definition referenceTemplate (now : N) (randomBytes : crypto.Buffer)
  : string :=
  "SS-" +:+ toString36 now +:+ "-" +:+ hex_of_bytes randomBytes.

Definition generateReferenceId (now : N) (randomBytes : crypto.Buffer)
  : string :=
  toUpperCase (referenceTemplate now randomBytes).

Definition secureCompare (a b : list Z) : outcome bool :=
  if negb (length a =? length b)%nat then Return false
  else timingSafeEqual (bufferFrom a) (bufferFrom b).

End EncryptionTools.

(** The test the routes [GET /status/:referenceId] of
    [routes/complaints.ts] (line 109) and [GET /identity/:commitment] of
    [routes/zk-identity.ts] (line 191) make of their parameter before they
    look it up: [!s || s.length < 10] answers 400. *)
Definition tooShortToLookUp (s : string) : bool :=
  falsy s || (String.length s <? 10)%nat.

(** A runtime whose two members are there, with a cipher that leaves the
    text as it is and an empty tag: enough to run the service. *)
Definition plainCipher : crypto.api :=
  {| crypto.createCipherGCM :=
       Some (fun _ _ _ =>
               Return {| crypto.seal := fun _ p => Return (p, []) |});
     crypto.createDecipherGCM :=
       Some (fun _ _ _ =>
               Return {| crypto.open := fun _ _ ct => Return ct |}) |}.

(** ** [JSON.stringify] and base64, as the services use them *)

Module JSON.

(** A value to serialise. A number is only ever printed by the code
    modelled here, so it is carried as its printed form: the decimal digits
    of a clock reading, or whatever [Number.prototype.toString] gives for a
    coordinate. A member whose value is [undefined] is left out when the
    object is built. *)
#[warnings="-register-all"]
Inductive json : Type :=
| JNull
| JBool (b : bool)
| JNumber (printed : string)
| JString (s : string)
| JArray (items : list json)
| JObject (members : list (string * json)).

(** The members of an object literal, those with an [undefined] value
    omitted. *)
Definition object (members : list (string * option json)) : json :=
  JObject
    (flat_map (fun m => match snd m with
                        | Some v => [(fst m, v)]
                        | None => []
                        end) members).

Definition quoteMark : ascii := ascii_of_nat 34.
Definition backslash : ascii := ascii_of_nat 92.

(** One code unit inside a quoted string. *)
Definition quoteChar (c : ascii) : string :=
  let n := N_of_ascii c in
  if (n =? 8)%N then String backslash "b"
  else if (n =? 9)%N then String backslash "t"
  else if (n =? 10)%N then String backslash "n"
  else if (n =? 12)%N then String backslash "f"
  else if (n =? 13)%N then String backslash "r"
  else if (n =? 34)%N then String backslash (String quoteMark "")
  else if (n =? 92)%N then String backslash (String backslash "")
  else if (n <? 32)%N then String backslash ("u00" +:+ hex8 (Z.of_N n))
  else String c "".

Fixpoint quoteChars (s : string) : string :=
  match s with
  | EmptyString => EmptyString
  | String c rest => quoteChar c +:+ quoteChars rest
  end.

Definition quote (s : string) : string :=
  String quoteMark (quoteChars s +:+ String quoteMark "").

Definition newline : string := String (ascii_of_nat 10) "".

(** [JSON.stringify(value, null, gap)], at the indentation reached so far;
    [gap] is empty for the plain [JSON.stringify(value)]. *)
Fixpoint serialize (gap indent : string) (v : json) : string :=
  let inner := indent +:+ gap in
  let separator :=
    if falsy gap then "," else "," +:+ newline +:+ inner in
  let wrap (opening closing : string) (parts : list string) : string :=
    match parts with
    | [] => opening +:+ closing
    | _ =>
        if falsy gap
        then opening +:+ String.concat separator parts +:+ closing
        else opening +:+ newline +:+ inner
             +:+ String.concat separator parts
             +:+ newline +:+ indent +:+ closing
    end in
  match v with
  | JNull => "null"
  | JBool true => "true"
  | JBool false => "false"
  | JNumber printed => printed
  | JString s => quote s
  | JArray items => wrap "[" "]" (map (serialize gap inner) items)
  | JObject members =>
      wrap "{" "}"
        (map (fun m =>
                quote (fst m) +:+ ":" +:+ (if falsy gap then "" else " ")
                +:+ serialize gap inner (snd m)) members)
  end.

Definition stringify (v : json) : string := serialize "" "" v.

(** [JSON.stringify(value, null, 2)] *)
Definition stringify2 (v : json) : string := serialize "  " "" v.

End JSON.

(** [buf.toString('base64')] *)
Definition base64_digit (n : Z) : ascii :=
  match String.get (Z.to_nat (n mod 64))
          "ABCDEFGHIJKLMNOPQRSTUVWXYZabcdefghijklmnopqrstuvwxyz0123456789+/"
  with
  | Some c => c
  | None => "A"%char
  end.

Fixpoint base64_of_bytes (bytes : list Z) : string :=
  match bytes with
  | [] => ""
  | [a] =>
      String (base64_digit (a / 4))
        (String (base64_digit (a mod 4 * 16)) "==")
  | [a; b] =>
      String (base64_digit (a / 4))
        (String (base64_digit (a mod 4 * 16 + b / 16))
           (String (base64_digit (b mod 16 * 4)) "="))
  | a :: b :: c :: rest =>
      String (base64_digit (a / 4))
        (String (base64_digit (a mod 4 * 16 + b / 16))
           (String (base64_digit (b mod 16 * 4 + c / 64))
              (String (base64_digit c) (base64_of_bytes rest))))
  end.

(** ** [server/services/ipfs.ts] *)

Module IPFSService.

(** What sits in the [hash] field of a result: a string or, where an
    [async] method was called and not awaited, the promise of one. *)
Inductive hashValue : Type :=
| HashString (s : string)
| HashPromise (settled : string).

(** A hash inside a template literal. *)
Definition inTemplate (v : hashValue) : string :=
  match v with
  | HashString s => s
  | HashPromise _ => "[object Promise]"
  end.

Record IPFSUploadResult : Type := mkIPFSUploadResult {
  hash : hashValue;
  size : N;
  path : string
}.

Record IPFSRetrieveResult : Type := mkIPFSRetrieveResult {
  content : string;
  retrievedHash : string
}.

Definition generateFallbackHash (content : string) : string :=
  "Qm" +:+ String.substring 0 44 (sha256_hex content).

Definition fallback (hash : hashValue) (size : N) : IPFSUploadResult :=
  {| hash := hash; size := size; path := "/ipfs/" +:+ inTemplate hash |}.

(** The service holds a client of the IPFS node and the flag
    [testConnection] has set. The client is the library's: [add] answers
    the identifier, size and path of what it stored, [cat] the chunks of
    what it found, and either may throw; [decode] is
    [Buffer.concat(chunks).toString('utf-8')]. *)
Section Client.

Variable add : crypto.Buffer -> outcome (string * N * string).
Variable cat : string -> outcome (list crypto.Buffer).
Variable decode : list crypto.Buffer -> string.
Variable isConnected : bool.

Definition uploadContent (content : string) : outcome IPFSUploadResult :=
  if negb isConnected
  then
    Return (fallback (HashString (generateFallbackHash content))
              (N.of_nat (String.length content)))
  else
    EncryptionService.catch
      (EncryptionService.andThen (add (utf8 content))
         (fun '(cid, size, path) =>
            Return {| hash := HashString cid; size := size; path := path |}))
      (fun _ =>
         Return (fallback (HashString (generateFallbackHash content))
                   (N.of_nat (String.length content)))).

Definition retrieveContent (hash : string) : outcome IPFSRetrieveResult :=
  if negb isConnected
  then
    Throw
      (mkError "IPFS not connected and no fallback available for retrieval")
  else
    EncryptionService.catch
      (EncryptionService.andThen (cat hash)
         (fun chunks =>
            Return {| content := decode chunks; retrievedHash := hash |}))
      (fun _ =>
         Throw (mkError ("Failed to retrieve content from IPFS: " +:+ hash))).

Definition uploadJSON (data : JSON.json) : outcome IPFSUploadResult :=
  uploadContent (JSON.stringify2 data).

(** [generateFallbackHash] is called without [await] here (lines 123 and
    150): [hash] is the promise. *)
Definition uploadFile (buffer : crypto.Buffer) (filename : string)
  : outcome IPFSUploadResult :=
  if negb isConnected
  then
    Return (fallback
              (HashPromise (generateFallbackHash (base64_of_bytes buffer)))
              (N.of_nat (length buffer)))
  else
    EncryptionService.catch
      (EncryptionService.andThen (add buffer)
         (fun '(cid, size, path) =>
            Return {| hash := HashString cid; size := size; path := path |}))
      (fun _ =>
         Return (fallback
                   (HashPromise
                      (generateFallbackHash (base64_of_bytes buffer)))
                   (N.of_nat (length buffer)))).

End Client.

(** [gateway] is [process.env.IPFS_GATEWAY_URL], if set. *)
Definition getGatewayUrl (gateway : option string) (hash : string) : string :=
  (match gateway with
   | Some g => if falsy g then "https://ipfs.io/ipfs/" else g
   | None => "https://ipfs.io/ipfs/"
   end) +:+ hash.

End IPFSService.

(** ** [server/services/blockchain.ts] *)

Module BlockchainService.

Record BlockchainLogResult : Type := mkBlockchainLogResult {
  transactionHash : string;
  blockNumber : option N;
  gasUsed : option N;
  status : string
}.

(** The fields of the service: the two settings read from the environment
    when it is constructed, and the flag [testConnection] sets. *)
Record service : Type := mkService {
  networkUrl : string;
  contractAddress : string;
  isConnected : bool
}.

(** [process.env.NAME || fallback] *)
Definition envOr (value : option string) (fallback : string) : string :=
  match value with
  | Some v => if falsy v then fallback else v
  | None => fallback
  end.

(** The service as its constructor leaves it, before [testConnection] has
    answered. *)
Definition create (rpcUrl contract : option string) : service :=
  {| networkUrl := envOr rpcUrl "https://polygon-rpc.com";
     contractAddress :=
       envOr contract "0x742d35Cc6619C006E8B4BFF1E7c7a4D62B96f5F1";
     isConnected := false |}.

Definition generateFallbackTransactionHash (now : N) (data type : string)
  : string :=
  "0x" +:+ sha256_hex (data +:+ "-" +:+ type +:+ "-" +:+ toString now).

(** [nonce] and [timestamp] are its two readings of [Date.now()]. *)
Definition submitTransaction (s : service) (nonce timestamp : N)
    (dataHash : string) (isEmergency : bool) : string :=
  let gasPrice := if isEmergency then "50000000000" else "30000000000" in
  let transactionData :=
    JSON.object
      [("to", Some (JSON.JString (contractAddress s)));
       ("data", Some (JSON.JString ("0x" +:+ dataHash)));
       ("gasPrice", Some (JSON.JString gasPrice));
       ("nonce", Some (JSON.JNumber (toString nonce)));
       ("timestamp", Some (JSON.JNumber (toString timestamp)))] in
  "0x" +:+ sha256_hex (JSON.stringify transactionData).

(** [now i] is the reading of [Date.now()] the call makes after [i]
    earlier ones; [blockDraw] and [gasDraw] are what the two
    [Math.floor(Math.random() * n)] of the call come to. *)
Definition logComplaintHash (s : service) (now : nat -> N)
    (blockDraw gasDraw : N) (complaintHash zkProof : string)
  : outcome BlockchainLogResult :=
  if negb (isConnected s)
  then
    Return {| transactionHash :=
                generateFallbackTransactionHash (now 0%nat) complaintHash
                  zkProof;
              blockNumber := None; gasUsed := None; status := "confirmed" |}
  else
    EncryptionService.catch
      (let transactionData :=
         JSON.object
           [("complaintHash", Some (JSON.JString complaintHash));
            ("zkProof", Some (JSON.JString zkProof));
            ("timestamp", Some (JSON.JNumber (toString (now 0%nat))));
            ("version", Some (JSON.JString "1.0"))] in
       let dataHash := sha256_hex (JSON.stringify transactionData) in
       let transactionHash :=
         submitTransaction s (now 1%nat) (now 2%nat) dataHash false in
       Return {| transactionHash := transactionHash;
                 blockNumber := Some (blockDraw + 20000000)%N;
                 gasUsed := Some (gasDraw + 21000)%N;
                 status := "confirmed" |})
      (fun _ =>
         Return {| transactionHash :=
                     generateFallbackTransactionHash (now 3%nat)
                       complaintHash zkProof;
                   blockNumber := None; gasUsed := None;
                   status := "confirmed" |}).

Definition logEmergencyAlert (s : service) (now : nat -> N)
    (blockDraw gasDraw : N) (alertHash emergencyContact : string)
  : outcome BlockchainLogResult :=
  let emergencyData :=
    JSON.object
      [("type", Some (JSON.JString "emergency_alert"));
       ("alertHash", Some (JSON.JString alertHash));
       ("emergencyContact",
        Some (JSON.JString (sha256_hex emergencyContact)));
       ("timestamp", Some (JSON.JNumber (toString (now 0%nat))));
       ("priority", Some (JSON.JString "critical"))] in
  let dataHash := sha256_hex (JSON.stringify emergencyData) in
  if negb (isConnected s)
  then
    Return {| transactionHash :=
                generateFallbackTransactionHash (now 1%nat) dataHash
                  "emergency";
              blockNumber := None; gasUsed := None; status := "confirmed" |}
  else
    EncryptionService.catch
      (let transactionHash :=
         submitTransaction s (now 1%nat) (now 2%nat) dataHash true in
       Return {| transactionHash := transactionHash;
                 blockNumber := Some (blockDraw + 20000000)%N;
                 gasUsed := Some (gasDraw + 30000)%N;
                 status := "confirmed" |})
      (fun _ =>
         Return {| transactionHash :=
                     generateFallbackTransactionHash (now 3%nat) dataHash
                       "emergency";
                   blockNumber := None; gasUsed := None;
                   status := "confirmed" |}).

(** [rpc] is the node's answer to [eth_getTransactionByHash]: it throws
    when the request fails, and otherwise gives the [result] member, [None]
    for [null], with its [blockNumber], [None] for a [null] one. *)
Definition verifyTransaction (s : service)
    (rpc : string -> outcome (option (option string)))
    (transactionHash : string) : outcome bool :=
  if negb (isConnected s)
  then
    Return (startsWith transactionHash "0x"
            && (String.length transactionHash =? 66)%nat)
  else
    EncryptionService.catch
      (EncryptionService.andThen (rpc transactionHash)
         (fun result =>
            Return match result with
                   | Some (Some blockNumber) => negb (falsy blockNumber)
                   | _ => false
                   end))
      (fun _ => Return false).

End BlockchainService.

(** ** [server/services/emergency.ts] *)

Module EmergencyService.

(** A coordinate is a number the code only prints: it is carried as its
    printed form. *)
Record Location : Type := mkLocation {
  latitude : string;
  longitude : string
}.

(** [priority] is [None] for a caller that left it out, which the service
    allows for ([alert.priority || 'critical']). *)
Record EmergencyAlert : Type := mkEmergencyAlert {
  content : string;
  emergencyContact : string;
  location : option Location;
  zkCommitment : string;
  priority : option string
}.

Record EmergencyResponse : Type := mkEmergencyResponse {
  alertId : string;
  status : string;
  transactionHash : string;
  ipfsHash : option IPFSService.hashValue;
  timestamp : N
}.

(** What [storage.createEmergencyAlert] is given. *)
Record InsertEmergencyAlert : Type := mkInsertEmergencyAlert {
  ins_encryptedContent : string;
  ins_emergencyContact : string;
  ins_location : option Location;
  ins_zkCommitment : string
}.

Record Metadata : Type := mkMetadata {
  md_alertId : string;
  md_transactionHash : string;
  md_ipfsHash : option IPFSService.hashValue
}.

(** What the service does to the world outside: the calls it makes to its
    collaborators, in order. [sendSMS] is one of them: it stands for the
    delivery of the message. *)
Inductive event : Type :=
| IpfsUpload (data : JSON.json)
| ChainLog (alertHash emergencyContact : string)
| DbInsert (row : InsertEmergencyAlert)
| Sms (phoneNumber message : string).

Definition T (A : Type) : Type := list event -> outcome A * list event.

Definition pure {A} (a : A) : T A := fun log => (Return a, log).

Definition raise {A} (e : Error) : T A := fun log => (Throw e, log).

Definition seq {A B} (m : T A) (k : A -> T B) : T B :=
  fun log =>
    match m log with
    | (Return a, log') => k a log'
    | (Throw e, log') => (Throw e, log')
    end.

Definition attempt {A} (body : T A) (handler : Error -> T A) : T A :=
  fun log =>
    match body log with
    | (Return a, log') => (Return a, log')
    | (Throw e, log') => handler e log'
    end.

(** A call to a collaborator: it is recorded, and answers what the
    collaborator answers. *)
Definition invoke {A} (ev : event) (answer : outcome A) : T A :=
  fun log => (answer, (log ++ [ev])%list).

Definition truthyHash (h : option IPFSService.hashValue) : bool :=
  match h with
  | Some (IPFSService.HashString s) => negb (falsy s)
  | Some (IPFSService.HashPromise _) => true
  | None => false
  end.

Definition locationJson (l : Location) : JSON.json :=
  JSON.object [("latitude", Some (JSON.JNumber (latitude l)));
               ("longitude", Some (JSON.JNumber (longitude l)))].

Definition encryptedDataJson (e : EncryptedData) : JSON.json :=
  JSON.object [("encryptedContent", Some (JSON.JString (encryptedContent e)));
               ("iv", Some (JSON.JString (iv e)));
               ("authTag", Some (JSON.JString (authTag e)));
               ("key", Some (JSON.JString (key e)))].

(** [s || fallback] on an optional string. *)
Definition orElse (s : option string) (fallback : string) : string :=
  match s with
  | Some v => if falsy v then fallback else v
  | None => fallback
  end.

Section Service.

(** The runtime and the surroundings of the service: the [crypto] module
    and its random draws for the key and the nonce; the readings of
    [Date.now()], in order; the collaborators, each with what it answers;
    the three emergency numbers of the configuration; and two strings the
    model takes as given, the siren sign that opens both messages, which
    lies beyond the code units modelled, and what
    [new Date().toLocaleString()] prints. *)
Variable c : crypto.api.
Variables randomKey randomIv : crypto.Buffer.
Variable now : nat -> N.
Variable uploadJSON : JSON.json -> outcome IPFSService.IPFSUploadResult.
Variable logEmergencyAlert :
  string -> string -> outcome BlockchainService.BlockchainLogResult.
Variable createEmergencyAlert : InsertEmergencyAlert -> outcome string.
Variable emergencyContacts : list string.
Variable siren : string.
Variable localTime : string.

Definition newline : string := JSON.newline.

Definition formatEmergencyMessage (alert : EmergencyAlert) (m : Metadata)
  : string :=
  let message := siren +:+ " EMERGENCY ALERT" +:+ newline +:+ newline in
  let message := message +:+ "Alert ID: " +:+ md_alertId m +:+ newline in
  let message := message +:+ "Time: " +:+ localTime +:+ newline in
  let message :=
    match location alert with
    | Some l =>
        (message +:+ "Location: " +:+ latitude l +:+ ", " +:+ longitude l
         +:+ newline)
        +:+ "Maps: https://maps.google.com/?q=" +:+ latitude l +:+ ","
        +:+ longitude l +:+ newline
    | None => message
    end in
  let message :=
    if negb (falsy (content alert))
       && (0 <? String.length (content alert))%nat
    then message +:+ "Details: " +:+ String.substring 0 100 (content alert)
         +:+ newline
    else message in
  let message :=
    message +:+ newline
    +:+ "This alert is cryptographically verified and immutably stored."
    +:+ newline in
  let message :=
    message +:+ "Blockchain: " +:+ md_transactionHash m +:+ newline in
  if truthyHash (md_ipfsHash m)
  then message +:+ "IPFS: "
       +:+ match md_ipfsHash m with
           | Some h => IPFSService.inTemplate h
           | None => ""
           end
  else message.

Definition formatEmergencyServiceMessage (alert : EmergencyAlert)
    (m : Metadata) : string :=
  let message :=
    siren +:+ " EMERGENCY SERVICE ALERT" +:+ newline +:+ newline in
  let message :=
    message +:+ "Priority: "
    +:+ orElse (option_map toUpperCase (priority alert)) "CRITICAL"
    +:+ newline in
  let message := message +:+ "Alert ID: " +:+ md_alertId m +:+ newline in
  let message := message +:+ "Time: " +:+ localTime +:+ newline in
  let message :=
    match location alert with
    | Some l =>
        (message +:+ "Location: " +:+ latitude l +:+ ", " +:+ longitude l
         +:+ newline)
        +:+ "Respond to coordinates above." +:+ newline
    | None => message
    end in
  let message :=
    message +:+ newline +:+ "Anonymous alert via SpeakSecure platform."
    +:+ newline in
  message +:+ "Verified: " +:+ String.substring 0 10 (md_transactionHash m)
  +:+ "...".

Definition sendSMS (phoneNumber message : string) : T unit :=
  invoke (Sms phoneNumber message) (Return tt).

(** The loop of lines 113-117 over the emergency numbers. *)
Fixpoint notifyServices (alert : EmergencyAlert) (m : Metadata)
    (contacts : list string) : T unit :=
  match contacts with
  | [] => pure tt
  | contact :: rest =>
      seq (if negb (String.eqb contact (emergencyContact alert))
           then sendSMS contact (formatEmergencyServiceMessage alert m)
           else pure tt)
        (fun _ => notifyServices alert m rest)
  end.

Definition sendNotifications (alert : EmergencyAlert) (m : Metadata)
  : T unit :=
  attempt
    (let message := formatEmergencyMessage alert m in
     seq (sendSMS (emergencyContact alert) message)
       (fun _ => notifyServices alert m emergencyContacts))
    (fun _ => pure tt).

Definition encryptForClient (data : JSON.json) : outcome string :=
  EncryptionService.encryptForClient JSON.json JSON.stringify
    encryptedDataJson (fun s => base64_of_bytes (utf8 s)) c randomKey
    randomIv data.

Definition lift {A} (o : outcome A) : T A := fun log => (o, log).

Definition sendEmergencyAlert (alert : EmergencyAlert) : T EmergencyResponse :=
  attempt
    (seq (lift
            (encryptForClient
               (JSON.object
                  [("content", Some (JSON.JString (content alert)));
                   ("emergencyContact",
                    Some (JSON.JString (emergencyContact alert)));
                   ("location", option_map locationJson (location alert));
                   ("timestamp", Some (JSON.JNumber (toString (now 0%nat))));
                   ("priority",
                    Some (JSON.JString
                            (orElse (priority alert) "critical")))])))
       (fun encryptedContent =>
          let upload :=
            JSON.object
              [("type", Some (JSON.JString "emergency_alert"));
               ("encryptedContent", Some (JSON.JString encryptedContent));
               ("metadata",
                Some (JSON.object
                        [("timestamp",
                          Some (JSON.JNumber (toString (now 1%nat))));
                         ("priority",
                          option_map JSON.JString (priority alert));
                         ("hasLocation",
                          Some (JSON.JBool
                                  (match location alert with
                                   | Some _ => true
                                   | None => false
                                   end)))]))] in
          seq (attempt
                 (seq (invoke (IpfsUpload upload) (uploadJSON upload))
                    (fun ipfsResult =>
                       pure (Some (IPFSService.hash ipfsResult))))
                 (fun _ => pure None))
            (fun ipfsHash =>
               let alertHash :=
                 EncryptionTools.generateHash encryptedContent in
               seq (invoke (ChainLog alertHash (emergencyContact alert))
                      (logEmergencyAlert alertHash (emergencyContact alert)))
                 (fun blockchainResult =>
                    let row :=
                      {| ins_encryptedContent := encryptedContent;
                         ins_emergencyContact := emergencyContact alert;
                         ins_location := location alert;
                         ins_zkCommitment := zkCommitment alert |} in
                    seq (invoke (DbInsert row) (createEmergencyAlert row))
                      (fun dbAlertId =>
                         let m :=
                           {| md_alertId := dbAlertId;
                              md_transactionHash :=
                                BlockchainService.transactionHash
                                  blockchainResult;
                              md_ipfsHash := ipfsHash |} in
                         seq (sendNotifications alert m)
                           (fun _ =>
                              pure
                                {| alertId := dbAlertId;
                                   status := "sent";
                                   transactionHash :=
                                     BlockchainService.transactionHash
                                       blockchainResult;
                                   ipfsHash := ipfsHash;
                                   timestamp := now 2%nat |}))))))
    (fun _ => raise (mkError "Failed to process emergency alert")).

(** [testContact] is [process.env.TEST_EMERGENCY_CONTACT], if set. *)
Definition testEmergencySystem (testContact : option string)
  : list event -> (bool * string) * list event :=
  fun log =>
    let testAlert :=
      {| content := "Test emergency alert - system verification";
         emergencyContact := orElse testContact "+911";
         location :=
           Some {| latitude := "37.7749"; longitude := "-122.4194" |};
         zkCommitment := "0x" +:+ String.concat "" (repeat "0" 64);
         priority := Some "high" |} in
    match sendEmergencyAlert testAlert log with
    | (Return response, log') =>
        ((true,
          "Emergency system test successful. Alert ID: "
          +:+ alertId response), log')
    | (Throw (mkError message), log') =>
        ((false, "Emergency system test failed: " +:+ message), log')
    end.

End Service.

(** The emergency numbers when the environment sets none. *)
Definition defaultContacts : list string := ["+911"; "+100"; "+108"].

End EmergencyService.

(** An alert on a runtime whose cipher works, with the node of IPFS
    unreachable for the upload. *)
Module EmergencyScenario.

Import EmergencyService.

Definition clock (i : nat) : N := (1700000002000 + N.of_nat i)%N.

Definition alert : EmergencyAlert :=
  {| content := "fire on the second floor";
     emergencyContact := "+100";
     location := Some {| latitude := "12.97"; longitude := "77.59" |};
     zkCommitment := commitment Scenario.alice;
     priority := Some "high" |}.

Definition payload : JSON.json :=
  JSON.object
    [("content", Some (JSON.JString (content alert)));
     ("emergencyContact", Some (JSON.JString (emergencyContact alert)));
     ("location", option_map locationJson (location alert));
     ("timestamp", Some (JSON.JNumber (toString (clock 0%nat))));
     ("priority", Some (JSON.JString (orElse (priority alert) "critical")))].

Definition randomKey : crypto.Buffer := repeat 7 32.
Definition randomIv : crypto.Buffer := repeat 9 16.

Definition encrypted : string :=
  match encryptForClient plainCipher randomKey randomIv payload with
  | Return s => s
  | Throw _ => ""
  end.

Definition uploadFails (data : JSON.json)
  : outcome IPFSService.IPFSUploadResult :=
  Throw (mkError "connect ECONNREFUSED").

Definition chainLog (alertHash contact : string)
  : outcome BlockchainService.BlockchainLogResult :=
  BlockchainService.logEmergencyAlert (BlockchainService.create None None)
    clock 0 0 alertHash contact.

Definition chain : BlockchainService.BlockchainLogResult :=
  match chainLog (EncryptionTools.generateHash encrypted)
          (emergencyContact alert) with
  | Return r => r
  | Throw _ => BlockchainService.mkBlockchainLogResult "" None None ""
  end.

Definition stored (row : InsertEmergencyAlert) : outcome string :=
  Return "alert-1".

Definition notStored (row : InsertEmergencyAlert) : outcome string :=
  Throw (mkError "connection terminated").

Definition row : InsertEmergencyAlert :=
  {| ins_encryptedContent := encrypted;
     ins_emergencyContact := emergencyContact alert;
     ins_location := location alert;
     ins_zkCommitment := zkCommitment alert |}.

End EmergencyScenario.

(** ** [server/routes/upvoting.ts] *)

Module UpvoteRoutes.

(** A member of a request body, as the validation sees it. *)
Inductive field : Type :=
| Absent
| NotAString
| Text (s : string).

(** A row of [complaints] ([shared/schema.ts]); a timestamp is a clock
    reading. *)
Record Complaint : Type := mkComplaint {
  c_id : string;
  c_referenceId : string;
  c_category : string;
  c_encryptedContent : string;
  c_ipfsHash : option string;
  c_blockchainHash : option string;
  c_status : string;
  c_priority : string;
  c_isPublic : bool;
  c_isEmergency : bool;
  c_tags : option (list string);
  c_upvotes : Z;
  c_zkCommitment : string;
  c_nullifierHash : string;
  c_emergencyContact : option string;
  c_createdAt : N;
  c_updatedAt : N
}.

Record InsertUpvote : Type := mkInsertUpvote {
  iu_complaintId : string;
  iu_nullifierHash : string;
  iu_zkProof : string
}.

(** The body of [POST /]. *)
Record UpvoteBody : Type := mkUpvoteBody {
  b_complaintId : field;
  b_nullifierHash : field;
  b_zkProof : field;
  b_action : field;
  b_topic : field
}.

(** What the handler answers: the status and the members of the body that
    vary. Of the issues the validation reports, the path is kept. *)
Inductive response : Type :=
| Invalid (details : list string)
| ComplaintNotFound
| AlreadyUpvoted
| InvalidProof
| Recorded (upvoteId complaintId : string) (newUpvoteCount : Z)
| Failed (message : string).

Definition status (r : response) : nat :=
  match r with
  | Invalid _ => 400
  | ComplaintNotFound => 404
  | AlreadyUpvoted => 409
  | InvalidProof => 401
  | Recorded _ _ _ => 200
  | Failed _ => 500
  end.

Definition required (name : string) (f : field) : list string :=
  match f with
  | Text _ => []
  | _ => [name]
  end.

(** [upvoteSchema.safeParse(req.body)]: three strings of the insert schema,
    [action] a string with default [upvote], [topic] a string. *)
Definition parse (b : UpvoteBody)
  : list string + (string * string * string * string * string) :=
  match b_complaintId b, b_nullifierHash b, b_zkProof b, b_action b,
        b_topic b with
  | Text complaintId, Text nullifierHash, Text zkProof, Absent, Text topic =>
      inr (complaintId, nullifierHash, zkProof, "upvote", topic)
  | Text complaintId, Text nullifierHash, Text zkProof, Text action,
    Text topic =>
      inr (complaintId, nullifierHash, zkProof, action, topic)
  | _, _, _, _, _ =>
      inl (required "complaintId" (b_complaintId b)
           ++ required "nullifierHash" (b_nullifierHash b)
           ++ required "zkProof" (b_zkProof b)
           ++ match b_action b with
              | NotAString => ["action"]
              | _ => []
              end
           ++ required "topic" (b_topic b))%list
  end.

(** The handlers work on the nullifier ledger and the identity registry,
    and on the tables of complaints and upvotes, [W], which they reach
    through three methods of the storage collaborator taken as given. *)
Section Handlers.

Variable W : Type.
Variable getComplaintById : string -> W -> outcome (option Complaint).
Variable createUpvote : InsertUpvote -> W -> outcome string * W.
Variable incrementComplaintUpvotes : string -> W -> outcome unit * W.

(** [now] is the clock of the database when the nullifier is recorded. *)
Definition upvote (now : N) (b : UpvoteBody) (w : W) (st : Storage)
  : response * (W * Storage) :=
  match parse b with
  | inl details => (Invalid details, (w, st))
  | inr (complaintId, nullifierHash, zkProof, action, topic) =>
      match getComplaintById complaintId w with
      | Throw (mkError message) => (Failed message, (w, st))
      | Return None => (ComplaintNotFound, (w, st))
      | Return (Some complaint) =>
          match storage.checkNullifierUsed nullifierHash action topic st with
          | (Throw (mkError message), st1) => (Failed message, (w, st1))
          | (Return true, st1) => (AlreadyUpvoted, (w, st1))
          | (Return false, st1) =>
              let zkProofData :=
                {| proof := zkProof;
                   publicSignals := [nullifierHash; action; topic];
                   nullifierHash := nullifierHash |} in
              match ZkIdentityService.verifyProof zkProofData action topic
                      st1 with
              | (Throw (mkError message), st2) => (Failed message, (w, st2))
              | (Return false, st2) => (InvalidProof, (w, st2))
              | (Return true, st2) =>
                  match createUpvote
                          {| iu_complaintId := complaintId;
                             iu_nullifierHash := nullifierHash;
                             iu_zkProof := zkProof |} w with
                  | (Throw (mkError message), w1) =>
                      (Failed message, (w1, st2))
                  | (Return upvoteId, w1) =>
                      match incrementComplaintUpvotes complaintId w1 with
                      | (Throw (mkError message), w2) =>
                          (Failed message, (w2, st2))
                      | (Return _, w2) =>
                          match storage.addNullifier now nullifierHash
                                  action topic st2 with
                          | (Throw (mkError message), st3) =>
                              (Failed message, (w2, st3))
                          | (Return _, st3) =>
                              (Recorded upvoteId complaintId
                                 (c_upvotes complaint + 1), (w2, st3))
                          end
                      end
                  end
              end
          end
      end
  end.

End Handlers.

(** *** [GET /trending] *)

(** What the handler shows of a complaint. *)
Record TrendingEntry : Type := mkTrendingEntry {
  t_referenceId : string;
  t_category : string;
  t_status : string;
  t_upvotes : Z;
  t_tags : option (list string);
  t_createdAt : N
}.

Definition entryOf (c : Complaint) : TrendingEntry :=
  {| t_referenceId := c_referenceId c; t_category := c_category c;
     t_status := c_status c; t_upvotes := c_upvotes c; t_tags := c_tags c;
     t_createdAt := c_createdAt c |}.

(** [array.sort((a, b) => b.upvotes - a.upvotes)]: the sort of the
    language is stable, and so is this insertion sort, which puts an
    element before the elements after it that the comparison does not put
    first; one stable sort gives what another gives. *)
Fixpoint insertByUpvotes (c : Complaint) (sorted : list Complaint)
  : list Complaint :=
  match sorted with
  | [] => [c]
  | d :: rest =>
      if c_upvotes d - c_upvotes c <=? 0
      then c :: d :: rest
      else d :: insertByUpvotes c rest
  end.

Definition sortByUpvotes (l : list Complaint) : list Complaint :=
  fold_right insertByUpvotes [] l.

(** Upvotes that do not increase along the list. *)
Fixpoint descending (l : list Complaint) : Prop :=
  match l with
  | [] => True
  | x :: rest =>
      Forall (fun y => c_upvotes y <= c_upvotes x) rest /\ descending rest
  end.

(** [array.slice(0, limit)] for an integer [limit]: a negative one counts
    from the end. *)
Definition slice0 {A} (limit : Z) (l : list A) : list A :=
  if limit <? 0
  then take (Z.to_nat (Z.max 0 (Z.of_nat (length l) + limit))) l
  else take (Z.to_nat limit) l.

(** Lines 190-204: [complaints] is what [storage.getPublicComplaints(50, 0)]
    answered and [limit] what [parseInt(req.query.limit) || 10] came to. *)
Definition trending (complaints : list Complaint) (limit : Z)
  : list TrendingEntry :=
  map entryOf (slice0 limit (sortByUpvotes complaints)).

End UpvoteRoutes.

(** An upvote on one complaint, with the tables of complaints and upvotes
    reduced to a counter of the upvotes made. *)
Module UpvoteScenario.

Import UpvoteRoutes.

Definition complaint : Complaint :=
  {| c_id := "c1"; c_referenceId := "SS-LOYW3V28-0123456789AB";
     c_category := "safety"; c_encryptedContent := "...";
     c_ipfsHash := None; c_blockchainHash := None; c_status := "pending";
     c_priority := "medium"; c_isPublic := true; c_isEmergency := false;
     c_tags := None; c_upvotes := 4;
     c_zkCommitment := commitment Scenario.alice; c_nullifierHash := "";
     c_emergencyContact := None; c_createdAt := Scenario.issuedAt;
     c_updatedAt := Scenario.issuedAt |}.

Definition getComplaintById (id : string) (w : nat)
  : outcome (option Complaint) :=
  Return (if String.eqb id "c1" then Some complaint else None).

Definition createUpvote (i : InsertUpvote) (w : nat) : outcome string * nat :=
  (Return "u1", w).

Definition incrementComplaintUpvotes (id : string) (w : nat)
  : outcome unit * nat :=
  (Return tt, S w).

(** An upvote that presents the proof issued to [alice]. *)
Definition withIssuedProof : UpvoteBody :=
  {| b_complaintId := Text "c1";
     b_nullifierHash := Text (nullifierHash Scenario.upvoteProof);
     b_zkProof := Text (proof Scenario.upvoteProof);
     b_action := Absent; b_topic := Text "REF-001" |}.

(** An upvote that presents the commitment of [alice] as its nullifier
    hash. *)
Definition withCommitment : UpvoteBody :=
  {| b_complaintId := Text "c1";
     b_nullifierHash := Text (commitment Scenario.alice);
     b_zkProof := Text "p";
     b_action := Absent; b_topic := Text "REF-001" |}.

(** The database once [withCommitment] has been accepted: the commitment
    of [alice] is in the ledger under [("upvote", "REF-001")]. *)
Definition afterCommitmentUpvote : Storage :=
  {| zkIdentities := zkIdentities Scenario.registered;
     nullifierTracker :=
       [{| nt_nullifierHash := commitment Scenario.alice;
           nt_action := "upvote"; nt_topic := "REF-001";
           nt_createdAt := Scenario.requestedAt |}] |}.

(** The same upvote once more, under another topic. *)
Definition withCommitmentAgain : UpvoteBody :=
  {| b_complaintId := Text "c1";
     b_nullifierHash := Text (commitment Scenario.alice);
     b_zkProof := Text "p";
     b_action := Absent; b_topic := Text "again" |}.

End UpvoteScenario.

(** * Properties *)

(** ** Strings and digests *)

Lemma app_String (c : ascii) (s t : string) :
  String c s +:+ t = String c (s +:+ t).
Proof. reflexivity. Qed.

Lemma length_app_string (s t : string) :
  String.length (s +:+ t) = (String.length s + String.length t)%nat.
Proof.
  induction s as [|c s IH]; [reflexivity |].
  rewrite app_String. cbn. now rewrite IH.
Qed.

Lemma app_assoc_string (s t u : string) : (s +:+ t) +:+ u = s +:+ (t +:+ u).
Proof.
  induction s as [|c s IH]; [reflexivity |].
  rewrite !app_String. now f_equal.
Qed.

Lemma hex32_length (w : Z) : String.length (hex32 w) = 8%nat.
Proof. reflexivity. Qed.

Lemma sha256_hex_length (s : string) : String.length (sha256_hex s) = 64%nat.
Proof.
  unfold sha256_hex.
  destruct (Sha256.digest (utf8 s)) as [[[[[[[a b] c] d] e] f] g] h].
  rewrite !length_app_string, !hex32_length. reflexivity.
Qed.

Lemma prefixed_not_falsy (s : string) : falsy ("0x" +:+ s) = false.
Proof. reflexivity. Qed.

Lemma prefixed_startsWith (s : string) : startsWith ("0x" +:+ s) "0x" = true.
Proof. reflexivity. Qed.

Lemma prefixed_digest_length (s : string) :
  (String.length ("0x" +:+ sha256_hex s) =? 66)%nat = true.
Proof. rewrite length_app_string, sha256_hex_length. reflexivity. Qed.

(** The constants computed from the primes are the ones FIPS 180-4 lists. *)
Example sha256_constants :
  nth 0 Sha256.K 0 = 0x428a2f98 /\ nth 1 Sha256.K 0 = 0x71374491
  /\ nth 63 Sha256.K 0 = 0xc67178f2 /\ length Sha256.K = 64%nat
  /\ Sha256.H0
     = (0x6a09e667, 0xbb67ae85, 0x3c6ef372, 0xa54ff53a,
        0x510e527f, 0x9b05688c, 0x1f83d9ab, 0x5be0cd19).
Proof. repeat split; reflexivity. Qed.

(** The digests of the FIPS 180-4 test messages, of one and of two blocks. *)
Example sha256_hex_abc :
  sha256_hex "abc"
  = "ba7816bf8f01cfea414140de5dae2223b00361a396177a9cb410ff61f20015ad".
Proof. vm_compute. reflexivity. Qed.

Example sha256_hex_empty :
  sha256_hex ""
  = "e3b0c44298fc1c149afbf4c8996fb92427ae41e4649b934ca495991b7852b855".
Proof. vm_compute. reflexivity. Qed.

Example sha256_hex_two_blocks :
  sha256_hex "abcdbcdecdefdefgefghfghighijhijkijkljklmklmnlmnomnopnopq"
  = "248d6a61d20638b8e5c026930c3e6039a33ce45964ff2167f6ecedd419db06c1".
Proof. vm_compute. reflexivity. Qed.

(** ** The ledger *)

Import storage ZkIdentityService.

Lemma sameNullifier_hasHash h action topic r :
  sameNullifier h action topic r = true -> hasHash h r = true.
Proof.
  unfold sameNullifier, hasHash. intros H.
  apply andb_true_iff in H as [H _]. apply andb_true_iff in H as [H _].
  exact H.
Qed.

Lemma used_hasHash h action topic (l : list NullifierTracker) :
  existsb (hasHash h) l = false ->
  existsb (sameNullifier h action topic) l = false.
Proof.
  intros H. destruct (existsb (sameNullifier h action topic) l) eqn:E;
    [| reflexivity].
  apply existsb_exists in E as (r & Hin & Hr).
  assert (existsb (hasHash h) l = true) as H'.
  { apply existsb_exists. exists r. eauto using sameNullifier_hasHash. }
  congruence.
Qed.

Lemma sameNullifier_refl h action topic now :
  sameNullifier h action topic
    {| nt_nullifierHash := h; nt_action := action; nt_topic := topic;
       nt_createdAt := now |} = true.
Proof. unfold sameNullifier. cbn. now rewrite !String.eqb_refl. Qed.

(** What a successful [generateProof] returns and leaves behind. *)
Lemma generateProof_Return now identity action topic st art st' :
  generateProof now identity action topic st = (Return art, st') ->
  let h := generateActionNullifierHash (nullifier identity) action topic in
  hashRecorded h st = false
  /\ art = {| proof := generateZkProofData now identity action topic;
              publicSignals := [commitment identity; h; topic];
              nullifierHash := h |}
  /\ st' = {| zkIdentities := zkIdentities st;
              nullifierTracker :=
                nullifierTracker st
                ++ [{| nt_nullifierHash := h; nt_action := action;
                       nt_topic := topic; nt_createdAt := now |}] |}.
Proof.
  unfold generateProof, try_catch, generateProof_try, bind, checkNullifierUsed,
    addNullifier, hashRecorded, throw, ret.
  destruct (existsb (sameNullifier _ action topic) (nullifierTracker st));
    [discriminate |].
  destruct (existsb (hasHash _) (nullifierTracker st)); [discriminate |].
  intros [= <- <-]. cbn. auto.
Qed.

(** A fresh nullifier hash is all [generateProof] needs. *)
Lemma generateProof_fresh now identity action topic st :
  let h := generateActionNullifierHash (nullifier identity) action topic in
  hashRecorded h st = false ->
  generateProof now identity action topic st
  = (Return {| proof := generateZkProofData now identity action topic;
               publicSignals := [commitment identity; h; topic];
               nullifierHash := h |},
     {| zkIdentities := zkIdentities st;
        nullifierTracker :=
          nullifierTracker st
          ++ [{| nt_nullifierHash := h; nt_action := action;
                 nt_topic := topic; nt_createdAt := now |}] |}).
Proof.
  intros h Hfresh. subst h.
  unfold generateProof, try_catch, generateProof_try, bind, checkNullifierUsed,
    addNullifier, throw, ret.
  cbv beta iota zeta. rewrite (used_hasHash _ action topic _ Hfresh).
  cbv beta iota zeta. rewrite Hfresh. reflexivity.
Qed.

Lemma generateProof_used now identity action topic st :
  fst (checkNullifierUsed
         (generateActionNullifierHash (nullifier identity) action topic)
         action topic st) = Return true ->
  generateProof_try now identity action topic st
  = (Throw ActionAlreadyPerformed, st)
  /\ generateProof now identity action topic st
     = (Throw FailedToGenerateProof, st).
Proof.
  unfold generateProof, try_catch, generateProof_try, bind, checkNullifierUsed,
    throw. cbn.
  intros [= H]. rewrite H. split; reflexivity.
Qed.

(** A refused call reports the one error of line 79 and leaves the database
    as it found it. *)
Lemma generateProof_Throw now identity action topic st e st' :
  generateProof now identity action topic st = (Throw e, st') ->
  e = FailedToGenerateProof /\ st' = st.
Proof.
  unfold generateProof, try_catch, generateProof_try, bind, checkNullifierUsed,
    addNullifier, throw, ret.
  destruct (existsb (sameNullifier _ action topic) (nullifierTracker st)).
  - intros [= <- <-]. auto.
  - destruct (hashRecorded _ st); [| discriminate].
    intros [= <- <-]. auto.
Qed.

(** Once a call has gone through, the same request is refused. *)
Lemma generateProof_again now now' identity action topic st :
  let h := generateActionNullifierHash (nullifier identity) action topic in
  let st' :=
    {| zkIdentities := zkIdentities st;
       nullifierTracker :=
         nullifierTracker st
         ++ [{| nt_nullifierHash := h; nt_action := action;
                nt_topic := topic; nt_createdAt := now |}] |} in
  generateProof_try now' identity action topic st'
  = (Throw ActionAlreadyPerformed, st')
  /\ generateProof now' identity action topic st'
     = (Throw FailedToGenerateProof, st').
Proof.
  intros h st'. apply generateProof_used. unfold checkNullifierUsed. cbn.
  rewrite existsb_app. cbn. rewrite sameNullifier_refl.
  now rewrite orb_true_r.
Qed.

(** ** Verification *)

Lemma verifyProof_try_unfold p action topic st :
  verifyProof_try p action topic st
  = if structuralCheck p then
      if existsb (sameNullifier (nullifierHash p) action topic)
           (nullifierTracker st)
      then (Return false, st)
      else
        match publicSignals p with
        | c :: _ =>
            (Return
               match find (fun r => String.eqb (zi_commitment r) c)
                       (zkIdentities st) with
               | Some i => zi_isValid i
               | None => false
               end, st)
        | [] => (Return false, st)
        end
    else (Return false, st).
Proof.
  unfold verifyProof_try, structuralCheck.
  destruct (falsy (proof p) || false || falsy (nullifierHash p));
    [reflexivity |].
  destruct (length (publicSignals p) =? 3)%nat; [| reflexivity].
  destruct (startsWith (nullifierHash p) "0x"); [| reflexivity].
  destruct (String.length (nullifierHash p) =? 66)%nat; [| reflexivity].
  cbn. unfold bind, checkNullifierUsed, getZkIdentityByCommitment, ret.
  destruct (existsb _ (nullifierTracker st)); [reflexivity |].
  destruct (publicSignals p) as [|c rest]; [reflexivity |].
  destruct (find _ (zkIdentities st)) as [i|]; [| reflexivity].
  destruct (zi_isValid i); reflexivity.
Qed.

Lemma verifyProof_try_Return p action topic st :
  exists b, verifyProof_try p action topic st = (Return b, st).
Proof.
  rewrite verifyProof_try_unfold.
  destruct (structuralCheck p); [| eauto].
  destruct (existsb _ _); [eauto |].
  destruct (publicSignals p); eauto.
Qed.

Lemma verifyProof_unfold p action topic st :
  verifyProof p action topic st = verifyProof_try p action topic st.
Proof.
  unfold verifyProof, try_catch.
  destruct (verifyProof_try_Return p action topic st) as [b ->]. reflexivity.
Qed.

Lemma specWellFormed_structuralCheck p :
  specWellFormed p = true -> structuralCheck p = true.
Proof.
  unfold specWellFormed, structuralCheck. intros H.
  repeat (apply andb_true_iff in H as [H ?]).
  assert (falsy (nullifierHash p) = false) as ->.
  { destruct (nullifierHash p); [discriminate | reflexivity]. }
  rewrite !orb_false_r. repeat (apply andb_true_iff; split); assumption.
Qed.

(** ** The scenario *)

Module ScenarioFacts.

Import Scenario.

Example alice_issued :
  generateIdentity issuedAt random1 random2 (Some "g1") emptyStorage
  = (Return alice, registered).
Proof. vm_compute. reflexivity. Qed.

Example upvoteProof_issued :
  generateProof requestedAt alice "upvote" "REF-001" registered
  = (Return upvoteProof, afterUpvoteIssue).
Proof. vm_compute. reflexivity. Qed.

Example proofA_issued :
  generateProof requestedAt alice "a" "bc" registered
  = (Return proofA, afterIssueA).
Proof. vm_compute. reflexivity. Qed.

(** A different topic gives a different nullifier. *)
Example other_topic_other_nullifier :
  exists p st,
    generateProof (requestedAt + 1) alice "upvote" "REF-002" afterUpvoteIssue
    = (Return p, st)
    /\ nullifierHash p <> nullifierHash upvoteProof.
Proof. vm_compute. do 2 eexists. split; [reflexivity | discriminate]. Qed.

End ScenarioFacts.

(** ** Issuance *)

(** C5. When [generateProof] finds the nullifier hash already in the ledger
    for the action and topic, the call ends there: the body throws at the
    check of line 62, the caller is thrown an error and gets no proof, and
    the database is left as it was. *)
Theorem generateProof_used_no_mutation :
  forall now identity action topic st,
    fst (checkNullifierUsed
           (generateActionNullifierHash (nullifier identity) action topic)
           action topic st) = Return true ->
    generateProof_try now identity action topic st
    = (Throw ActionAlreadyPerformed, st)
    /\ generateProof now identity action topic st
       = (Throw FailedToGenerateProof, st).
Proof. intros. now apply generateProof_used. Qed.

Lemma generateProof_used_no_mutation_witness :
  generateProof_try (Scenario.requestedAt + 5) Scenario.alice "upvote"
    "REF-001" Scenario.afterUpvoteIssue
  = (Throw ActionAlreadyPerformed, Scenario.afterUpvoteIssue)
  /\ generateProof (Scenario.requestedAt + 5) Scenario.alice "upvote"
       "REF-001" Scenario.afterUpvoteIssue
     = (Throw FailedToGenerateProof, Scenario.afterUpvoteIssue).
Proof.
  apply generateProof_used_no_mutation. vm_compute. reflexivity.
Defined.

(** C2, as amended. When the nullifier hash derived for the identity, action
    and topic is not in the ledger (under any action and topic),
    [generateProof] succeeds and returns a proof artifact, and a second call
    with the same identity, action and topic, at whatever later time, is
    rejected at the already-used check: the caller is thrown an error and
    gets no artifact. *)
Theorem generateProof_first_then_rejected :
  forall now now' identity action topic st,
    hashRecorded
      (generateActionNullifierHash (nullifier identity) action topic) st
    = false ->
    exists art st',
      generateProof now identity action topic st = (Return art, st')
      /\ generateProof_try now' identity action topic st'
         = (Throw ActionAlreadyPerformed, st')
      /\ generateProof now' identity action topic st'
         = (Throw FailedToGenerateProof, st').
Proof.
  intros now now' identity action topic st Hfresh.
  do 2 eexists. split; [now apply generateProof_fresh |].
  apply generateProof_again.
Qed.

Lemma generateProof_first_then_rejected_witness :
  exists art st',
    generateProof Scenario.requestedAt Scenario.alice "upvote" "REF-001"
      Scenario.registered = (Return art, st')
    /\ generateProof_try (Scenario.requestedAt + 5) Scenario.alice "upvote"
         "REF-001" st' = (Throw ActionAlreadyPerformed, st')
    /\ generateProof (Scenario.requestedAt + 5) Scenario.alice "upvote"
         "REF-001" st' = (Throw FailedToGenerateProof, st').
Proof.
  apply generateProof_first_then_rejected. vm_compute. reflexivity.
Defined.

(** C2, as stated, fails: after a proof for [("a", "bc")], the first request
    of the same identity for [("ab", "c")] finds no entry for its action and
    topic, derives the same hash, and is refused by the ledger. *)
Lemma generateProof_first_call_refused :
  generateProof Scenario.requestedAt Scenario.alice "a" "bc"
    Scenario.registered
  = (Return Scenario.proofA, Scenario.afterIssueA)
  /\ fst (checkNullifierUsed
            (generateActionNullifierHash (nullifier Scenario.alice) "ab" "c")
            "ab" "c" Scenario.afterIssueA) = Return false
  /\ generateProof (Scenario.requestedAt + 5) Scenario.alice "ab" "c"
       Scenario.afterIssueA
     = (Throw FailedToGenerateProof, Scenario.afterIssueA).
Proof. vm_compute. repeat split; reflexivity. Qed.

(** C6. [generateProof] looks at the commitment only to copy it: whatever
    the commitment, trapdoor, group and stored nullifier hash of the bundle,
    and whatever the registry holds, if the derived nullifier hash is unused
    the call succeeds, and the artifact carries that commitment as its first
    public signal next to the nullifier derived from the secret. *)
Theorem generateProof_any_commitment :
  forall now c groupHash trapdoor secret group action topic st,
    hashRecorded (generateActionNullifierHash secret action topic) st
    = false ->
    exists art st',
      generateProof now
        {| commitment := c; id_nullifierHash := groupHash;
           trapdoor := trapdoor; nullifier := secret; groupId := group |}
        action topic st = (Return art, st')
      /\ publicSignals art !! 0%nat = Some c
      /\ nullifierHash art = generateActionNullifierHash secret action topic.
Proof.
  intros now c groupHash trapdoor secret group action topic st Hfresh.
  do 2 eexists. split; [now apply generateProof_fresh |].
  split; reflexivity.
Qed.

Lemma generateProof_any_commitment_witness :
  exists art st',
    generateProof Scenario.requestedAt
      (proofRequestIdentity "not a commitment" (nullifier Scenario.alice)
         "t" "g1")
      "upvote" "REF-001" emptyStorage = (Return art, st')
    /\ publicSignals art !! 0%nat = Some "not a commitment"
    /\ nullifierHash art
       = generateActionNullifierHash (nullifier Scenario.alice) "upvote"
           "REF-001".
Proof. apply generateProof_any_commitment. reflexivity. Defined.

(** C7. The action nullifier is the digest of the bare concatenation of
    secret, action and topic: moving the boundary between action and topic
    leaves it unchanged, so the distinct pairs [("ab", "c")] and
    [("a", "bc")] share their nullifier hash for every secret. *)
Theorem generateActionNullifierHash_boundary :
  (forall secret x y z,
      generateActionNullifierHash secret (x +:+ y) z
      = generateActionNullifierHash secret x (y +:+ z))
  /\ (forall secret,
         generateActionNullifierHash secret "ab" "c"
         = generateActionNullifierHash secret "a" "bc")
  /\ ("ab", "c") <> ("a", "bc").
Proof.
  assert (forall secret x y z,
             generateActionNullifierHash secret (x +:+ y) z
             = generateActionNullifierHash secret x (y +:+ z)) as H.
  { intros. unfold generateActionNullifierHash.
    now rewrite !app_assoc_string. }
  split; [exact H |]. split; [| discriminate].
  intros secret. exact (H secret "a" "b" "c").
Qed.

(** ** Verification *)

(** C9. [verifyProof] leaves the database, ledger and registry, as it found
    it, whatever it answers. *)
Theorem verifyProof_no_mutation :
  forall p action topic st, snd (verifyProof p action topic st) = st.
Proof.
  intros. rewrite verifyProof_unfold.
  destruct (verifyProof_try_Return p action topic st) as [b ->]. reflexivity.
Qed.

(** C4, as amended. [verifyProof] answers [false] whenever the proof string
    is empty, or there are not exactly three public signals, or the
    nullifier hash does not start with [0x], or is not 66 characters long. *)
Theorem verifyProof_rejects_malformed :
  forall p action topic st,
    proof p = ""
    \/ length (publicSignals p) <> 3%nat
    \/ startsWith (nullifierHash p) "0x" = false
    \/ String.length (nullifierHash p) <> 66%nat ->
    verifyProof p action topic st = (Return false, st).
Proof.
  intros p action topic st H.
  rewrite verifyProof_unfold, verifyProof_try_unfold.
  assert (structuralCheck p = false) as ->; [| reflexivity].
  unfold structuralCheck.
  destruct H as [H | [H | [H | H]]].
  - rewrite H. reflexivity.
  - apply Nat.eqb_neq in H. rewrite H.
    now rewrite andb_false_r.
  - rewrite H. now rewrite andb_false_r.
  - apply Nat.eqb_neq in H. rewrite H. now rewrite andb_false_r.
Qed.

Lemma verifyProof_rejects_malformed_witness :
  verifyProof
    {| proof := proof Scenario.upvoteProof;
       publicSignals := [commitment Scenario.alice; "REF-001"];
       nullifierHash := nullifierHash Scenario.upvoteProof |}
    "upvote" "REF-001" Scenario.registered
  = (Return false, Scenario.registered).
Proof.
  apply verifyProof_rejects_malformed. right. left. cbn. lia.
Defined.

(** C4, as stated, fails: an artifact whose nullifier hash has no
    hexadecimal digit, and one whose nullifier hash is not its second public
    signal, both fail the structural check of the specification, and
    [verifyProof] answers [true] for both. *)
Lemma verifyProof_accepts_malformed :
  specWellFormed Scenario.nonHexProof = false
  /\ verifyProof Scenario.nonHexProof "upvote" "REF-001" Scenario.registered
     = (Return true, Scenario.registered)
  /\ specWellFormed Scenario.mismatchedProof = false
  /\ verifyProof Scenario.mismatchedProof "upvote" "REF-001"
       Scenario.registered
     = (Return true, Scenario.registered).
Proof. vm_compute. repeat split; reflexivity. Qed.

(** C8. For an artifact that passes the structural check and whose nullifier
    is not recorded for the action and topic, [verifyProof] answers [false]
    when the registry has no record of the commitment in the first public
    signal, [false] when the record is not valid, and [true] exactly when
    there is a record and it is valid. *)
Theorem verifyProof_identity_check :
  forall p action topic st c,
    structuralCheck p = true ->
    fst (checkNullifierUsed (nullifierHash p) action topic st)
    = Return false ->
    publicSignals p !! 0%nat = Some c ->
    let identity := fst (getZkIdentityByCommitment c st) in
    let answer := fst (verifyProof p action topic st) in
    (identity = Return None -> answer = Return false)
    /\ (forall i, identity = Return (Some i) -> zi_isValid i = false ->
                  answer = Return false)
    /\ (answer = Return true <->
        exists i, identity = Return (Some i) /\ zi_isValid i = true).
Proof.
  intros p action topic st c Hok Hfresh Hc identity answer.
  subst identity answer.
  rewrite verifyProof_unfold, verifyProof_try_unfold, Hok.
  unfold checkNullifierUsed in Hfresh. cbn in Hfresh.
  injection Hfresh as ->.
  destruct (publicSignals p) as [|c' rest]; [discriminate |].
  injection Hc as ->.
  unfold getZkIdentityByCommitment. cbn.
  destruct (find _ (zkIdentities st)) as [i|].
  - split; [discriminate |]. split.
    + intros i' [= <-] ->. reflexivity.
    + split.
      * intros [= H]. eauto.
      * intros (i' & [= <-] & ->). reflexivity.
  - split; [reflexivity |]. split; [discriminate |].
    split; [discriminate | intros (i' & [=] & _)].
Qed.

Lemma verifyProof_identity_check_witness :
  let identity :=
    fst (getZkIdentityByCommitment (commitment Scenario.alice)
           Scenario.registered) in
  let answer :=
    fst (verifyProof Scenario.mismatchedProof "upvote" "REF-001"
           Scenario.registered) in
  (identity = Return None -> answer = Return false)
  /\ (forall i, identity = Return (Some i) -> zi_isValid i = false ->
                answer = Return false)
  /\ (answer = Return true <->
      exists i, identity = Return (Some i) /\ zi_isValid i = true).
Proof.
  apply (verifyProof_identity_check Scenario.mismatchedProof "upvote"
           "REF-001" Scenario.registered (commitment Scenario.alice));
    reflexivity.
Defined.

(** C1, as amended. An artifact returned by a successful [generateProof] is
    refused by [verifyProof] for the same action and topic right after
    issuance, since issuance has recorded its nullifier; a second
    verification answers the same, and neither changes the database. *)
Theorem verifyProof_after_generateProof :
  forall now identity action topic st art st',
    generateProof now identity action topic st = (Return art, st') ->
    verifyProof art action topic st' = (Return false, st')
    /\ verifyProof art action topic (snd (verifyProof art action topic st'))
       = (Return false, st').
Proof.
  intros now identity action topic st art st' Hgen.
  apply generateProof_Return in Hgen as (_ & -> & ->).
  set (h := generateActionNullifierHash (nullifier identity) action topic).
  set (art := {| proof := generateZkProofData now identity action topic;
                 publicSignals := [commitment identity; h; topic];
                 nullifierHash := h |}).
  set (st' := {| zkIdentities := zkIdentities st;
                 nullifierTracker :=
                   nullifierTracker st
                   ++ [{| nt_nullifierHash := h; nt_action := action;
                          nt_topic := topic; nt_createdAt := now |}] |}).
  assert (verifyProof art action topic st' = (Return false, st')) as H.
  { rewrite verifyProof_unfold, verifyProof_try_unfold.
    assert (structuralCheck art = true) as ->.
    { unfold structuralCheck, art, h, generateZkProofData,
        generateActionNullifierHash. cbn [proof publicSignals nullifierHash].
      rewrite !prefixed_not_falsy, prefixed_startsWith,
        prefixed_digest_length. reflexivity. }
    unfold st', art. cbn [nullifierTracker nullifierHash].
    rewrite existsb_app. cbn [existsb].
    rewrite sameNullifier_refl. now rewrite orb_true_r. }
  rewrite H. split; [reflexivity | exact H].
Qed.

Lemma verifyProof_after_generateProof_witness :
  verifyProof Scenario.upvoteProof "upvote" "REF-001"
    Scenario.afterUpvoteIssue
  = (Return false, Scenario.afterUpvoteIssue)
  /\ verifyProof Scenario.upvoteProof "upvote" "REF-001"
       (snd (verifyProof Scenario.upvoteProof "upvote" "REF-001"
               Scenario.afterUpvoteIssue))
     = (Return false, Scenario.afterUpvoteIssue).
Proof.
  apply (verifyProof_after_generateProof Scenario.requestedAt Scenario.alice
           "upvote" "REF-001" Scenario.registered).
  vm_compute. reflexivity.
Defined.

(** C1, as stated, fails: the artifact just issued to a registered, valid
    identity is refused, the first time and the second. *)
Lemma verifyProof_refuses_issued_proof :
  generateProof Scenario.requestedAt Scenario.alice "upvote" "REF-001"
    Scenario.registered
  = (Return Scenario.upvoteProof, Scenario.afterUpvoteIssue)
  /\ fst (verifyProof Scenario.upvoteProof "upvote" "REF-001"
            Scenario.afterUpvoteIssue) = Return false
  /\ fst (verifyProof Scenario.upvoteProof "upvote" "REF-001"
            (snd (verifyProof Scenario.upvoteProof "upvote" "REF-001"
                    Scenario.afterUpvoteIssue))) = Return false.
Proof. vm_compute. repeat split; reflexivity. Qed.

(** ** Two calls in flight *)

Module ConcurrentFacts.

Import Concurrent.

(** A call running alone is [generateProof]. *)
Lemma steps_alone c st :
  steps 4 c AtDerive st
  = (Settled (fst (generateProof (now c) (identity c) (action c) (topic c)
                     st)),
     snd (generateProof (now c) (identity c) (action c) (topic c) st)).
Proof.
  unfold generateProof, try_catch, generateProof_try, bind, throw, ret.
  cbn [steps step]. unfold checkNullifierUsed.
  destruct (existsb _ (nullifierTracker st)); [reflexivity |].
  cbn [steps step]. unfold addNullifier.
  destruct (hashRecorded _ st); reflexivity.
Qed.

Lemma step_remaining c t st :
  (remaining (fst (step c t st)) <= pred (remaining t))%nat.
Proof.
  destruct t as [|h|h|h p|r]; cbn [step]; try (cbn; lia).
  - unfold checkNullifierUsed.
    destruct (existsb _ (nullifierTracker st)); cbn; lia.
  - unfold addNullifier. destruct (hashRecorded h st); cbn; lia.
Qed.

Lemma filter_none {A} (f : A -> bool) (l : list A) :
  existsb f l = false -> List.filter f l = [].
Proof.
  induction l as [|x l IH]; [reflexivity |].
  cbn. intros H. apply orb_false_iff in H as [-> Hl]. auto.
Qed.

Lemma turns_cons b b' schedule :
  turns b (b' :: schedule)
  = ((if Bool.eqb b b' then 1 else 0) + turns b schedule)%nat.
Proof. unfold turns. cbn. now destruct (Bool.eqb b b'). Qed.

Lemma run_remaining c1 c2 schedule t1 t2 st :
  let '(t1', t2', _) := run c1 c2 schedule (t1, t2, st) in
  (remaining t1' <= remaining t1 - turns true schedule)%nat
  /\ (remaining t2' <= remaining t2 - turns false schedule)%nat.
Proof.
  revert t1 t2 st. induction schedule as [|b schedule IH]; intros t1 t2 st.
  - cbn. lia.
  - rewrite !turns_cons. destruct b; cbn [run fold_left turn Bool.eqb].
    + pose proof (step_remaining c1 t1 st) as Hs.
      destruct (step c1 t1 st) as [t1' st']. cbn [fst] in Hs.
      specialize (IH t1' t2 st'). unfold run in IH.
      destruct (fold_left _ schedule _) as [[u1 u2] u]. lia.
    + pose proof (step_remaining c2 t2 st) as Hs.
      destruct (step c2 t2 st) as [t2' st']. cbn [fst] in Hs.
      specialize (IH t1 t2' st'). unfold run in IH.
      destruct (fold_left _ schedule _) as [[u1 u2] u]. lia.
Qed.

(** The alternating schedule of the scenario, turn by turn: both calls
    find the ledger empty, the first inserts, the insertion of the second
    is refused. *)
Example alternating_race :
  run Scenario.request1 Scenario.request2 (take 4 Scenario.alternating)
    (AtDerive, AtDerive, Scenario.registered)
  = (AtBuild (nullifierHash Scenario.upvoteProof),
     AtBuild (nullifierHash Scenario.upvoteProof), Scenario.registered)
  /\ run Scenario.request1 Scenario.request2 Scenario.alternating
       (AtDerive, AtDerive, Scenario.registered)
     = (Settled (Return Scenario.upvoteProof),
        Settled (Throw FailedToGenerateProof), Scenario.afterUpvoteIssue).
Proof. vm_compute. split; reflexivity. Qed.

Section Race.

Variables (now1 now2 : N) (who : ZKIdentityData) (act top : string).
Variable st0 : Storage.

Local Abbreviation h := (generateActionNullifierHash (nullifier who) act top).
Local Abbreviation c1 := (mkCall now1 who act top).
Local Abbreviation c2 := (mkCall now2 who act top).

Hypothesis fresh : hashRecorded h st0 = false.

Lemma step_pending c t :
  nullifierHash (artifact c) = h -> action c = act -> topic c = top ->
  pending c t ->
  (exists t', step c t st0 = (t', st0) /\ pending c t')
  \/ step c t st0 = (Settled (Return (artifact c)), committed c st0).
Proof.
  intros Hh Ha Ht Hp. destruct Hp; cbn [step].
  - left. eexists. split; [reflexivity | constructor].
  - left. unfold checkNullifierUsed. rewrite Hh, Ha, Ht.
    rewrite (used_hasHash h act top _ fresh).
    eexists. split; [reflexivity |]. rewrite <- Hh. constructor.
  - left. eexists. split; [reflexivity | constructor].
  - right. unfold addNullifier. rewrite Hh, fresh.
    unfold committed, artifact. cbn in Hh. rewrite Hh. reflexivity.
Qed.

Lemma step_losing c c' t :
  nullifierHash (artifact c) = h -> action c = act -> topic c = top ->
  nullifierHash (artifact c') = h -> action c' = act -> topic c' = top ->
  losing c t ->
  exists t', step c t (committed c' st0) = (t', committed c' st0)
             /\ losing c t'.
Proof.
  intros Hh Ha Ht Hh' Ha' Ht' Hl.
  assert (existsb (sameNullifier h act top)
            (nullifierTracker (committed c' st0)) = true) as Hused.
  { cbn. rewrite existsb_app. cbn in Hh'. cbn. rewrite Hh', Ha', Ht'.
    rewrite sameNullifier_refl. now rewrite orb_true_r. }
  assert (hashRecorded h (committed c' st0) = true) as Hrec.
  { unfold hashRecorded.
    apply existsb_exists in Hused as (r & Hin & Hr).
    apply existsb_exists. eauto using sameNullifier_hasHash. }
  destruct Hl as [t Hp |]; [destruct Hp |]; cbn [step].
  - eexists. split; [reflexivity | do 2 constructor].
  - unfold checkNullifierUsed. rewrite Hh, Ha, Ht, Hused.
    eexists. split; [reflexivity | constructor 2].
  - eexists. split; [reflexivity | do 2 constructor].
  - unfold addNullifier. rewrite Hh, Hrec.
    eexists. split; [reflexivity | constructor 2].
  - eexists. split; [reflexivity | constructor 2].
Qed.

Lemma invariant_turn cf first :
  invariant c1 c2 st0 cf -> invariant c1 c2 st0 (turn c1 c2 cf first).
Proof.
  intros Hinv. destruct Hinv as [t1 t2 H1 H2 | t2 H2 | t1 H1];
    destruct first; cbn [turn].
  - destruct (step_pending c1 t1 eq_refl eq_refl eq_refl H1)
      as [(t' & -> & Hp) | ->].
    + now constructor.
    + constructor 2. now constructor.
  - destruct (step_pending c2 t2 eq_refl eq_refl eq_refl H2)
      as [(t' & -> & Hp) | ->].
    + now constructor.
    + constructor 3. now constructor.
  - cbn [step]. now constructor.
  - destruct (step_losing c2 c1 t2 eq_refl eq_refl eq_refl eq_refl
                eq_refl eq_refl H2) as (t' & -> & Hl).
    now constructor.
  - destruct (step_losing c1 c2 t1 eq_refl eq_refl eq_refl eq_refl
                eq_refl eq_refl H1) as (t' & -> & Hl).
    now constructor.
  - cbn [step]. now constructor.
Qed.

Lemma invariant_run schedule cf :
  invariant c1 c2 st0 cf -> invariant c1 c2 st0 (run c1 c2 schedule cf).
Proof.
  revert cf. induction schedule as [|b schedule IH]; intros cf Hinv;
    [exact Hinv |].
  cbn. apply IH. now apply invariant_turn.
Qed.

Lemma entries_committed c :
  nullifierHash (artifact c) = h ->
  length (entries h (committed c st0)) = 1%nat.
Proof.
  intros Hh. unfold entries, committed. cbn [nullifierTracker].
  rewrite List.filter_app, (filter_none _ _ fresh).
  cbn in Hh. rewrite Hh. cbn [List.filter app].
  unfold hasHash. cbn [nt_nullifierHash].
  now rewrite String.eqb_refl.
Qed.

Lemma race_outcome schedule :
  (4 <= turns true schedule)%nat -> (4 <= turns false schedule)%nat ->
  let '(t1, t2, st) := run c1 c2 schedule (AtDerive, AtDerive, st0) in
  (t1 = Settled (Return (artifact c1))
   /\ t2 = Settled (Throw FailedToGenerateProof)
   /\ st = committed c1 st0
   \/ t1 = Settled (Throw FailedToGenerateProof)
      /\ t2 = Settled (Return (artifact c2))
      /\ st = committed c2 st0)
  /\ length (entries h st) = 1%nat.
Proof.
  intros Hn1 Hn2.
  pose proof (run_remaining c1 c2 schedule AtDerive AtDerive st0) as Hrem.
  pose proof (invariant_run schedule (AtDerive, AtDerive, st0)
                (inv_open _ _ _ _ _ (pending_derive c1)
                   (pending_derive c2)))
    as Hinv.
  destruct (run c1 c2 schedule _) as [[t1 t2] st].
  destruct Hrem as [Hr1 Hr2]. cbn [remaining] in Hr1, Hr2.
  assert (remaining t1 = 0%nat) as Hz1 by lia.
  assert (remaining t2 = 0%nat) as Hz2 by lia.
  inversion Hinv as [u1 u2 H1 H2 | u2 H2 | u1 H1]; subst.
  - inversion H1; subst; discriminate.
  - split; [| now apply entries_committed].
    left. inversion H2 as [u Hp |]; subst; [| auto].
    inversion Hp; subst; discriminate.
  - split; [| now apply entries_committed].
    right. inversion H1 as [u Hp |]; subst; [| auto].
    inversion Hp; subst; discriminate.
Qed.

End Race.

End ConcurrentFacts.

(** C3. Two calls of [generateProof] for the same identity, action and
    topic, in flight together on a ledger that does not hold their nullifier
    hash: however their turns interleave, once each has had its four turns
    one call has returned its artifact, the other has been thrown the error
    a repeated request gets, the ledger holds exactly one entry of that
    hash, and artifact, error and database are those of the two calls made
    one after the other, the winner first. *)
Theorem generateProof_race :
  forall now1 now2 identity action topic st0 schedule,
    hashRecorded
      (generateActionNullifierHash (nullifier identity) action topic) st0
    = false ->
    (4 <= Concurrent.turns true schedule)%nat ->
    (4 <= Concurrent.turns false schedule)%nat ->
    exists r1 r2 st,
      Concurrent.run
        (Concurrent.mkCall now1 identity action topic)
        (Concurrent.mkCall now2 identity action topic)
        schedule (Concurrent.AtDerive, Concurrent.AtDerive, st0)
      = (Concurrent.Settled r1, Concurrent.Settled r2, st)
      /\ ((exists art,
              r1 = Return art /\ r2 = Throw FailedToGenerateProof
              /\ generateProof now1 identity action topic st0
                 = (Return art, st)
              /\ generateProof now2 identity action topic st
                 = (Throw FailedToGenerateProof, st))
          \/ (exists art,
                 r2 = Return art /\ r1 = Throw FailedToGenerateProof
                 /\ generateProof now2 identity action topic st0
                    = (Return art, st)
                 /\ generateProof now1 identity action topic st
                    = (Throw FailedToGenerateProof, st)))
      /\ length
           (Concurrent.entries
              (generateActionNullifierHash (nullifier identity) action topic)
              st) = 1%nat.
Proof.
  intros now1 now2 identity action topic st0 schedule Hfresh Hn1 Hn2.
  pose proof (ConcurrentFacts.race_outcome now1 now2 identity action topic
                st0 Hfresh schedule Hn1 Hn2) as H.
  destruct (Concurrent.run _ _ schedule _) as [[t1 t2] st].
  destruct H as [[(-> & -> & ->) | (-> & -> & ->)] Hone].
  - do 3 eexists. split; [reflexivity |]. split; [| exact Hone].
    left. eexists. split; [reflexivity |]. split; [reflexivity |].
    split; [now apply generateProof_fresh |].
    apply (generateProof_again now1 now2 identity action topic st0).
  - do 3 eexists. split; [reflexivity |]. split; [| exact Hone].
    right. eexists. split; [reflexivity |]. split; [reflexivity |].
    split; [now apply generateProof_fresh |].
    apply (generateProof_again now2 now1 identity action topic st0).
Qed.

Lemma generateProof_race_witness :
  exists r1 r2 st,
    Concurrent.run Scenario.request1 Scenario.request2 Scenario.alternating
      (Concurrent.AtDerive, Concurrent.AtDerive, Scenario.registered)
    = (Concurrent.Settled r1, Concurrent.Settled r2, st)
    /\ ((exists art,
            r1 = Return art /\ r2 = Throw FailedToGenerateProof
            /\ generateProof Scenario.requestedAt Scenario.alice "upvote"
                 "REF-001" Scenario.registered = (Return art, st)
            /\ generateProof (Scenario.requestedAt + 1) Scenario.alice
                 "upvote" "REF-001" st = (Throw FailedToGenerateProof, st))
        \/ (exists art,
               r2 = Return art /\ r1 = Throw FailedToGenerateProof
               /\ generateProof (Scenario.requestedAt + 1) Scenario.alice
                    "upvote" "REF-001" Scenario.registered = (Return art, st)
               /\ generateProof Scenario.requestedAt Scenario.alice "upvote"
                    "REF-001" st = (Throw FailedToGenerateProof, st)))
    /\ length
         (Concurrent.entries
            (generateActionNullifierHash (nullifier Scenario.alice) "upvote"
               "REF-001") st) = 1%nat.
Proof.
  apply (generateProof_race Scenario.requestedAt (Scenario.requestedAt + 1)
           Scenario.alice "upvote" "REF-001" Scenario.registered
           Scenario.alternating).
  - reflexivity.
  - cbn. lia.
  - cbn. lia.
Defined.

(** C3, as stated, fails: after a proof for [("a", "bc")], two first
    requests of the same identity for [("ab", "c")] in flight together find
    no entry for their action and topic, derive the hash that is in the
    ledger, and are both refused: neither succeeds and no entry is added,
    with the turns alternating as with one call run after the other. *)
Lemma generateProof_race_both_refused :
  fst (checkNullifierUsed
         (generateActionNullifierHash (nullifier Scenario.alice) "ab" "c")
         "ab" "c" Scenario.afterIssueA) = Return false
  /\ Concurrent.run
       (Concurrent.mkCall (Scenario.requestedAt + 5) Scenario.alice "ab" "c")
       (Concurrent.mkCall (Scenario.requestedAt + 6) Scenario.alice "ab" "c")
       Scenario.alternating
       (Concurrent.AtDerive, Concurrent.AtDerive, Scenario.afterIssueA)
     = (Concurrent.Settled (Throw FailedToGenerateProof),
        Concurrent.Settled (Throw FailedToGenerateProof),
        Scenario.afterIssueA)
  /\ Concurrent.run
       (Concurrent.mkCall (Scenario.requestedAt + 5) Scenario.alice "ab" "c")
       (Concurrent.mkCall (Scenario.requestedAt + 6) Scenario.alice "ab" "c")
       [true; true; true; true; false; false; false; false]
       (Concurrent.AtDerive, Concurrent.AtDerive, Scenario.afterIssueA)
     = (Concurrent.Settled (Throw FailedToGenerateProof),
        Concurrent.Settled (Throw FailedToGenerateProof),
        Scenario.afterIssueA).
Proof. vm_compute. repeat split; reflexivity. Qed.

(** ** Encryption *)

Module EncryptionFacts.

Import crypto EncryptionService.

Lemma hex_value_hex_digit (n : Z) : hex_value (hex_digit n) = Some (n mod 16).
Proof.
  unfold hex_digit.
  assert (0 <= n mod 16 < 16) as Hm by (apply Z.mod_pos_bound; lia).
  remember (n mod 16) as m eqn:E. clear E.
  assert (m = 0 \/ m = 1 \/ m = 2 \/ m = 3 \/ m = 4 \/ m = 5 \/ m = 6
          \/ m = 7 \/ m = 8 \/ m = 9 \/ m = 10 \/ m = 11 \/ m = 12
          \/ m = 13 \/ m = 14 \/ m = 15) as H by lia.
  repeat destruct H as [-> | H]; try subst m; reflexivity.
Qed.

(** [Buffer.from(buf.toString('hex'), 'hex')] is [buf]. *)
Lemma bytes_of_hex_of_bytes (bytes : list Z) :
  Forall (fun b => 0 <= b < 256) bytes ->
  bytes_of_hex (hex_of_bytes bytes) = bytes.
Proof.
  induction 1 as [|b bytes Hb _ IH]; [reflexivity |].
  cbn [hex_of_bytes]. unfold hex8. rewrite !app_String.
  change ("" +:+ hex_of_bytes bytes) with (hex_of_bytes bytes).
  cbn [bytes_of_hex]. rewrite !hex_value_hex_digit, IH.
  f_equal. rewrite (Z.mod_small (b / 16)).
  - symmetry. apply Z.div_mod. lia.
  - split; [apply Z.div_pos; lia | apply Z.div_lt_upper_bound; lia].
Qed.

Lemma hex_value_range c v : hex_value c = Some v -> 0 <= v < 16.
Proof.
  unfold hex_value.
  repeat match goal with
         | |- context [if ?b then _ else _] => destruct b eqn:?
         end; intros [= <-]; lia.
Qed.

Lemma bytes_of_hex_range (s : string) :
  Forall (fun b => 0 <= b < 256) (bytes_of_hex s).
Proof.
  assert (forall n s, (String.length s <= n)%nat ->
                      Forall (fun b => 0 <= b < 256) (bytes_of_hex s)) as H.
  { clear s. induction n as [|n IH]; intros s Hn.
    - destruct s; [constructor | cbn in Hn; lia].
    - destruct s as [|hi [|lo rest]]; try constructor.
      cbn [bytes_of_hex].
      destruct (hex_value hi) as [h|] eqn:Eh; [| constructor].
      destruct (hex_value lo) as [l|] eqn:El; [| constructor].
      apply hex_value_range in Eh, El.
      constructor; [lia |]. apply IH. cbn in Hn. lia. }
  now apply (H (String.length s)).
Qed.

(** What the service is written to do. With a runtime that does offer the
    two members, and ciphers whose [open] undoes [seal] under the same key,
    nonce, associated data and tag, [decrypt] gives back the plaintext of
    [encrypt], for a generated key and for a supplied one. *)
Section WorkingCipher.

Variable createCipher : string -> Buffer -> Buffer -> outcome Cipher.
Variable createDecipher : string -> Buffer -> Buffer -> outcome Decipher.

Local Abbreviation c :=
  {| createCipherGCM := Some createCipher;
     createDecipherGCM := Some createDecipher |}.

Hypothesis aead :
  forall k n cipher a p ct tag,
    createCipher algorithm k n = Return cipher ->
    seal cipher a p = Return (ct, tag) ->
    Forall (fun b => 0 <= b < 256) tag
    /\ exists decipher,
         createDecipher algorithm k n = Return decipher
         /\ open decipher a tag ct = Return p.

Lemma decrypt_encrypt randomKey randomIv plaintext supplied e :
  Forall (fun b => 0 <= b < 256) randomKey ->
  Forall (fun b => 0 <= b < 256) randomIv ->
  encrypt c randomKey randomIv plaintext supplied = Return e ->
  decrypt c e = Return {| content := plaintext |}.
Proof.
  intros Hk Hiv. unfold encrypt, decrypt, catch, andThen, call.
  cbn [createCipherGCM createDecipherGCM]. cbv beta iota zeta.
  match goal with
  | |- context [createCipher algorithm ?x randomIv] => set (k := x)
  end.
  assert (Forall (fun b => 0 <= b < 256) k) as Hk'.
  { subst k. destruct supplied as [s|]; [| exact Hk].
    destruct (falsy s); [exact Hk | apply bytes_of_hex_range]. }
  destruct (createCipher algorithm k randomIv) as [cipher|] eqn:Ec;
    cbv beta iota; [| discriminate].
  destruct (seal cipher aad plaintext) as [[ct tag]|] eqn:Es;
    cbv beta iota; [| discriminate].
  intros [= <-]. cbn [key iv authTag encryptedContent].
  destruct (aead _ _ _ _ _ _ _ Ec Es) as (Htag & decipher & Ed & Eo).
  rewrite !bytes_of_hex_of_bytes by assumption.
  now rewrite Ed, Eo.
Qed.

End WorkingCipher.

End EncryptionFacts.

(** C10. On Node.js the round trip never happens: [encrypt] reaches for
    [crypto.createCipherGCM], which the module does not have, and throws
    for every plaintext and key; [decrypt] does the same with
    [crypto.createDecipherGCM], and the two client helpers throw with
    them. *)
Theorem encrypt_throws_on_node :
  (forall randomKey randomIv plaintext key,
      EncryptionService.encrypt crypto.node randomKey randomIv plaintext key
      = Throw (mkError "Failed to encrypt data"))
  /\ (forall encryptedData,
         EncryptionService.decrypt crypto.node encryptedData
         = Throw (mkError "Failed to decrypt data"))
  /\ (forall (value : Type) (JSON_stringify : value -> string)
        (ofEncryptedData : EncryptedData -> value)
        (toBase64 : string -> string) randomKey randomIv data,
         EncryptionService.encryptForClient value JSON_stringify
           ofEncryptedData toBase64 crypto.node randomKey randomIv data
         = Throw (mkError "Failed to encrypt data"))
  /\ (forall (value : Type) (JSON_parse : string -> outcome value)
        (asEncryptedData : value -> EncryptedData)
        (fromBase64 : string -> string) encryptedString,
         EncryptionService.decryptFromClient value JSON_parse
           asEncryptedData fromBase64 crypto.node encryptedString
         = Throw (mkError "Failed to decrypt client data")).
Proof.
  repeat split; try reflexivity.
  intros. unfold EncryptionService.decryptFromClient,
    EncryptionService.catch, EncryptionService.andThen.
  destruct (JSON_parse (fromBase64 encryptedString)); reflexivity.
Qed.

(** The same at one input: the plaintext [hello], no key supplied. *)
Example encrypt_hello_throws :
  EncryptionService.encrypt crypto.node (repeat 7 32) (repeat 9 16) "hello"
    None
  = Throw (mkError "Failed to encrypt data").
Proof. reflexivity. Qed.

(** * Further properties *)

(** ** Identities *)

Lemma find_app_none {A} (f : A -> bool) (l : list A) (x : A) :
  existsb f l = false -> find f (l ++ [x]) = if f x then Some x else None.
Proof.
  induction l as [|y l IH]; [reflexivity |].
  cbn. intros H. apply orb_false_iff in H as [-> Hl]. auto.
Qed.

Lemma existsb_weaken {A} (f g : A -> bool) (l : list A) :
  (forall x, f x = true -> g x = true) ->
  existsb g l = false -> existsb f l = false.
Proof.
  intros Hfg Hg. destruct (existsb f l) eqn:E; [| reflexivity].
  apply existsb_exists in E as (x & Hin & Hx).
  assert (existsb g l = true) as H by (apply existsb_exists; eauto).
  congruence.
Qed.

(** X1. An identity whose commitment and group nullifier hash are new to
    the registry is registered by [generateIdentity], which returns the
    bundle with its secrets and adds one valid record and nothing else;
    [verifyIdentity] then answers [true] for its commitment. *)
Theorem generateIdentity_then_verifyIdentity :
  forall now random1 random2 group st,
    let i := identityOf random1 random2 (default "speaksecure-v1" group) in
    identityCollides (commitment i) (id_nullifierHash i) st = false ->
    let st' := {| zkIdentities := zkIdentities st ++ [identityRecord now i];
                  nullifierTracker := nullifierTracker st |} in
    generateIdentity now random1 random2 group st = (Return i, st')
    /\ verifyIdentity (commitment i) st' = (Return true, st').
Proof.
  intros now random1 random2 group st i Hnew st'. split.
  - unfold generateIdentity, try_catch, bind, createZkIdentity, ret.
    cbv beta iota zeta. fold i in Hnew |- *.
    unfold identityCollides in Hnew. cbn in Hnew |- *.
    rewrite Hnew. reflexivity.
  - unfold verifyIdentity, try_catch, bind, getZkIdentityByCommitment, ret.
    cbn [zkIdentities st'].
    rewrite find_app_none.
    + cbn. now rewrite String.eqb_refl.
    + apply (existsb_weaken _ _ _ (fun r H => proj2 (orb_true_iff _ _)
                                                (or_introl H)) Hnew).
Qed.

Lemma generateIdentity_then_verifyIdentity_witness :
  generateIdentity Scenario.issuedAt Scenario.random1 Scenario.random2
    (Some "g1") emptyStorage = (Return Scenario.alice, Scenario.registered)
  /\ verifyIdentity (commitment Scenario.alice) Scenario.registered
     = (Return true, Scenario.registered).
Proof.
  apply (generateIdentity_then_verifyIdentity Scenario.issuedAt
           Scenario.random1 Scenario.random2 (Some "g1") emptyStorage).
  reflexivity.
Defined.

(** X2. When the commitment or the group nullifier hash is already in the
    registry, as when the same two draws come again, [generateIdentity]
    throws [Failed to generate ZK identity] and the database is left as it
    was. *)
Theorem generateIdentity_collision :
  forall now random1 random2 group st,
    let i := identityOf random1 random2 (default "speaksecure-v1" group) in
    identityCollides (commitment i) (id_nullifierHash i) st = true ->
    generateIdentity now random1 random2 group st
    = (Throw (mkError "Failed to generate ZK identity"), st).
Proof.
  intros now random1 random2 group st i Hold.
  unfold generateIdentity, try_catch, bind, createZkIdentity, ret.
  cbv beta iota zeta. unfold identityCollides in Hold. cbn in Hold |- *.
  rewrite Hold. reflexivity.
Qed.

Lemma generateIdentity_collision_witness :
  generateIdentity (Scenario.issuedAt + 7) Scenario.random1 Scenario.random2
    (Some "g1") Scenario.registered
  = (Throw (mkError "Failed to generate ZK identity"), Scenario.registered).
Proof.
  apply (generateIdentity_collision (Scenario.issuedAt + 7) Scenario.random1
           Scenario.random2 (Some "g1") Scenario.registered).
  vm_compute. reflexivity.
Defined.

(** ** Issuance *)

Lemma hashRecorded_used h action topic st :
  fst (checkNullifierUsed h action topic st) = Return true ->
  hashRecorded h st = true.
Proof.
  unfold checkNullifierUsed, hashRecorded. cbn. intros [= H].
  apply existsb_exists in H as (r & Hin & Hr).
  apply existsb_exists. eauto using sameNullifier_hasHash.
Qed.

Lemma generateProof_cases now identity action topic st :
    let h := generateActionNullifierHash (nullifier identity) action topic in
    generateProof now identity action topic st
    = if hashRecorded h st
      then (Throw FailedToGenerateProof, st)
      else (Return {| proof := generateZkProofData now identity action topic;
                      publicSignals := [commitment identity; h; topic];
                      nullifierHash := h |},
            {| zkIdentities := zkIdentities st;
               nullifierTracker :=
                 nullifierTracker st
                 ++ [{| nt_nullifierHash := h; nt_action := action;
                        nt_topic := topic; nt_createdAt := now |}] |}).
Proof.
  intros h.
  destruct (hashRecorded h st) eqn:Hrec.
  - destruct (generateProof now identity action topic st) as [[art|e] st']
      eqn:Hgen.
    + apply generateProof_Return in Hgen as (Hfresh & _). fold h in Hfresh.
      congruence.
    + apply generateProof_Throw in Hgen as [-> ->]. reflexivity.
  - now apply generateProof_fresh.
Qed.

(** X3. [generateProof] is decided by the ledger alone: when the derived
    nullifier hash is in it, under whatever action and topic, the call
    throws [Failed to generate ZK proof] and changes nothing; otherwise it
    returns the artifact and appends one ledger entry, the registry
    untouched. *)
Theorem generateProof_decided_by_ledger :
  forall now identity action topic st,
    let h := generateActionNullifierHash (nullifier identity) action topic in
    generateProof now identity action topic st
    = if hashRecorded h st
      then (Throw FailedToGenerateProof, st)
      else (Return {| proof := generateZkProofData now identity action topic;
                      publicSignals := [commitment identity; h; topic];
                      nullifierHash := h |},
            {| zkIdentities := zkIdentities st;
               nullifierTracker :=
                 nullifierTracker st
                 ++ [{| nt_nullifierHash := h; nt_action := action;
                        nt_topic := topic; nt_createdAt := now |}] |}).
Proof. intros. apply generateProof_cases. Qed.

Lemma NoDup_snoc {A} (l : list A) (x : A) :
  NoDup l -> ~ In x l -> NoDup (l ++ [x]).
Proof.
  intros Hl Hx. apply NoDup_app. split; [exact Hl |].
  split; [| apply NoDup_singleton].
  intros y Hy Hy'. apply list_elem_of_In in Hy.
  apply list_elem_of_singleton in Hy'. subst. contradiction.
Qed.

Lemma hashRecorded_In h st :
  hashRecorded h st = false -> ~ In h (ledgerHashes st).
Proof.
  unfold hashRecorded, ledgerHashes. intros Hrec Hin.
  apply in_map_iff in Hin as (r & <- & Hr).
  assert (existsb (hasHash (nt_nullifierHash r)) (nullifierTracker st) = true)
    as H.
  { apply existsb_exists. exists r. split; [exact Hr |].
    unfold hasHash. apply String.eqb_refl. }
  congruence.
Qed.

Lemma addNullifier_NoDup now h action topic st :
  NoDup (ledgerHashes st) ->
  NoDup (ledgerHashes (snd (addNullifier now h action topic st)))
  /\ zkIdentities (snd (addNullifier now h action topic st))
     = zkIdentities st.
Proof.
  intros Hnd. unfold addNullifier.
  destruct (hashRecorded h st) eqn:Hrec; cbn [snd]; [auto |].
  split; [| reflexivity].
  unfold ledgerHashes. cbn [nullifierTracker]. rewrite map_app.
  apply NoDup_snoc; [exact Hnd | now apply hashRecorded_In].
Qed.

(** X4. [generateProof] keeps the ledger free of repeated nullifier hashes:
    if no hash occurs twice before the call, none does after it, whether
    the call succeeds or fails. *)
Theorem generateProof_keeps_hashes_unique :
  forall now identity action topic st,
    NoDup (ledgerHashes st) ->
    NoDup (ledgerHashes (snd (generateProof now identity action topic st))).
Proof.
  intros now identity action topic st Hnd.
  rewrite generateProof_cases.
  destruct (hashRecorded _ st) eqn:Hrec; cbn [snd]; [exact Hnd |].
  unfold ledgerHashes. cbn [nullifierTracker]. rewrite map_app.
  apply NoDup_snoc; [exact Hnd | now apply hashRecorded_In].
Qed.

Lemma generateProof_keeps_hashes_unique_witness :
  NoDup
    (ledgerHashes
       (snd (generateProof (Scenario.requestedAt + 5) Scenario.alice
               "upvote" "REF-002" Scenario.afterUpvoteIssue))).
Proof.
  apply generateProof_keeps_hashes_unique.
  vm_compute. apply NoDup_singleton.
Defined.

Lemma step_keeps_hashes_unique c t st :
  NoDup (ledgerHashes st) ->
  NoDup (ledgerHashes (snd (Concurrent.step c t st)))
  /\ zkIdentities (snd (Concurrent.step c t st)) = zkIdentities st.
Proof.
  intros Hnd. destruct t as [|h|h|h p|r]; cbn [Concurrent.step snd]; auto.
  - unfold checkNullifierUsed.
    destruct (existsb _ (nullifierTracker st)); cbn [snd]; auto.
  - pose proof (addNullifier_NoDup (Concurrent.now c) h (Concurrent.action c)
                  (Concurrent.topic c) st Hnd) as H.
    destruct (addNullifier _ h _ _ st) as [[u|e] st']; exact H.
Qed.

(** X5. Two calls of [generateProof] in flight, for whatever identities,
    actions and topics and from wherever each stands: however their turns
    interleave and wherever the schedule stops, the ledger holds no
    nullifier hash twice if it held none twice before, and the registry is
    the one they started with. *)
Theorem run_keeps_hashes_unique :
  forall c1 c2 schedule t1 t2 st,
    NoDup (ledgerHashes st) ->
    NoDup (ledgerHashes (snd (Concurrent.run c1 c2 schedule (t1, t2, st))))
    /\ zkIdentities (snd (Concurrent.run c1 c2 schedule (t1, t2, st)))
       = zkIdentities st.
Proof.
  intros c1 c2 schedule. induction schedule as [|b schedule IH];
    intros t1 t2 st Hnd; [cbn; auto |].
  unfold Concurrent.run in *. cbn [fold_left Concurrent.turn].
  destruct b.
  - destruct (step_keeps_hashes_unique c1 t1 st Hnd) as [Hnd' Hreg].
    destruct (Concurrent.step c1 t1 st) as [t1' st']. cbn [snd] in *.
    destruct (IH t1' t2 st' Hnd') as [H1 H2]. split; [exact H1 |].
    now rewrite H2.
  - destruct (step_keeps_hashes_unique c2 t2 st Hnd) as [Hnd' Hreg].
    destruct (Concurrent.step c2 t2 st) as [t2' st']. cbn [snd] in *.
    destruct (IH t1 t2' st' Hnd') as [H1 H2]. split; [exact H1 |].
    now rewrite H2.
Qed.

Lemma run_keeps_hashes_unique_witness :
  NoDup
    (ledgerHashes
       (snd (Concurrent.run Scenario.request1
               (Concurrent.mkCall Scenario.requestedAt Scenario.alice "a"
                  "bc")
               [true; false; false; true; true; false]
               (Concurrent.AtDerive, Concurrent.AtDerive,
                Scenario.afterUpvoteIssue))))
  /\ zkIdentities
       (snd (Concurrent.run Scenario.request1
               (Concurrent.mkCall Scenario.requestedAt Scenario.alice "a"
                  "bc")
               [true; false; false; true; true; false]
               (Concurrent.AtDerive, Concurrent.AtDerive,
                Scenario.afterUpvoteIssue)))
     = zkIdentities Scenario.afterUpvoteIssue.
Proof.
  apply run_keeps_hashes_unique. vm_compute. apply NoDup_singleton.
Defined.

(** ** What issuance hands to verification *)

Lemma isHexDigit_hex_digit (n : Z) : isHexDigit (hex_digit n) = true.
Proof.
  unfold hex_digit.
  assert (0 <= n mod 16 < 16) as Hm by (apply Z.mod_pos_bound; lia).
  remember (n mod 16) as m eqn:E. clear E.
  assert (m = 0 \/ m = 1 \/ m = 2 \/ m = 3 \/ m = 4 \/ m = 5 \/ m = 6
          \/ m = 7 \/ m = 8 \/ m = 9 \/ m = 10 \/ m = 11 \/ m = 12
          \/ m = 13 \/ m = 14 \/ m = 15) as H by lia.
  repeat destruct H as [-> | H]; try subst m; reflexivity.
Qed.

Lemma allHex_app (s t : string) : allHex (s +:+ t) = allHex s && allHex t.
Proof.
  induction s as [|c s IH]; [reflexivity |].
  rewrite app_String. cbn [allHex]. rewrite IH. now rewrite andb_assoc.
Qed.

Lemma allHex_hex32 (w : Z) : allHex (hex32 w) = true.
Proof.
  unfold hex32. cbn [allHex]. rewrite !isHexDigit_hex_digit. reflexivity.
Qed.

Lemma allHex_sha256_hex (s : string) : allHex (sha256_hex s) = true.
Proof.
  unfold sha256_hex.
  destruct (Sha256.digest (utf8 s)) as [[[[[[[a b] c] d] e] f] g] h].
  rewrite !allHex_app, !allHex_hex32. reflexivity.
Qed.

Lemma substring_all (s : string) :
  String.substring 0 (String.length s) s = s.
Proof. induction s as [|c s IH]; cbn; [reflexivity | now rewrite IH]. Qed.

Lemma digest_after_prefix (s : string) :
  String.substring 2 64 ("0x" +:+ sha256_hex s) = sha256_hex s.
Proof.
  change (String.substring 2 64 ("0x" +:+ sha256_hex s))
    with (String.substring 0 64 (sha256_hex s)).
  rewrite <- (sha256_hex_length s) at 1. apply substring_all.
Qed.

(** X6. Every artifact [generateProof] returns is well formed in the sense
    of the specification: a non-empty proof, three public signals, and a
    nullifier hash of [0x] and 64 hexadecimal digits equal to the second
    public signal. *)
Theorem generateProof_artifact_well_formed :
  forall now identity action topic st art st',
    generateProof now identity action topic st = (Return art, st') ->
    specWellFormed art = true.
Proof.
  intros now identity action topic st art st' Hgen.
  apply generateProof_Return in Hgen as (_ & -> & _).
  unfold specWellFormed, generateZkProofData, generateActionNullifierHash.
  cbn [proof publicSignals nullifierHash length].
  rewrite prefixed_not_falsy, prefixed_startsWith, prefixed_digest_length,
    digest_after_prefix, allHex_sha256_hex, String.eqb_refl.
  reflexivity.
Qed.

Lemma generateProof_artifact_well_formed_witness :
  specWellFormed Scenario.upvoteProof = true.
Proof.
  apply (generateProof_artifact_well_formed Scenario.requestedAt
           Scenario.alice "upvote" "REF-001" Scenario.registered
           Scenario.upvoteProof Scenario.afterUpvoteIssue).
  vm_compute. reflexivity.
Defined.

(** ** Verification *)

(** X7. [verifyProof] answers [true] exactly when the artifact passes the
    structural checks, its nullifier hash is not recorded for the action and
    topic, and [verifyIdentity] answers [true] for its first public
    signal. *)
Theorem verifyProof_true_iff :
  forall p action topic st,
    fst (verifyProof p action topic st) = Return true
    <-> structuralCheck p = true
        /\ fst (checkNullifierUsed (nullifierHash p) action topic st)
           = Return false
        /\ exists c, publicSignals p !! 0%nat = Some c
                     /\ fst (verifyIdentity c st) = Return true.
Proof.
  intros p action topic st.
  rewrite verifyProof_unfold, verifyProof_try_unfold.
  unfold checkNullifierUsed, verifyIdentity, try_catch, bind,
    getZkIdentityByCommitment, ret. cbn [fst].
  destruct (structuralCheck p).
  2: { split; [discriminate | intros [[=] _]]. }
  destruct (existsb _ (nullifierTracker st)).
  { split; [discriminate | intros (_ & [=] & _)]. }
  destruct (publicSignals p) as [|c rest].
  { split; [discriminate | intros (_ & _ & c & [=] & _)]. }
  cbn [fst]. split.
  - intros H. split; [reflexivity |]. split; [reflexivity |].
    exists c. split; [reflexivity |].
    destruct (find _ (zkIdentities st)); exact H.
  - intros (_ & _ & c' & [= <-] & H).
    destruct (find _ (zkIdentities st)); exact H.
Qed.

(** X8. [verifyProof] reads of an artifact only whether its proof string is
    empty, its nullifier hash, the number of its public signals and the
    first of them: two artifacts that agree on these get the same answer,
    whatever the bytes of their proof strings and their other signals. *)
Theorem verifyProof_ignores_proof_bytes :
  forall p q action topic st,
    falsy (proof p) = falsy (proof q) ->
    nullifierHash p = nullifierHash q ->
    length (publicSignals p) = length (publicSignals q) ->
    publicSignals p !! 0%nat = publicSignals q !! 0%nat ->
    verifyProof p action topic st = verifyProof q action topic st.
Proof.
  intros p q action topic st Hproof Hhash Hlen Hfirst.
  rewrite !verifyProof_unfold, !verifyProof_try_unfold.
  unfold structuralCheck. rewrite Hproof, Hhash, Hlen.
  destruct (publicSignals p) as [|c rest], (publicSignals q) as [|c' rest'];
    try discriminate; [reflexivity |].
  injection Hfirst as ->. reflexivity.
Qed.

Lemma verifyProof_ignores_proof_bytes_witness :
  verifyProof Scenario.upvoteProof "upvote" "REF-002" Scenario.registered
  = verifyProof
      {| proof := "forged";
         publicSignals := [commitment Scenario.alice; "x"; "y"];
         nullifierHash := nullifierHash Scenario.upvoteProof |}
      "upvote" "REF-002" Scenario.registered.
Proof.
  apply verifyProof_ignores_proof_bytes; reflexivity.
Defined.

(** ** The encryption service *)

Example toString36_examples :
  toString36 1700000000000 = "loyw3v28" /\ toString36 0 = "0"
  /\ toString36 35 = "z" /\ toString36 36 = "10"
  /\ toString36 (2 ^ 53 - 1) = "2gosa7pa2gv".
Proof. vm_compute. repeat split; reflexivity. Qed.

Lemma pairs_ind (P : list Z -> Prop) :
  P [] -> (forall u, P [u]) ->
  (forall u v rest, P rest -> P (v :: rest) -> P (u :: v :: rest)) ->
  forall s, P s.
Proof.
  intros H0 H1 H2 s.
  enough (P s /\ forall u, P (u :: s)) as [H _] by exact H.
  induction s as [|v rest [IH1 IH2]]; [auto |].
  split; [apply IH2 |]. intros u. apply H2; [exact IH1 | apply IH2].
Qed.

Lemma codePoints_cons u s :
  codePoints (u :: s)
  = if isHighSurrogate u
    then match s with
         | v :: rest' =>
             if isLowSurrogate v
             then (65536 + (u - 55296) * 1024 + (v - 56320))
                  :: codePoints rest'
             else 65533 :: codePoints s
         | [] => [65533]
         end
    else if isLowSurrogate u then 65533 :: codePoints s
    else u :: codePoints s.
Proof. destruct s; reflexivity. Qed.

Lemma codePoints_scalar s :
  Forall (fun u => 0 <= u < 65536) s -> Forall isScalar (codePoints s).
Proof.
  induction s as [|u|u v rest IH1 IH2] using pairs_ind; intros Hs.
  - constructor.
  - apply Forall_cons in Hs as [Hu _]. cbv beta in Hu.
    cbn [codePoints]. unfold isHighSurrogate, isLowSurrogate.
    destruct (55296 <=? u) eqn:E1, (u <=? 56319) eqn:E2,
      (56320 <=? u) eqn:E3, (u <=? 57343) eqn:E4; cbn [andb];
      repeat constructor; unfold isScalar; lia.
  - apply Forall_cons in Hs as [Hu Hs]. pose proof Hs as Hs'.
    apply Forall_cons in Hs' as [Hv Hr].
    specialize (IH1 Hr). specialize (IH2 Hs).
    cbv beta in Hu, Hv.
    rewrite codePoints_cons. unfold isHighSurrogate, isLowSurrogate.
    destruct (55296 <=? u) eqn:E1, (u <=? 56319) eqn:E2; cbn [andb].
    all: try (destruct (56320 <=? u) eqn:E3, (u <=? 57343) eqn:E4;
              cbn [andb]; (constructor; [unfold isScalar; lia | exact IH2])).
    destruct (56320 <=? v) eqn:E3, (v <=? 57343) eqn:E4; cbn [andb];
      (constructor; [unfold isScalar; lia | assumption]).
Qed.

Lemma utf8_of_code_point_inj p p' (r r' : list Z) :
  0 <= p < 1114112 -> 0 <= p' < 1114112 ->
  (utf8_of_code_point p ++ r)%list = (utf8_of_code_point p' ++ r')%list ->
  p = p' /\ r = r'.
Proof.
  intros Hp Hp'. unfold utf8_of_code_point.
  destruct (p <? 128) eqn:A1, (p <? 2048) eqn:A2, (p <? 65536) eqn:A3,
    (p' <? 128) eqn:B1, (p' <? 2048) eqn:B2, (p' <? 65536) eqn:B3;
    cbn [app]; intros H; injection H; clear H; intros;
    repeat match goal with
           | H : (_ <? _) = true |- _ => apply Z.ltb_lt in H
           | H : (_ <? _) = false |- _ => apply Z.ltb_ge in H
           end;
    try (split; [lia | assumption]);
    try (exfalso; Z.to_euclidean_division_equations; lia);
    (split; [Z.to_euclidean_division_equations; lia | assumption]).
Qed.

Lemma fromCodePoint_inj p p' (r r' : list Z) :
  isScalar p -> isScalar p' ->
  (fromCodePoint p ++ r)%list = (fromCodePoint p' ++ r')%list ->
  p = p' /\ r = r'.
Proof.
  intros [Hp Hs] [Hp' Hs']. unfold fromCodePoint.
  destruct (p <? 65536) eqn:A, (p' <? 65536) eqn:B; cbn [app];
    intros H; injection H; clear H; intros;
    repeat match goal with
           | H : (_ <? _) = true |- _ => apply Z.ltb_lt in H
           | H : (_ <? _) = false |- _ => apply Z.ltb_ge in H
           end;
    try (split; [lia | assumption]);
    try (exfalso; Z.to_euclidean_division_equations; lia);
    (split; [Z.to_euclidean_division_equations; lia | assumption]).
Qed.

Lemma flat_map_inj {A B} (f : A -> list B) (P : A -> Prop) :
  (forall x y r r', P x -> P y -> (f x ++ r)%list = (f y ++ r')%list ->
                    x = y /\ r = r') ->
  (forall x, P x -> f x <> []) ->
  forall l l', Forall P l -> Forall P l' ->
               flat_map f l = flat_map f l' -> l = l'.
Proof.
  intros Hinj Hne l. induction l as [|x l IH]; intros [|y l'] Hl Hl' H.
  - reflexivity.
  - apply Forall_cons in Hl' as [Hy _]. cbn in H. symmetry in H.
    apply app_eq_nil in H as [H _]. now apply Hne in H.
  - apply Forall_cons in Hl as [Hx _]. cbn in H.
    apply app_eq_nil in H as [H _]. now apply Hne in H.
  - apply Forall_cons in Hl as [Hx Hl]. apply Forall_cons in Hl' as [Hy Hl'].
    cbn in H. apply Hinj in H as [-> H]; [| assumption ..].
    f_equal. now apply IH.
Qed.

Lemma utf8_of_code_point_not_nil p : utf8_of_code_point p <> [].
Proof.
  unfold utf8_of_code_point.
  destruct (p <? 128), (p <? 2048), (p <? 65536); discriminate.
Qed.

Lemma fromCodePoint_not_nil p : fromCodePoint p <> [].
Proof. unfold fromCodePoint. destruct (p <? 65536); discriminate. Qed.

Lemma isScalar_range p : isScalar p -> 0 <= p < 1114112.
Proof. now intros [H _]. Qed.

(** Two strings have the same bytes exactly when they are the same once
    made well formed. *)
Lemma bufferFrom_toWellFormed a b :
  Forall (fun u => 0 <= u < 65536) a -> Forall (fun u => 0 <= u < 65536) b ->
  bufferFrom a = bufferFrom b <-> toWellFormed a = toWellFormed b.
Proof.
  intros Ha Hb. apply codePoints_scalar in Ha, Hb.
  unfold bufferFrom, toWellFormed. split; intros H.
  - f_equal.
    apply (flat_map_inj utf8_of_code_point isScalar); try assumption.
    + intros x y r r' Hx Hy. apply utf8_of_code_point_inj;
        now apply isScalar_range.
    + intros x _. apply utf8_of_code_point_not_nil.
  - f_equal.
    apply (flat_map_inj fromCodePoint isScalar); try assumption.
    + intros x y r r'. apply fromCodePoint_inj.
    + intros x _. apply fromCodePoint_not_nil.
Qed.

Lemma toWellFormed_length s :
  Forall (fun u => 0 <= u < 65536) s -> length (toWellFormed s) = length s.
Proof.
  unfold toWellFormed.
  induction s as [|u|u v rest IH1 IH2] using pairs_ind; intros Hs.
  - reflexivity.
  - apply Forall_cons in Hs as [Hu _]. cbv beta in Hu.
    cbn [codePoints]. destruct (isHighSurrogate u); [reflexivity |].
    destruct (isLowSurrogate u); [reflexivity |].
    cbn. unfold fromCodePoint.
    destruct (u <? 65536) eqn:E; [reflexivity |].
    apply Z.ltb_ge in E. lia.
  - apply Forall_cons in Hs as [Hu Hs]. pose proof Hs as Hs'.
    apply Forall_cons in Hs' as [Hv Hr].
    specialize (IH1 Hr). specialize (IH2 Hs).
    cbv beta in Hu, Hv. rewrite codePoints_cons.
    destruct (isHighSurrogate u) eqn:Eh.
    + destruct (isLowSurrogate v) eqn:El.
      * cbn [flat_map]. rewrite length_app, IH1.
        unfold isHighSurrogate in Eh. unfold isLowSurrogate in El.
        apply andb_true_iff in Eh as [E1 E2].
        apply andb_true_iff in El as [E3 E4].
        apply Z.leb_le in E1, E2, E3, E4. unfold fromCodePoint.
        destruct (_ <? 65536) eqn:E; [apply Z.ltb_lt in E; lia |].
        reflexivity.
      * cbn [flat_map]. rewrite length_app, IH2. reflexivity.
    + destruct (isLowSurrogate u).
      * cbn [flat_map]. rewrite length_app, IH2. reflexivity.
      * cbn [flat_map]. rewrite length_app, IH2. unfold fromCodePoint.
        destruct (u <? 65536) eqn:E; [reflexivity |].
        apply Z.ltb_ge in E. lia.
Qed.

Lemma forallb_isCodeUnit s :
  forallb isCodeUnit s = true -> Forall (fun u => 0 <= u < 65536) s.
Proof.
  intros H. apply Forall_forall. intros u Hu.
  apply list_elem_of_In in Hu.
  apply (proj1 (forallb_forall _ _) H) in Hu. unfold isCodeUnit in Hu.
  apply andb_true_iff in Hu as [H1 H2].
  apply Z.leb_le in H1. apply Z.ltb_lt in H2. lia.
Qed.

(** On the strings of the other sections [bufferFrom] is [utf8]. *)
Lemma bufferFrom_codeUnits s : bufferFrom (codeUnits s) = utf8 s.
Proof.
  unfold bufferFrom.
  induction s as [|c s IH]; [reflexivity |].
  cbn [codeUnits utf8]. rewrite codePoints_cons.
  pose proof (N_ascii_bounded c) as Hc.
  set (n := Z.of_N (N_of_ascii c)) in *.
  assert (0 <= n < 256) as Hn by (subst n; lia).
  unfold isHighSurrogate, isLowSurrogate.
  destruct (55296 <=? n) eqn:E1; [apply Z.leb_le in E1; lia |].
  destruct (56320 <=? n) eqn:E2; [apply Z.leb_le in E2; lia |].
  cbn [andb flat_map]. rewrite IH. f_equal.
  unfold utf8_of_code_point, utf8_of_code_unit. fold n.
  destruct (n <? 128); [reflexivity |].
  destruct (n <? 2048) eqn:E; [reflexivity | apply Z.ltb_ge in E; lia].
Qed.

(** X9. [secureCompare] answers [true] exactly for two strings that are the
    same once every surrogate without a partner is replaced by U+FFFD: for
    well-formed strings exactly when they are equal, and for some unequal
    strings too. It throws, instead of answering [false], exactly for two
    strings of the same length whose UTF-8 encodings differ in length, and
    answers [false] in every other case. *)
Theorem secureCompare_outcomes :
  forall a b,
    forallb isCodeUnit a = true -> forallb isCodeUnit b = true ->
    (EncryptionTools.secureCompare a b = Return true
     <-> toWellFormed a = toWellFormed b)
    /\ (toWellFormed a = a -> toWellFormed b = b ->
        (EncryptionTools.secureCompare a b = Return true <-> a = b))
    /\ ((exists e, EncryptionTools.secureCompare a b = Throw e)
        <-> length a = length b
            /\ length (bufferFrom a) <> length (bufferFrom b))
    /\ (EncryptionTools.secureCompare a b = Return false
        <-> length a <> length b
            \/ toWellFormed a <> toWellFormed b
               /\ length (bufferFrom a) = length (bufferFrom b)).
Proof.
  intros a b Ha Hb.
  apply forallb_isCodeUnit in Ha, Hb.
  pose proof (bufferFrom_toWellFormed a b Ha Hb) as Hw.
  pose proof (toWellFormed_length a Ha) as La.
  pose proof (toWellFormed_length b Hb) as Lb.
  assert (EncryptionTools.secureCompare a b = Return true
          <-> toWellFormed a = toWellFormed b) as Htrue.
  { unfold EncryptionTools.secureCompare, timingSafeEqual.
    destruct (length a =? length b)%nat eqn:El; cbn [negb].
    - destruct (length (bufferFrom a) =? length (bufferFrom b))%nat eqn:Eu.
      + destruct (decide (bufferFrom a = bufferFrom b)) as [E|E].
        * rewrite (bool_decide_eq_true_2 _ E). tauto.
        * rewrite (bool_decide_eq_false_2 _ E).
          split; [discriminate | tauto].
      + apply Nat.eqb_neq in Eu. split; [discriminate |].
        intros H. apply Hw in H. now rewrite H in Eu.
    - apply Nat.eqb_neq in El. split; [discriminate |].
      intros H. rewrite <- La, <- Lb, H in El. contradiction. }
  split; [exact Htrue |].
  split; [intros Wa Wb; rewrite Htrue, Wa, Wb; tauto |].
  unfold EncryptionTools.secureCompare, timingSafeEqual.
  destruct (length a =? length b)%nat eqn:El; cbn [negb].
  - apply Nat.eqb_eq in El.
    destruct (length (bufferFrom a) =? length (bufferFrom b))%nat eqn:Eu.
    + apply Nat.eqb_eq in Eu.
      destruct (decide (bufferFrom a = bufferFrom b)) as [E|E].
      * rewrite (bool_decide_eq_true_2 _ E). split.
        -- split; [intros [e [=]] | intros [_ H]; contradiction].
        -- split; [discriminate | intros [H | [H _]]; tauto].
      * rewrite (bool_decide_eq_false_2 _ E). split.
        -- split; [intros [e [=]] | intros [_ H]; contradiction].
        -- split; [intros _; right; tauto | reflexivity].
    + apply Nat.eqb_neq in Eu. split.
      * split; eauto.
      * split; [discriminate | intros [H | [_ H]]; contradiction].
  - apply Nat.eqb_neq in El. split.
    + split; [intros [e [=]] | intros [H _]; contradiction].
    + split; auto.
Qed.

Lemma secureCompare_outcomes_witness :
  (EncryptionTools.secureCompare [55296] [55297] = Return true
   <-> toWellFormed [55296] = toWellFormed [55297])
  /\ (toWellFormed [55296] = [55296] -> toWellFormed [55297] = [55297] ->
      (EncryptionTools.secureCompare [55296] [55297] = Return true
       <-> [55296] = [55297]))
  /\ ((exists e, EncryptionTools.secureCompare [55296] [55297] = Throw e)
      <-> length [55296] = length [55297]
          /\ length (bufferFrom [55296]) <> length (bufferFrom [55297]))
  /\ (EncryptionTools.secureCompare [55296] [55297] = Return false
      <-> length [55296] <> length [55297]
          \/ toWellFormed [55296] <> toWellFormed [55297]
             /\ length (bufferFrom [55296]) = length (bufferFrom [55297])).
Proof.
  apply (secureCompare_outcomes [55296] [55297]); reflexivity.
Defined.

(** Two surrogates without partners, U+D800 and U+D801, are both encoded
    as [EF BF BD]: the two strings are not equal and compare as equal. The
    letter e with an acute accent is one code unit and two bytes: it is not
    compared with the plain letter, the comparison throws. *)
Example secureCompare_examples :
  bufferFrom [55296] = [239; 191; 189]
  /\ EncryptionTools.secureCompare [55296] [55297] = Return true
  /\ EncryptionTools.secureCompare (codeUnits "abc") (codeUnits "abc")
     = Return true
  /\ EncryptionTools.secureCompare (codeUnits "abc") (codeUnits "abd")
     = Return false
  /\ EncryptionTools.secureCompare [233] [101]
     = Throw (mkError "Input buffers must have the same byte length")
  /\ bufferFrom [55357; 56832] = [240; 159; 152; 128].
Proof. vm_compute. repeat split; reflexivity. Qed.

Lemma forallChars_app f (s t : string) :
  forallChars f (s +:+ t) = forallChars f s && forallChars f t.
Proof.
  induction s as [|c s IH]; [reflexivity |].
  rewrite app_String. cbn [forallChars]. rewrite IH. now rewrite andb_assoc.
Qed.

Lemma toUpperCase_app (s t : string) :
  toUpperCase (s +:+ t) = toUpperCase s +:+ toUpperCase t.
Proof.
  induction s as [|c s IH]; [reflexivity |].
  rewrite app_String. cbn [toUpperCase]. rewrite IH. now rewrite app_String.
Qed.

Lemma toUpperCase_length (s : string) :
  String.length (toUpperCase s) = String.length s.
Proof. induction s as [|c s IH]; cbn; [reflexivity | now rewrite IH]. Qed.

Lemma forallChars_toUpperCase f (s : string) :
  forallChars f (toUpperCase s) = forallChars (fun c => f (upper c)) s.
Proof.
  induction s as [|c s IH]; [reflexivity |]. cbn. now rewrite IH.
Qed.

Lemma forallChars_and f g (s : string) :
  forallChars (fun c => f c && g c) s = forallChars f s && forallChars g s.
Proof.
  induction s as [|c s IH]; [reflexivity |]. cbn. rewrite IH.
  destruct (f c), (g c), (forallChars f s), (forallChars g s); reflexivity.
Qed.

Lemma fitsReference_digit36 (d : N) : fitsReference (digit36 d) = true.
Proof.
  unfold digit36. remember (N.to_nat d) as k eqn:E. clear E.
  do 36 (destruct k as [|k]; [reflexivity |]). reflexivity.
Qed.

Lemma fitsReference_hex_digit (n : Z) : fitsReference (hex_digit n) = true.
Proof.
  unfold hex_digit. remember (Z.to_nat (n mod 16)) as k eqn:E. clear E.
  do 16 (destruct k as [|k]; [reflexivity |]). reflexivity.
Qed.

Lemma fitsReference_toString36_digits fuel n acc :
  forallChars fitsReference acc = true ->
  forallChars fitsReference (toString36_digits fuel n acc) = true.
Proof.
  revert n acc. induction fuel as [|k IH]; intros n acc Hacc; [exact Hacc |].
  cbn [toString36_digits].
  assert (forallChars fitsReference (String (digit36 (n mod 36)) acc) = true)
    as H by (cbn; now rewrite fitsReference_digit36).
  destruct (n / 36 =? 0)%N; [exact H | now apply IH].
Qed.

Lemma fitsReference_hex_of_bytes (bytes : list Z) :
  forallChars fitsReference (hex_of_bytes bytes) = true.
Proof.
  induction bytes as [|b bytes IH]; [reflexivity |].
  cbn [hex_of_bytes]. rewrite forallChars_app, IH. unfold hex8. cbn.
  now rewrite !fitsReference_hex_digit.
Qed.

Lemma hex_of_bytes_length (bytes : list Z) :
  String.length (hex_of_bytes bytes) = (2 * length bytes)%nat.
Proof.
  induction bytes as [|b bytes IH]; [reflexivity |].
  cbn [hex_of_bytes]. rewrite length_app_string, IH. cbn. lia.
Qed.

(** The digits [toString36] writes are those of the number. *)
Lemma value36_digit36 (d : N) : (d < 36)%N -> value36 (digit36 d) = d.
Proof.
  intros Hd. rewrite <- (N2Nat.id d) at 2.
  assert (N.to_nat d < 36)%nat as Hk by lia.
  unfold digit36. remember (N.to_nat d) as k eqn:E. clear E Hd.
  do 36 (destruct k as [|k]; [reflexivity |]). lia.
Qed.

Lemma number36_app (s t : string) (a : N) :
  number36 (s +:+ t) a = number36 t (number36 s a).
Proof.
  revert a. induction s as [|c s IH]; intros a; [reflexivity |].
  rewrite app_String. cbn [number36]. apply IH.
Qed.

Lemma toString36_digits_number fuel :
  forall n acc,
    (n < 36 ^ N.of_nat fuel)%N ->
    exists ds,
      toString36_digits fuel n acc = ds +:+ acc
      /\ forall a,
          number36 ds a = (a * 36 ^ N.of_nat (String.length ds) + n)%N.
Proof.
  induction fuel as [|k IH]; intros n acc Hn.
  - exists "". split; [reflexivity |]. intros a. cbn in *. lia.
  - cbn [toString36_digits].
    assert (n mod 36 < 36)%N as Hm by (apply N.mod_lt; lia).
    pose proof (N.div_mod n 36 ltac:(lia)) as Hdm.
    destruct (n / 36 =? 0)%N eqn:E.
    + apply N.eqb_eq in E. exists (String (digit36 (n mod 36)) "").
      split; [reflexivity |]. intros a. cbn [number36 String.length].
      rewrite value36_digit36 by exact Hm.
      change (N.of_nat 1) with 1%N. lia.
    + apply N.eqb_neq in E.
      assert (n / 36 < 36 ^ N.of_nat k)%N as Hq.
      { apply N.Div0.div_lt_upper_bound.
        rewrite Nat2N.inj_succ, N.pow_succ_r' in Hn. exact Hn. }
      destruct (IH (n / 36)%N (String (digit36 (n mod 36)) acc) Hq)
        as (ds & Hds & Hval).
      exists (ds +:+ String (digit36 (n mod 36)) "").
      split.
      * rewrite Hds, app_assoc_string. reflexivity.
      * intros a. rewrite number36_app, Hval. cbn [number36].
        rewrite value36_digit36 by exact Hm.
        rewrite length_app_string. cbn [String.length].
        rewrite Nat.add_1_r, Nat2N.inj_succ, N.pow_succ_r'. lia.
Qed.

Lemma number36_toString36 (n : N) : number36 (toString36 n) 0 = n.
Proof.
  unfold toString36.
  destruct (toString36_digits_number (S (N.to_nat (N.log2 n))) n "")
    as (ds & -> & Hval).
  - rewrite Nat2N.inj_succ, N2Nat.id.
    destruct (N.eq_dec n 0) as [-> | Hn]; [reflexivity |].
    apply N.lt_le_trans with (2 ^ N.succ (N.log2 n))%N.
    + apply N.log2_spec. lia.
    + apply N.pow_le_mono_l. lia.
  - rewrite number36_app, Hval. cbn. lia.
Qed.

(** X10. A reference made by [generateReferenceId] from a clock reading and
    six random bytes starts with [SS-], is made of digits, upper-case
    letters and dashes only, is 16 characters plus the base-36 digits of
    the clock long, and so passes the length test of the status route. The
    string that is upper-cased holds ASCII characters only. *)
Theorem generateReferenceId_format :
  forall now randomBytes,
    length randomBytes = 6%nat ->
    let id := EncryptionTools.generateReferenceId now randomBytes in
    forallChars isAscii (EncryptionTools.referenceTemplate now randomBytes)
    = true
    /\ startsWith id "SS-" = true
    /\ forallChars isReferenceChar id = true
    /\ String.length id = (16 + String.length (toString36 now))%nat
    /\ tooShortToLookUp id = false.
Proof.
  intros now randomBytes Hlen id.
  assert (forallChars fitsReference
            (EncryptionTools.referenceTemplate now randomBytes) = true) as Hfit.
  { unfold EncryptionTools.referenceTemplate.
    rewrite !forallChars_app, fitsReference_hex_of_bytes.
    unfold toString36. now rewrite fitsReference_toString36_digits. }
  unfold fitsReference in Hfit. rewrite forallChars_and in Hfit.
  apply andb_true_iff in Hfit as [Hascii Href].
  assert (String.length id = (16 + String.length (toString36 now))%nat)
    as Hid.
  { unfold id, EncryptionTools.generateReferenceId,
      EncryptionTools.referenceTemplate.
    rewrite toUpperCase_length, !length_app_string, hex_of_bytes_length, Hlen.
    cbn. lia. }
  split; [exact Hascii |]. split; [reflexivity |].
  split; [unfold id, EncryptionTools.generateReferenceId;
          now rewrite forallChars_toUpperCase |].
  split; [exact Hid |].
  unfold tooShortToLookUp. rewrite Hid. reflexivity.
Qed.

Lemma generateReferenceId_format_witness :
  let id :=
    EncryptionTools.generateReferenceId 1700000000000 [1; 35; 69; 103; 137; 171]
  in
  forallChars isAscii
    (EncryptionTools.referenceTemplate 1700000000000
       [1; 35; 69; 103; 137; 171]) = true
  /\ startsWith id "SS-" = true
  /\ forallChars isReferenceChar id = true
  /\ String.length id = (16 + String.length (toString36 1700000000000))%nat
  /\ tooShortToLookUp id = false.
Proof.
  apply (generateReferenceId_format 1700000000000 [1; 35; 69; 103; 137; 171]).
  reflexivity.
Defined.

Example generateReferenceId_example :
  EncryptionTools.generateReferenceId 1700000000000 [1; 35; 69; 103; 137; 171]
  = "SS-LOYW3V28-0123456789AB".
Proof. vm_compute. reflexivity. Qed.

(** X11. With a runtime that has the two cipher members, and ciphers whose
    [open] gives back what [seal] was given under the same key, nonce,
    associated data and tag, [decrypt] returns the plaintext of whatever
    [encrypt] returned, for a generated key and for a supplied one: the
    key, nonce and tag survive their passage through hexadecimal. *)
Theorem decrypt_after_encrypt :
  forall createCipher createDecipher randomKey randomIv plaintext supplied e,
    (forall k n cipher a p ct tag,
        createCipher EncryptionService.algorithm k n = Return cipher ->
        crypto.seal cipher a p = Return (ct, tag) ->
        Forall (fun b => 0 <= b < 256) tag
        /\ exists decipher,
             createDecipher EncryptionService.algorithm k n = Return decipher
             /\ crypto.open decipher a tag ct = Return p) ->
    Forall (fun b => 0 <= b < 256) randomKey ->
    Forall (fun b => 0 <= b < 256) randomIv ->
    EncryptionService.encrypt
      {| crypto.createCipherGCM := Some createCipher;
         crypto.createDecipherGCM := Some createDecipher |}
      randomKey randomIv plaintext supplied = Return e ->
    EncryptionService.decrypt
      {| crypto.createCipherGCM := Some createCipher;
         crypto.createDecipherGCM := Some createDecipher |} e
    = Return {| content := plaintext |}.
Proof.
  intros createCipher createDecipher randomKey randomIv plaintext supplied e
    Haead Hk Hiv Henc.
  exact (EncryptionFacts.decrypt_encrypt createCipher createDecipher Haead
           randomKey randomIv plaintext supplied e Hk Hiv Henc).
Qed.

Lemma decrypt_after_encrypt_witness :
  EncryptionService.decrypt plainCipher
    {| encryptedContent := "hello"; iv := "0a0b"; authTag := "";
       key := "00ff10" |}
  = Return {| content := "hello" |}.
Proof.
  apply (decrypt_after_encrypt _ _ [1; 2] [10; 11] "hello" (Some "00FF10zz")).
  - intros k n cipher a p ct tag [= <-] [= <- <-].
    split; [constructor |]. eexists. split; reflexivity.
  - repeat constructor; lia.
  - repeat constructor; lia.
  - reflexivity.
Defined.

(** ** Serialisation *)

(** The standard test vectors of base64, and [JSON.stringify] at work. *)
Example base64_vectors :
  base64_of_bytes (utf8 "") = "" /\ base64_of_bytes (utf8 "f") = "Zg=="
  /\ base64_of_bytes (utf8 "fo") = "Zm8="
  /\ base64_of_bytes (utf8 "foo") = "Zm9v"
  /\ base64_of_bytes (utf8 "foobar") = "Zm9vYmFy"
  /\ base64_of_bytes [255; 254; 253; 252] = "//79/A==".
Proof. vm_compute. repeat split; reflexivity. Qed.

Example stringify_example :
  JSON.stringify
    (JSON.object
       [("type", Some (JSON.JString "ping")); ("channel", None);
        ("timestamp", Some (JSON.JNumber (toString 17)));
        ("tags", Some (JSON.JArray [JSON.JBool true; JSON.JNull]))])
  = String.concat (String JSON.quoteMark "")
      ["{"; "type"; ":"; "ping"; ","; "timestamp"; ":17,"; "tags";
       ":[true,null]}"].
Proof. vm_compute. reflexivity. Qed.

(** ** The IPFS service *)

Lemma substring_length_le (n : nat) (s : string) :
  (n <= String.length s)%nat -> String.length (String.substring 0 n s) = n.
Proof.
  revert s. induction n as [|n IH]; intros s Hn.
  - destruct s; reflexivity.
  - destruct s as [|c s]; [cbn in Hn; lia |].
    cbn. rewrite IH; [reflexivity | cbn in Hn; lia].
Qed.

Lemma generateFallbackHash_length (content : string) :
  String.length (IPFSService.generateFallbackHash content) = 46%nat.
Proof.
  unfold IPFSService.generateFallbackHash.
  rewrite length_app_string, substring_length_le; [reflexivity |].
  rewrite sha256_hex_length. lia.
Qed.

(** X12. [uploadContent] never throws. When the node is connected and
    stores the content it answers what the node answered; in every other
    case, the node unreachable or its [add] throwing, it answers the
    fallback: a hash of [Qm] and the first 44 digits of the SHA-256 of the
    content, 46 characters in all, the length of the content in code units
    as size, and [/ipfs/] and the hash as path. *)
Theorem uploadContent_never_throws :
  forall add isConnected content,
    let h := IPFSService.generateFallbackHash content in
    let fallback :=
      {| IPFSService.hash := IPFSService.HashString h;
         IPFSService.size := N.of_nat (String.length content);
         IPFSService.path := "/ipfs/" +:+ h |} in
    String.length h = 46%nat /\ startsWith h "Qm" = true
    /\ IPFSService.uploadContent add isConnected content
       = Return
           (if isConnected
            then match add (utf8 content) with
                 | Return (cid, size, path) =>
                     {| IPFSService.hash := IPFSService.HashString cid;
                        IPFSService.size := size;
                        IPFSService.path := path |}
                 | Throw _ => fallback
                 end
            else fallback).
Proof.
  intros add isConnected content h fallback.
  split; [apply generateFallbackHash_length |]. split; [reflexivity |].
  unfold IPFSService.uploadContent, EncryptionService.catch,
    EncryptionService.andThen.
  destruct isConnected; [| reflexivity]. cbn [negb].
  destruct (add (utf8 content)) as [[[cid size] path]|e]; reflexivity.
Qed.

(** X13. With the node unreachable an upload is answered and cannot be read
    back: [uploadContent] returns its fallback hash, and [retrieveContent]
    throws for that hash as for any other. *)
Theorem fallback_upload_not_retrievable :
  forall add cat decode content,
    IPFSService.uploadContent add false content
    = Return
        (IPFSService.fallback
           (IPFSService.HashString
              (IPFSService.generateFallbackHash content))
           (N.of_nat (String.length content)))
    /\ forall hash,
        IPFSService.retrieveContent cat decode false hash
        = Throw
            (mkError
               "IPFS not connected and no fallback available for retrieval").
Proof. intros. split; reflexivity. Qed.

(** X14. The fallback of [uploadFile] does not name the file: the hash it
    answers is a promise that was not awaited, and the path is
    [/ipfs/[object Promise]] for every buffer, with the node unreachable or
    its [add] throwing. *)
Theorem uploadFile_fallback_path :
  forall add isConnected buffer filename,
    (isConnected = false \/ exists e, add buffer = Throw e) ->
    exists r,
      IPFSService.uploadFile add isConnected buffer filename = Return r
      /\ IPFSService.path r = "/ipfs/[object Promise]"
      /\ (forall s, IPFSService.hash r <> IPFSService.HashString s)
      /\ IPFSService.size r = N.of_nat (length buffer).
Proof.
  intros add isConnected buffer filename Hfail.
  unfold IPFSService.uploadFile, EncryptionService.catch,
    EncryptionService.andThen.
  destruct isConnected; cbn [negb].
  - destruct Hfail as [[=] | [e ->]]. eexists. split; [reflexivity |].
    repeat split. intros s [=].
  - eexists. split; [reflexivity |]. repeat split. intros s [=].
Qed.

Lemma uploadFile_fallback_path_witness :
  exists r,
    IPFSService.uploadFile
      (fun _ => Throw (mkError "connect ECONNREFUSED")) true [1; 2; 3]
      "photo.png" = Return r
    /\ IPFSService.path r = "/ipfs/[object Promise]"
    /\ (forall s, IPFSService.hash r <> IPFSService.HashString s)
    /\ IPFSService.size r = N.of_nat (length [1; 2; 3]).
Proof.
  apply (uploadFile_fallback_path
           (fun _ => Throw (mkError "connect ECONNREFUSED")) true [1; 2; 3]
           "photo.png").
  right. eexists. reflexivity.
Defined.

(** ** The blockchain service *)

Lemma prefixed_digest_accepted s rpc (d : string) :
  BlockchainService.isConnected s = false ->
  BlockchainService.verifyTransaction s rpc ("0x" +:+ sha256_hex d)
  = Return true.
Proof.
  intros Hs. unfold BlockchainService.verifyTransaction. rewrite Hs.
  cbn [negb]. now rewrite prefixed_startsWith, prefixed_digest_length.
Qed.

(** X15. [logComplaintHash] and [logEmergencyAlert] never throw and always
    report [confirmed], the node reachable or not; each answers a
    transaction hash that [verifyTransaction] accepts when the node is
    unreachable, and a block number and gas figure only when it was
    reachable. *)
Theorem blockchain_log_always_confirmed :
  forall s now blockDraw gasDraw a b s' rpc,
    BlockchainService.isConnected s' = false ->
    (exists r,
        BlockchainService.logComplaintHash s now blockDraw gasDraw a b
        = Return r
        /\ BlockchainService.status r = "confirmed"
        /\ BlockchainService.verifyTransaction s' rpc
             (BlockchainService.transactionHash r) = Return true
        /\ (is_Some (BlockchainService.blockNumber r)
            <-> BlockchainService.isConnected s = true))
    /\ (exists r,
           BlockchainService.logEmergencyAlert s now blockDraw gasDraw a b
           = Return r
           /\ BlockchainService.status r = "confirmed"
           /\ BlockchainService.verifyTransaction s' rpc
                (BlockchainService.transactionHash r) = Return true
           /\ (is_Some (BlockchainService.blockNumber r)
               <-> BlockchainService.isConnected s = true)).
Proof.
  intros s now blockDraw gasDraw a b s' rpc Hs'.
  unfold BlockchainService.logComplaintHash,
    BlockchainService.logEmergencyAlert, EncryptionService.catch,
    BlockchainService.submitTransaction,
    BlockchainService.generateFallbackTransactionHash.
  destruct (BlockchainService.isConnected s); cbn [negb];
    (split; eexists; (split; [reflexivity |]); (split; [reflexivity |]);
     cbn [BlockchainService.transactionHash BlockchainService.blockNumber];
     (split; [now apply prefixed_digest_accepted |]);
     split; try discriminate; eauto; intros [x [=]]).
Qed.

Lemma blockchain_log_always_confirmed_witness :
  (exists r,
      BlockchainService.logComplaintHash
        (BlockchainService.create None None)
        (fun i => 1700000000000 + N.of_nat i)%N
        5 7 "abc" "proof" = Return r
      /\ BlockchainService.status r = "confirmed"
      /\ BlockchainService.verifyTransaction
           (BlockchainService.create None None)
           (fun _ => Throw (mkError "unreachable"))
           (BlockchainService.transactionHash r) = Return true
      /\ (is_Some (BlockchainService.blockNumber r)
          <-> BlockchainService.isConnected
                (BlockchainService.create None None) = true))
  /\ (exists r,
         BlockchainService.logEmergencyAlert
           (BlockchainService.create None None)
           (fun i => 1700000000000 + N.of_nat i)%N 5 7 "abc" "proof"
         = Return r
         /\ BlockchainService.status r = "confirmed"
         /\ BlockchainService.verifyTransaction
              (BlockchainService.create None None)
              (fun _ => Throw (mkError "unreachable"))
              (BlockchainService.transactionHash r) = Return true
         /\ (is_Some (BlockchainService.blockNumber r)
             <-> BlockchainService.isConnected
                   (BlockchainService.create None None) = true)).
Proof.
  apply blockchain_log_always_confirmed. reflexivity.
Defined.

(** ** The emergency service *)

(** X16. On Node.js no emergency alert goes out: [sendEmergencyAlert] fails
    at its first step, the encryption, and throws [Failed to process
    emergency alert] for every alert before any collaborator is called,
    nothing stored, logged or sent; [testEmergencySystem] reports the
    failure. *)
Theorem sendEmergencyAlert_fails_on_node :
  forall randomKey randomIv now uploadJSON logEmergencyAlert
         createEmergencyAlert emergencyContacts siren localTime,
    (forall alert log,
        EmergencyService.sendEmergencyAlert crypto.node randomKey randomIv now
          uploadJSON logEmergencyAlert createEmergencyAlert emergencyContacts
          siren localTime alert log
        = (Throw (mkError "Failed to process emergency alert"), log))
    /\ (forall testContact log,
           EmergencyService.testEmergencySystem crypto.node randomKey
             randomIv now uploadJSON logEmergencyAlert createEmergencyAlert
             emergencyContacts siren localTime testContact log
           = ((false,
               "Emergency system test failed: "
               +:+ "Failed to process emergency alert"),
              log)).
Proof. intros. split; reflexivity. Qed.

Module EmergencyFacts.

Import EmergencyService.

Section Notifications.

Variables (emergencyContacts : list string) (siren localTime : string).

Lemma notifyServices_log alert m contacts log :
  notifyServices siren localTime alert m contacts log
  = (Return tt,
     (log ++ map (fun k => Sms k (formatEmergencyServiceMessage siren
                                    localTime alert m))
               (List.filter
                  (fun k => negb (String.eqb k (emergencyContact alert)))
                  contacts))%list).
Proof.
  revert log. induction contacts as [|k rest IH]; intros log.
  - cbn. now rewrite app_nil_r.
  - cbn [notifyServices List.filter]. unfold seq.
    destruct (negb (String.eqb k (emergencyContact alert))).
    + unfold sendSMS, invoke. rewrite IH. cbn [map].
      now rewrite <- app_assoc.
    + unfold pure. now rewrite IH.
Qed.

Lemma sendNotifications_log alert m log :
  sendNotifications emergencyContacts siren localTime alert m log
  = (Return tt,
     (log
      ++ Sms (emergencyContact alert)
           (formatEmergencyMessage siren localTime alert m)
      :: map (fun k => Sms k (formatEmergencyServiceMessage siren localTime
                                alert m))
           (List.filter
              (fun k => negb (String.eqb k (emergencyContact alert)))
              emergencyContacts))%list).
Proof.
  unfold sendNotifications, attempt, seq, sendSMS, invoke.
  rewrite notifyServices_log. now rewrite <- app_assoc.
Qed.

End Notifications.

End EmergencyFacts.

(** X17. [sendNotifications] never throws. It sends the detailed message to
    the contact of the alert, once, and then the service message to each
    configured emergency number other than that contact, in the order of
    the configuration: the contact of the alert is never sent the service
    message, even when it is one of the emergency numbers. *)
Theorem sendNotifications_recipients :
  forall emergencyContacts siren localTime alert m log,
    EmergencyService.sendNotifications emergencyContacts siren localTime
      alert m log
    = (Return tt,
       (log
        ++ EmergencyService.Sms (EmergencyService.emergencyContact alert)
             (EmergencyService.formatEmergencyMessage siren localTime alert m)
        :: map (fun k =>
                  EmergencyService.Sms k
                    (EmergencyService.formatEmergencyServiceMessage siren
                       localTime alert m))
             (List.filter
                (fun k =>
                   negb (String.eqb k
                           (EmergencyService.emergencyContact alert)))
                emergencyContacts))%list).
Proof.
  intros. apply EmergencyFacts.sendNotifications_log.
Qed.

(** X18. Where the encryption does go through, an alert does not depend on
    IPFS: if the blockchain log and the database insert answer,
    [sendEmergencyAlert] returns status [sent] with the identifier of the
    stored alert and the transaction hash, whatever the upload did, its
    hash in the response when it answered and none when it threw; the
    upload, the log, the insert and then the messages are what it does, in
    this order. *)
Theorem sendEmergencyAlert_survives_ipfs :
  forall c randomKey randomIv now uploadJSON logEmergencyAlert
         createEmergencyAlert emergencyContacts siren localTime alert log
         encrypted chain id,
    let payload :=
      JSON.object
        [("content", Some (JSON.JString (EmergencyService.content alert)));
         ("emergencyContact",
          Some (JSON.JString (EmergencyService.emergencyContact alert)));
         ("location",
          option_map EmergencyService.locationJson
            (EmergencyService.location alert));
         ("timestamp", Some (JSON.JNumber (toString (now 0%nat))));
         ("priority",
          Some (JSON.JString
                  (EmergencyService.orElse (EmergencyService.priority alert)
                     "critical")))] in
    let row :=
      {| EmergencyService.ins_encryptedContent := encrypted;
         EmergencyService.ins_emergencyContact :=
           EmergencyService.emergencyContact alert;
         EmergencyService.ins_location := EmergencyService.location alert;
         EmergencyService.ins_zkCommitment :=
           EmergencyService.zkCommitment alert |} in
    EmergencyService.encryptForClient c randomKey randomIv payload
    = Return encrypted ->
    logEmergencyAlert (EncryptionTools.generateHash encrypted)
      (EmergencyService.emergencyContact alert) = Return chain ->
    createEmergencyAlert row = Return id ->
    exists upload sent,
      let ipfsHash :=
        match uploadJSON upload with
        | Return u => Some (IPFSService.hash u)
        | Throw _ => None
        end in
      EmergencyService.sendEmergencyAlert c randomKey randomIv now uploadJSON
        logEmergencyAlert createEmergencyAlert emergencyContacts siren
        localTime alert log
      = (Return
           {| EmergencyService.alertId := id;
              EmergencyService.status := "sent";
              EmergencyService.transactionHash :=
                BlockchainService.transactionHash chain;
              EmergencyService.ipfsHash := ipfsHash;
              EmergencyService.timestamp := now 2%nat |},
         (log
          ++ [EmergencyService.IpfsUpload upload;
              EmergencyService.ChainLog
                (EncryptionTools.generateHash encrypted)
                (EmergencyService.emergencyContact alert);
              EmergencyService.DbInsert row]
          ++ sent)%list)
      /\ Forall (fun ev => exists k msg, ev = EmergencyService.Sms k msg) sent.
Proof.
  intros c randomKey randomIv now uploadJSON logEmergencyAlert
    createEmergencyAlert emergencyContacts siren localTime alert log
    encrypted chain id payload row Henc Hchain Hdb.
  unfold EmergencyService.sendEmergencyAlert, EmergencyService.attempt,
    EmergencyService.seq, EmergencyService.lift.
  fold payload. rewrite Henc. cbv beta iota zeta.
  unfold EmergencyService.invoke at 1. unfold EmergencyService.pure at 1 2.
  match goal with
  | |- context [uploadJSON ?u] => exists u
  end.
  destruct (uploadJSON _) as [u|e]; eexists; cbv beta iota zeta;
    unfold EmergencyService.invoke; rewrite Hchain; cbv beta iota zeta;
    fold row; rewrite Hdb; cbv beta iota zeta;
    rewrite EmergencyFacts.sendNotifications_log; unfold EmergencyService.pure;
    (split;
     [rewrite <- !app_assoc; reflexivity
     | constructor; [eauto |];
       apply Forall_forall; intros ev Hin;
       apply list_elem_of_In, in_map_iff in Hin as (k & <- & _); eauto]).
Qed.

Lemma sendEmergencyAlert_survives_ipfs_witness :
  exists upload sent,
    let ipfsHash :=
      match EmergencyScenario.uploadFails upload with
      | Return u => Some (IPFSService.hash u)
      | Throw _ => None
      end in
    EmergencyService.sendEmergencyAlert plainCipher
      EmergencyScenario.randomKey EmergencyScenario.randomIv
      EmergencyScenario.clock EmergencyScenario.uploadFails
      EmergencyScenario.chainLog EmergencyScenario.stored
      EmergencyService.defaultContacts "!" "now" EmergencyScenario.alert []
    = (Return
         {| EmergencyService.alertId := "alert-1";
            EmergencyService.status := "sent";
            EmergencyService.transactionHash :=
              BlockchainService.transactionHash EmergencyScenario.chain;
            EmergencyService.ipfsHash := ipfsHash;
            EmergencyService.timestamp := EmergencyScenario.clock 2%nat |},
       ([]
        ++ [EmergencyService.IpfsUpload upload;
            EmergencyService.ChainLog
              (EncryptionTools.generateHash EmergencyScenario.encrypted)
              (EmergencyService.emergencyContact EmergencyScenario.alert);
            EmergencyService.DbInsert EmergencyScenario.row]
        ++ sent)%list)
    /\ Forall (fun ev => exists k msg, ev = EmergencyService.Sms k msg) sent.
Proof.
  apply (sendEmergencyAlert_survives_ipfs plainCipher
           EmergencyScenario.randomKey EmergencyScenario.randomIv
           EmergencyScenario.clock EmergencyScenario.uploadFails
           EmergencyScenario.chainLog EmergencyScenario.stored
           EmergencyService.defaultContacts "!" "now" EmergencyScenario.alert
           [] EmergencyScenario.encrypted EmergencyScenario.chain "alert-1").
  - vm_compute. reflexivity.
  - vm_compute. reflexivity.
  - reflexivity.
Defined.

(** X19. Nothing is undone when an alert fails late: if the encryption and
    the blockchain log answer and the database insert throws,
    [sendEmergencyAlert] throws [Failed to process emergency alert] with the
    upload to IPFS and the blockchain log already made, and no message
    sent. *)
Theorem sendEmergencyAlert_fails_after_log :
  forall c randomKey randomIv now uploadJSON logEmergencyAlert
         createEmergencyAlert emergencyContacts siren localTime alert log
         encrypted chain e,
    let payload :=
      JSON.object
        [("content", Some (JSON.JString (EmergencyService.content alert)));
         ("emergencyContact",
          Some (JSON.JString (EmergencyService.emergencyContact alert)));
         ("location",
          option_map EmergencyService.locationJson
            (EmergencyService.location alert));
         ("timestamp", Some (JSON.JNumber (toString (now 0%nat))));
         ("priority",
          Some (JSON.JString
                  (EmergencyService.orElse (EmergencyService.priority alert)
                     "critical")))] in
    let row :=
      {| EmergencyService.ins_encryptedContent := encrypted;
         EmergencyService.ins_emergencyContact :=
           EmergencyService.emergencyContact alert;
         EmergencyService.ins_location := EmergencyService.location alert;
         EmergencyService.ins_zkCommitment :=
           EmergencyService.zkCommitment alert |} in
    EmergencyService.encryptForClient c randomKey randomIv payload
    = Return encrypted ->
    logEmergencyAlert (EncryptionTools.generateHash encrypted)
      (EmergencyService.emergencyContact alert) = Return chain ->
    createEmergencyAlert row = Throw e ->
    exists upload,
      EmergencyService.sendEmergencyAlert c randomKey randomIv now uploadJSON
        logEmergencyAlert createEmergencyAlert emergencyContacts siren
        localTime alert log
      = (Throw (mkError "Failed to process emergency alert"),
         (log
          ++ [EmergencyService.IpfsUpload upload;
              EmergencyService.ChainLog
                (EncryptionTools.generateHash encrypted)
                (EmergencyService.emergencyContact alert);
              EmergencyService.DbInsert row])%list).
Proof.
  intros c randomKey randomIv now uploadJSON logEmergencyAlert
    createEmergencyAlert emergencyContacts siren localTime alert log
    encrypted chain e payload row Henc Hchain Hdb.
  unfold EmergencyService.sendEmergencyAlert, EmergencyService.attempt,
    EmergencyService.seq, EmergencyService.lift.
  fold payload. rewrite Henc. cbv beta iota zeta.
  unfold EmergencyService.invoke at 1. unfold EmergencyService.pure at 1 2.
  match goal with
  | |- context [uploadJSON ?u] => exists u
  end.
  destruct (uploadJSON _) as [u|e']; cbv beta iota zeta;
    unfold EmergencyService.invoke; rewrite Hchain; cbv beta iota zeta;
    fold row; rewrite Hdb; cbv beta iota zeta;
    unfold EmergencyService.raise; rewrite <- !app_assoc; reflexivity.
Qed.

Lemma sendEmergencyAlert_fails_after_log_witness :
  exists upload,
    EmergencyService.sendEmergencyAlert plainCipher
      EmergencyScenario.randomKey EmergencyScenario.randomIv
      EmergencyScenario.clock EmergencyScenario.uploadFails
      EmergencyScenario.chainLog EmergencyScenario.notStored
      EmergencyService.defaultContacts "!" "now" EmergencyScenario.alert []
    = (Throw (mkError "Failed to process emergency alert"),
       ([]
        ++ [EmergencyService.IpfsUpload upload;
            EmergencyService.ChainLog
              (EncryptionTools.generateHash EmergencyScenario.encrypted)
              (EmergencyService.emergencyContact EmergencyScenario.alert);
            EmergencyService.DbInsert EmergencyScenario.row])%list).
Proof.
  apply (sendEmergencyAlert_fails_after_log plainCipher
           EmergencyScenario.randomKey EmergencyScenario.randomIv
           EmergencyScenario.clock EmergencyScenario.uploadFails
           EmergencyScenario.chainLog EmergencyScenario.notStored
           EmergencyService.defaultContacts "!" "now" EmergencyScenario.alert
           [] EmergencyScenario.encrypted EmergencyScenario.chain
           (mkError "connection terminated")).
  - vm_compute. reflexivity.
  - vm_compute. reflexivity.
  - reflexivity.
Defined.

(** X20. The message for the backup emergency numbers is made of the
    priority, the location, the alert identifier, the time and the first
    ten characters of the transaction hash: it is the same for two alerts
    that differ in their text, in the contact of the reporter, in the
    identity commitment and in the rest of the transaction hash, and the
    IPFS hash plays no part in it. *)
Theorem service_message_leaves_out_content :
  forall siren localTime alert alert' m m',
    EmergencyService.priority alert = EmergencyService.priority alert' ->
    EmergencyService.location alert = EmergencyService.location alert' ->
    EmergencyService.md_alertId m = EmergencyService.md_alertId m' ->
    String.substring 0 10 (EmergencyService.md_transactionHash m)
    = String.substring 0 10 (EmergencyService.md_transactionHash m') ->
    EmergencyService.formatEmergencyServiceMessage siren localTime alert m
    = EmergencyService.formatEmergencyServiceMessage siren localTime alert' m'.
Proof.
  intros siren localTime alert alert' m m' Hp Hl Hid Htx.
  unfold EmergencyService.formatEmergencyServiceMessage.
  now rewrite Hp, Hl, Hid, Htx.
Qed.

Lemma service_message_leaves_out_content_witness :
  EmergencyService.formatEmergencyServiceMessage "!" "now"
    EmergencyScenario.alert
    {| EmergencyService.md_alertId := "alert-1";
       EmergencyService.md_transactionHash := "0xabcdef0123456789";
       EmergencyService.md_ipfsHash := None |}
  = EmergencyService.formatEmergencyServiceMessage "!" "now"
      {| EmergencyService.content := "another text";
         EmergencyService.emergencyContact := "+108";
         EmergencyService.location :=
           EmergencyService.location EmergencyScenario.alert;
         EmergencyService.zkCommitment := "0x00";
         EmergencyService.priority := Some "high" |}
      {| EmergencyService.md_alertId := "alert-1";
         EmergencyService.md_transactionHash := "0xabcdef01ffffffff";
         EmergencyService.md_ipfsHash :=
           Some (IPFSService.HashString "Qm123") |}.
Proof.
  apply service_message_leaves_out_content; reflexivity.
Defined.

(** ** The upvote routes *)

Module UpvoteFacts.

Import UpvoteRoutes.

Lemma parse_inr_hash b complaintId h zkProof action topic :
  parse b = inr (complaintId, h, zkProof, action, topic) ->
  b_nullifierHash b = Text h.
Proof.
  unfold parse.
  destruct (b_complaintId b), (b_nullifierHash b), (b_zkProof b),
    (b_action b), (b_topic b); try discriminate; now intros [= _ -> _ _ _].
Qed.

Lemma insertByUpvotes_perm c l :
  Permutation (c :: l) (insertByUpvotes c l).
Proof.
  induction l as [|d l IH]; [reflexivity |]. cbn.
  destruct (c_upvotes d - c_upvotes c <=? 0); [reflexivity |].
  rewrite <- IH. apply perm_swap.
Qed.

Lemma sortByUpvotes_perm l : Permutation l (sortByUpvotes l).
Proof.
  induction l as [|c l IH]; [reflexivity |]. cbn.
  rewrite <- insertByUpvotes_perm. now constructor.
Qed.

Lemma insertByUpvotes_descending c l :
  descending l -> descending (insertByUpvotes c l).
Proof.
  induction l as [|d l IH]; intros Hs; cbn.
  - split; [constructor | exact I].
  - destruct Hs as [Hd Hl].
    destruct (c_upvotes d - c_upvotes c <=? 0) eqn:E; cbn.
    + apply Z.leb_le in E. split; [| split; assumption].
      constructor; [lia |].
      eapply Forall_impl; [exact Hd |]. cbn. intros y Hy. lia.
    + apply Z.leb_gt in E. split; [| now apply IH].
      rewrite <- insertByUpvotes_perm. constructor; [lia | exact Hd].
Qed.

Lemma sortByUpvotes_descending l : descending (sortByUpvotes l).
Proof.
  induction l as [|c l IH]; [exact I |].
  cbn. now apply insertByUpvotes_descending.
Qed.

(** Stability: complaints with the same upvotes keep their order. *)
Lemma insertByUpvotes_stable v c l :
  List.filter (fun x => c_upvotes x =? v) (insertByUpvotes c l)
  = List.filter (fun x => c_upvotes x =? v) (c :: l).
Proof.
  induction l as [|d l IH]; [reflexivity |]. cbn [insertByUpvotes].
  destruct (c_upvotes d - c_upvotes c <=? 0) eqn:E; [reflexivity |].
  apply Z.leb_gt in E. cbn [List.filter] in *. rewrite IH.
  destruct (c_upvotes d =? v) eqn:Ed, (c_upvotes c =? v) eqn:Ec;
    try reflexivity.
  apply Z.eqb_eq in Ed, Ec. lia.
Qed.

Lemma sortByUpvotes_stable v l :
  List.filter (fun x => c_upvotes x =? v) (sortByUpvotes l)
  = List.filter (fun x => c_upvotes x =? v) l.
Proof.
  induction l as [|c l IH]; [reflexivity |]. cbn [sortByUpvotes fold_right].
  rewrite insertByUpvotes_stable. cbn [List.filter].
  fold (sortByUpvotes l). now rewrite IH.
Qed.

Lemma In_take {A} (n : nat) (l : list A) x : In x (take n l) -> In x l.
Proof.
  revert n. induction l as [|a l IH]; intros [|n] H; try contradiction.
  cbn in H. destruct H as [-> | H]; [now left | right; eauto].
Qed.

Lemma In_drop {A} (n : nat) (l : list A) x : In x (drop n l) -> In x l.
Proof.
  revert n. induction l as [|a l IH]; intros [|n] H; try exact H.
  right. eauto.
Qed.

Lemma descending_take (n : nat) (l : list Complaint) :
  descending l -> descending (take n l).
Proof.
  revert n. induction l as [|a l IH]; intros n Hs.
  - destruct n; exact I.
  - destruct n as [|n]; [exact I |]. destruct Hs as [Ha Hl]. cbn.
    split; [| now apply IH].
    rewrite Forall_forall in *. intros x Hx. apply Ha.
    apply list_elem_of_In. apply list_elem_of_In in Hx.
    eapply In_take; eassumption.
Qed.

Lemma descending_take_drop (n : nat) (l : list Complaint) :
  descending l ->
  forall x y, In x (take n l) -> In y (drop n l) ->
              c_upvotes y <= c_upvotes x.
Proof.
  revert n. induction l as [|a l IH]; intros n Hs x y Hx Hy.
  - destruct n; contradiction.
  - destruct n as [|n]; [contradiction |]. destruct Hs as [Ha Hl].
    cbn in Hx, Hy. destruct Hx as [<- | Hx]; [| now apply (IH n)].
    rewrite Forall_forall in Ha. apply Ha.
    apply list_elem_of_In. eapply In_drop; eassumption.
Qed.

End UpvoteFacts.

(** X21. The trending list is the head of the public complaints put in
    order of upvotes: what is shown and what is left out are together the
    complaints that were read, each once; the shown ones come with
    non-increasing upvotes, and none of them has fewer upvotes than one
    left out; complaints with the same upvotes keep the order in which they
    were read. *)
Theorem trending_shows_most_upvoted :
  forall complaints limit,
    exists shown hidden,
      UpvoteRoutes.trending complaints limit
      = map UpvoteRoutes.entryOf shown
      /\ Permutation complaints (shown ++ hidden)
      /\ UpvoteRoutes.descending shown
      /\ (forall x y, In x shown -> In y hidden ->
                      UpvoteRoutes.c_upvotes y <= UpvoteRoutes.c_upvotes x)
      /\ (forall v,
             List.filter (fun x => UpvoteRoutes.c_upvotes x =? v)
               (shown ++ hidden)
             = List.filter (fun x => UpvoteRoutes.c_upvotes x =? v)
                 complaints).
Proof.
  intros complaints limit.
  unfold UpvoteRoutes.trending, UpvoteRoutes.slice0.
  set (s := UpvoteRoutes.sortByUpvotes complaints).
  set (n := if limit <? 0
            then Z.to_nat (Z.max 0 (Z.of_nat (length s) + limit))
            else Z.to_nat limit).
  exists (take n s), (drop n s).
  split; [subst n; destruct (limit <? 0); reflexivity |].
  rewrite take_drop.
  split; [apply UpvoteFacts.sortByUpvotes_perm |].
  pose proof (UpvoteFacts.sortByUpvotes_descending complaints) as Hs.
  fold s in Hs.
  split; [now apply UpvoteFacts.descending_take |].
  split; [now apply UpvoteFacts.descending_take_drop |].
  intros v. apply UpvoteFacts.sortByUpvotes_stable.
Qed.

Module UpvoteHandlerFacts.

Import UpvoteRoutes.

Lemma checkNullifierUsed_eq h action topic st :
  checkNullifierUsed h action topic st
  = (Return (existsb (sameNullifier h action topic) (nullifierTracker st)),
     st).
Proof. reflexivity. Qed.

Lemma verifyProof_Return p action topic st :
  exists b, verifyProof p action topic st = (Return b, st).
Proof.
  rewrite verifyProof_unfold. apply verifyProof_try_Return.
Qed.

End UpvoteHandlerFacts.

(** X22. A request whose nullifier hash is in the ledger, under whatever
    action and topic, is never answered 200: whatever the rest of the
    request and whatever the tables of complaints and upvotes do, [POST /]
    answers another status and leaves ledger and registry as they were.
    When the hash is recorded for the very action and topic of a valid
    request on an existing complaint, the answer is 409 and nothing at all
    is written; in the other cases the tables of complaints and upvotes
    are not said to be left alone. *)
Theorem upvote_recorded_hash_no_200 :
  forall W getComplaintById createUpvote incrementComplaintUpvotes now b
         (w : W) st h,
    UpvoteRoutes.b_nullifierHash b = UpvoteRoutes.Text h ->
    hashRecorded h st = true ->
    let answer :=
      UpvoteRoutes.upvote W getComplaintById createUpvote
        incrementComplaintUpvotes now b w st in
    UpvoteRoutes.status (fst answer) <> 200%nat
    /\ snd (snd answer) = st
    /\ (forall complaintId zkProof action topic complaint,
           UpvoteRoutes.parse b
           = inr (complaintId, h, zkProof, action, topic) ->
           getComplaintById complaintId w = Return (Some complaint) ->
           fst (checkNullifierUsed h action topic st) = Return true ->
           answer = (UpvoteRoutes.AlreadyUpvoted, (w, st))).
Proof.
  intros W getComplaintById createUpvote incrementComplaintUpvotes now b w st
    h Hh Hrec answer. subst answer.
  split; [| split].
  3: { intros complaintId zkProof action topic complaint Hparse Hget Hused.
       unfold UpvoteRoutes.upvote. rewrite Hparse, Hget.
       rewrite UpvoteHandlerFacts.checkNullifierUsed_eq in Hused |- *.
       cbn in Hused. injection Hused as ->. reflexivity. }
  all: unfold UpvoteRoutes.upvote;
    destruct (UpvoteRoutes.parse b)
      as [details | [[[[complaintId h'] zkProof] action] topic]] eqn:Hparse;
    [cbn; try discriminate; reflexivity |];
    pose proof (UpvoteFacts.parse_inr_hash _ _ _ _ _ _ Hparse) as Hh';
    rewrite Hh in Hh'; injection Hh' as <-;
    rewrite UpvoteHandlerFacts.checkNullifierUsed_eq;
    (destruct (getComplaintById complaintId w) as [[complaint|]|[message]];
     [| cbn; try discriminate; reflexivity ..]);
    (destruct (existsb _ (nullifierTracker st));
     [cbn; try discriminate; reflexivity |]);
    destruct (UpvoteHandlerFacts.verifyProof_Return
                {| proof := zkProof; publicSignals := [h; action; topic];
                   nullifierHash := h |} action topic st) as [ok ->];
    (destruct ok; [| cbn; try discriminate; reflexivity]);
    (destruct (createUpvote _ w) as [[upvoteId|[message]] w1];
     [| cbn; try discriminate; reflexivity]);
    (destruct (incrementComplaintUpvotes complaintId w1)
       as [[u|[message]] w2];
     [| cbn; try discriminate; reflexivity]);
    unfold addNullifier; rewrite Hrec; cbn; try discriminate; reflexivity.
Qed.

Lemma upvote_recorded_hash_no_200_witness :
  let answer :=
    UpvoteRoutes.upvote nat UpvoteScenario.getComplaintById
      UpvoteScenario.createUpvote UpvoteScenario.incrementComplaintUpvotes
      (Scenario.requestedAt + 9) UpvoteScenario.withIssuedProof 0%nat
      Scenario.afterUpvoteIssue in
  UpvoteRoutes.status (fst answer) <> 200%nat
  /\ snd (snd answer) = Scenario.afterUpvoteIssue
  /\ (forall complaintId zkProof action topic complaint,
         UpvoteRoutes.parse UpvoteScenario.withIssuedProof
         = inr (complaintId, nullifierHash Scenario.upvoteProof, zkProof,
                action, topic) ->
         UpvoteScenario.getComplaintById complaintId 0%nat
         = Return (Some complaint) ->
         fst (checkNullifierUsed (nullifierHash Scenario.upvoteProof) action
                topic Scenario.afterUpvoteIssue) = Return true ->
         answer = (UpvoteRoutes.AlreadyUpvoted,
                   (0%nat, Scenario.afterUpvoteIssue))).
Proof.
  apply (upvote_recorded_hash_no_200 nat UpvoteScenario.getComplaintById
           UpvoteScenario.createUpvote
           UpvoteScenario.incrementComplaintUpvotes
           (Scenario.requestedAt + 9) UpvoteScenario.withIssuedProof 0%nat
           Scenario.afterUpvoteIssue (nullifierHash Scenario.upvoteProof)).
  - reflexivity.
  - vm_compute. reflexivity.
Defined.

(** X23. An upvote is accepted only for a request whose proof string is not
    empty and whose nullifier hash starts with [0x], is 66 characters long,
    is not yet in the ledger, and is itself the commitment of a valid
    record of the identity registry: the handler hands the nullifier hash
    to [verifyProof] as first public signal. Ledger and registry are then
    as before but for one entry more, the hash under the action and topic
    of the request. *)
Theorem upvote_accepted_only_if :
  forall W getComplaintById createUpvote incrementComplaintUpvotes now b
         (w w' : W) st st' upvoteId complaintId count,
    UpvoteRoutes.upvote W getComplaintById createUpvote
      incrementComplaintUpvotes now b w st
    = (UpvoteRoutes.Recorded upvoteId complaintId count, (w', st')) ->
    exists h zkProof action topic,
      UpvoteRoutes.parse b = inr (complaintId, h, zkProof, action, topic)
      /\ zkProof <> ""
      /\ startsWith h "0x" = true /\ String.length h = 66%nat
      /\ hashRecorded h st = false
      /\ (exists r, In r (zkIdentities st) /\ zi_commitment r = h
                    /\ zi_isValid r = true)
      /\ st' = {| zkIdentities := zkIdentities st;
                  nullifierTracker :=
                    nullifierTracker st
                    ++ [{| nt_nullifierHash := h; nt_action := action;
                           nt_topic := topic; nt_createdAt := now |}] |}.
Proof.
  intros W getComplaintById createUpvote incrementComplaintUpvotes now b w w'
    st st' upvoteId complaintId count.
  unfold UpvoteRoutes.upvote.
  destruct (UpvoteRoutes.parse b)
    as [details | [[[[complaintId' h] zkProof] action] topic]];
    [discriminate |].
  rewrite UpvoteHandlerFacts.checkNullifierUsed_eq.
  destruct (getComplaintById complaintId' w) as [[complaint|]|[message]];
    try discriminate.
  destruct (existsb _ (nullifierTracker st)) eqn:Hused; [discriminate |].
  rewrite verifyProof_unfold, verifyProof_try_unfold.
  unfold structuralCheck. cbn [proof publicSignals nullifierHash length].
  rewrite Hused.
  destruct (falsy zkProof) eqn:Hproof; [discriminate |].
  destruct (falsy h) eqn:Hh; [discriminate |].
  destruct (startsWith h "0x") eqn:Hprefix; [| discriminate].
  destruct (String.length h =? 66)%nat eqn:Hlen; [| discriminate].
  cbn [orb negb andb Nat.eqb].
  destruct (find _ (zkIdentities st)) as [r|] eqn:Hfind; [| discriminate].
  destruct (zi_isValid r) eqn:Hvalid; [| discriminate].
  destruct (createUpvote _ w) as [[upvoteId'|[message]] w1];
    [| discriminate].
  destruct (incrementComplaintUpvotes complaintId' w1)
    as [[u|[message]] w2]; [| discriminate].
  unfold addNullifier.
  destruct (hashRecorded h st) eqn:Hrec; [discriminate |].
  intros [= <- <- <- <- <-].
  exists h, zkProof, action, topic. split; [reflexivity |].
  split.
  { intros ->. discriminate. }
  split; [exact Hprefix |]. split; [now apply Nat.eqb_eq |].
  split; [exact Hrec |]. split; [| reflexivity].
  apply find_some in Hfind as [Hin Heq]. exists r.
  split; [exact Hin |]. split; [now apply String.eqb_eq | exact Hvalid].
Qed.

Lemma upvote_accepted_only_if_witness :
  exists h zkProof action topic,
    UpvoteRoutes.parse UpvoteScenario.withCommitment
    = inr ("c1", h, zkProof, action, topic)
    /\ zkProof <> ""
    /\ startsWith h "0x" = true /\ String.length h = 66%nat
    /\ hashRecorded h Scenario.registered = false
    /\ (exists r, In r (zkIdentities Scenario.registered)
                  /\ zi_commitment r = h /\ zi_isValid r = true)
    /\ {| zkIdentities := zkIdentities Scenario.registered;
          nullifierTracker :=
            [{| nt_nullifierHash := commitment Scenario.alice;
                nt_action := "upvote"; nt_topic := "REF-001";
                nt_createdAt := Scenario.requestedAt |}] |}
       = {| zkIdentities := zkIdentities Scenario.registered;
            nullifierTracker :=
              nullifierTracker Scenario.registered
              ++ [{| nt_nullifierHash := h; nt_action := action;
                     nt_topic := topic;
                     nt_createdAt := Scenario.requestedAt |}] |}.
Proof.
  apply (upvote_accepted_only_if nat UpvoteScenario.getComplaintById
           UpvoteScenario.createUpvote
           UpvoteScenario.incrementComplaintUpvotes Scenario.requestedAt
           UpvoteScenario.withCommitment 0%nat 1%nat Scenario.registered _
           "u1" "c1" 5).
  reflexivity.
Defined.

(** X24. A proof issued by [generateProof] cannot be spent on an upvote:
    issuance has recorded its nullifier hash, so a request that presents
    the hash with the action and topic it was issued for, on an existing
    complaint, is answered 409 and nothing is written. *)
Theorem issued_proof_cannot_upvote :
  forall W getComplaintById createUpvote incrementComplaintUpvotes now now'
         identity action topic st art st' b (w : W) complaintId zkProof
         complaint,
    generateProof now identity action topic st = (Return art, st') ->
    UpvoteRoutes.parse b
    = inr (complaintId, nullifierHash art, zkProof, action, topic) ->
    getComplaintById complaintId w = Return (Some complaint) ->
    UpvoteRoutes.upvote W getComplaintById createUpvote
      incrementComplaintUpvotes now' b w st'
    = (UpvoteRoutes.AlreadyUpvoted, (w, st')).
Proof.
  intros W getComplaintById createUpvote incrementComplaintUpvotes now now'
    identity action topic st art st' b w complaintId zkProof complaint Hgen
    Hparse Hget.
  apply generateProof_Return in Hgen as (_ & -> & ->).
  unfold UpvoteRoutes.upvote. rewrite Hparse, Hget.
  rewrite UpvoteHandlerFacts.checkNullifierUsed_eq.
  cbn [nullifierTracker nullifierHash]. rewrite existsb_app. cbn [existsb].
  rewrite sameNullifier_refl. now rewrite orb_true_r.
Qed.

Lemma issued_proof_cannot_upvote_witness :
  UpvoteRoutes.upvote nat UpvoteScenario.getComplaintById
    UpvoteScenario.createUpvote UpvoteScenario.incrementComplaintUpvotes
    (Scenario.requestedAt + 9) UpvoteScenario.withIssuedProof 0%nat
    Scenario.afterUpvoteIssue
  = (UpvoteRoutes.AlreadyUpvoted, (0%nat, Scenario.afterUpvoteIssue)).
Proof.
  apply (issued_proof_cannot_upvote nat UpvoteScenario.getComplaintById
           UpvoteScenario.createUpvote
           UpvoteScenario.incrementComplaintUpvotes Scenario.requestedAt
           (Scenario.requestedAt + 9) Scenario.alice "upvote" "REF-001"
           Scenario.registered Scenario.upvoteProof Scenario.afterUpvoteIssue
           UpvoteScenario.withIssuedProof 0%nat "c1"
           (proof Scenario.upvoteProof) UpvoteScenario.complaint).
  - vm_compute. reflexivity.
  - reflexivity.
  - reflexivity.
Defined.



(** The two upvotes of the scenario, one after the other: the first is
    answered 200, the second 500, and the counter has gone up twice. *)
Example upvote_counted_twice :
  UpvoteRoutes.upvote nat UpvoteScenario.getComplaintById
    UpvoteScenario.createUpvote UpvoteScenario.incrementComplaintUpvotes
    Scenario.requestedAt UpvoteScenario.withCommitment 0%nat
    Scenario.registered
  = (UpvoteRoutes.Recorded "u1" "c1" 5,
     (1%nat, UpvoteScenario.afterCommitmentUpvote))
  /\ UpvoteRoutes.upvote nat UpvoteScenario.getComplaintById
       UpvoteScenario.createUpvote UpvoteScenario.incrementComplaintUpvotes
       (Scenario.requestedAt + 9) UpvoteScenario.withCommitmentAgain 1%nat
       UpvoteScenario.afterCommitmentUpvote
     = (UpvoteRoutes.Failed "DuplicateNullifier",
        (2%nat, UpvoteScenario.afterCommitmentUpvote)).
Proof. vm_compute. split; reflexivity. Qed.
